(** * IotWebConfLite: persistent configuration and config portal

    A shallow embedding of [src/IotWebConf.cpp], [src/IotWebConf.h] and
    [src/IotWebConfSettings.h].

    The library targets the ESP8266 and the ESP32.  On both, plain [char]
    is unsigned, so a [char] and a [uint8_t] holding the same bits compare
    equal; bytes are [Byte.byte] throughout.  An [int] is a [Z]: every
    [int] of the code is a buffer size, a sum of buffer sizes or an EEPROM
    address, far below [2^31] on these devices.

    Every call that leaves the object (on the EEPROM, on the
    [WebRequestWrapper], on a registered callback) is recorded, in program
    order, in the list of events a method returns. *)

From Stdlib Require Import ZArith List String Ascii Bool Lia Arith.
From Stdlib Require Import Strings.Byte Numbers.DecimalString.
Import ListNotations.

Local Open Scope string_scope.
Local Open Scope list_scope.
Local Open Scope Z_scope.

(* ================================================================== *)
(** * IotWebConfSettings.h *)

Definition IOTWEBCONF_CONFIG_START : Z := 0.
Definition IOTWEBCONF_WORD_LEN : nat := 33.
Definition IOTWEBCONF_PASSWORD_LEN : nat := 33.
Definition IOTWEBCONF_CONFIG_VERSION_LENGTH : nat := 4.
Definition IOTWEBCONF_ADMIN_USER_NAME : string := "admin".

(** [CONTENT_LENGTH_UNKNOWN] of the web server library: [(size_t) -1]. *)
Definition CONTENT_LENGTH_UNKNOWN : Z := 4294967295.

(* ================================================================== *)
(** * C strings, character buffers and Arduino [String]s

    A [const char*] argument and an Arduino [String] are both a [string]:
    the characters before the terminating NUL.  A [char] array is a
    [list byte] whose length is the size of the array. *)

Definition NUL : byte := x00.

Definition bytes_of (s : string) : list byte := list_byte_of_string s.

(** The characters of a buffer up to the first NUL.  A buffer without a
    NUL has no terminator inside the array: the code then reads on past
    the end of the array, into whatever follows it in memory
    ([_apPassword] follows [_thingName]), which is outside the object
    read.  The model stops at the end of the array, so it tells what the
    code reads only for a buffer that holds a NUL; the statements about
    the thing name as a string carry that condition. *)
Fixpoint until_nul (l : list byte) : list byte :=
  match l with
  | [] => []
  | b :: l' => if Byte.eqb b NUL then [] else b :: until_nul l'
  end.

(** [String(buf)]: the C string held by a character buffer that holds a
    NUL. *)
Definition c_str (buf : list byte) : string :=
  string_of_list_byte (until_nul buf).

(** A [string] that is the content of a C string: no NUL inside. *)
Definition is_cstring (s : string) : bool :=
  forallb (fun b => negb (Byte.eqb b NUL)) (bytes_of s).

(** [s[t]] for a NUL-terminated [const char* s]: the terminator at index
    [strlen s]; an index past the terminator is outside the object and the
    model reads NUL there as well. *)
Definition char_at (s : string) (t : nat) : byte :=
  nth t (until_nul (bytes_of s)) NUL.

(** [strncpy(dest, src, n)]: at most [n] characters of [src], padded with
    NUL up to [n]; the bytes of [dest] from index [n] on are kept. *)
Definition strncpy (dest : list byte) (src : string) (n : nat) : list byte :=
  let s := firstn n (until_nul (bytes_of src)) in
  s ++ repeat NUL (n - List.length s) ++ skipn n dest.

(** [String::length]. *)
Definition strlen (s : string) : Z := Z.of_nat (String.length s).

Definition tolower (c : ascii) : ascii :=
  let n := nat_of_ascii c in
  if (65 <=? n)%nat && (n <=? 90)%nat then ascii_of_nat (n + 32) else c.

(** [String::toLowerCase]. *)
Fixpoint toLowerCase (s : string) : string :=
  match s with
  | EmptyString => EmptyString
  | String c s' => String (tolower c) (toLowerCase s')
  end.

(** [s.startsWith(s2)]: [s2] is a prefix of [s], compared character by
    character (case-sensitive). *)
Fixpoint startsWith (s s2 : string) : bool :=
  match s2 with
  | EmptyString => true
  | String c2 r2 =>
      match s with
      | EmptyString => false
      | String c r => Ascii.eqb c c2 && startsWith r r2
      end
  end.

(** [String::replace(find, repl)] of the Arduino core, by its documented
    behaviour: every occurrence of [find] is replaced, the occurrences
    being taken left to right without overlap, and the inserted text is
    not searched again; nothing is done for an empty [find].  The code
    only replaces the placeholders [{v}] and [{u}], which cannot overlap
    themselves.  [skip] counts the characters of a match still to be
    dropped. *)
Fixpoint replace_from (find repl : string) (skip : nat) (s : string) : string :=
  match s with
  | EmptyString => EmptyString
  | String c s' =>
      match skip with
      | S k => replace_from find repl k s'
      | O =>
          if startsWith s find
          then (repl ++ replace_from find repl (String.length find - 1) s')%string
          else String c (replace_from find repl 0 s')
      end
  end.

Definition replace (s find repl : string) : string :=
  match find with
  | EmptyString => s
  | _ => replace_from find repl 0 s
  end.

(** [String(n)] for a non-negative number: its decimal digits. *)
Definition String_of_Z (n : Z) : string :=
  NilZero.string_of_uint (N.to_uint (Z.to_N n)).

(* ================================================================== *)
(** * Events and the method monad *)

Inductive Markup : Type :=
| Html (text : string)
| InputField (label id value : string) (error : option string)
| GroupHeading (label : string).

Inductive Event : Type :=
(* EEPROM *)
| EEPROM_begin (size : Z)
| EEPROM_read (address : Z)
| EEPROM_write (address : Z) (value : byte)
| EEPROM_end
(* callbacks registered by the sketch *)
| call_configSavingCallback (size : Z)
| call_configSavedCallback
| call_formValidator
(* WebRequestWrapper *)
| web_hostHeader
| web_localIP
| web_uri
| web_authenticate (username password : string)
| web_requestAuthentication
| web_hasArg (name : string)
| web_arg (name : string)
| web_sendHeader (name value : string) (first : bool)
| web_setContentLength (contentLength : Z)
| web_send (code : Z) (content_type : string) (content : string)
| web_sendContent (content : Markup)
| web_stop.

(** The persistent store: the [EEPROM] object of the Arduino core, an
    external collaborator.  Its interface is the one the spec lists for
    the store adapter: open a region of a given size, read a byte, write a
    byte, close, with the bytes durable across close and reopen.
    [cells] is the durable content; [region] is [Some size] while a handle
    is open.  As on the ESP cores, an access outside the open region reads
    0 and writes nothing.  The store is as large as the region asked for:
    the limit of one flash sector that the cores put on the size is not
    modelled. *)
Record EEPROMClass : Type := {
  cells : Z -> byte;
  region : option Z
}.

Definition in_region (e : EEPROMClass) (a : Z) : bool :=
  match region e with
  | Some n => (0 <=? a) && (a <? n)
  | None => false
  end.

(** A method: from the state of the EEPROM to a result, the new state of
    the EEPROM and the events of the call. *)
Definition M (A : Type) : Type := EEPROMClass -> A * EEPROMClass * list Event.

Definition ret {A} (a : A) : M A := fun e => (a, e, []).

Definition bind {A B} (m : M A) (k : A -> M B) : M B :=
  fun e =>
    let '(a, e1, t1) := m e in
    let '(b, e2, t2) := k a e1 in
    (b, e2, t1 ++ t2).

Definition emit (ev : Event) : M unit := fun e => (tt, e, [ev]).

Declare Scope method_scope.
Delimit Scope method_scope with method.
Notation "x <- m ;; k" := (bind m (fun x => k))
  (at level 61, m at next level, right associativity) : method_scope.
Notation "m ;; k" := (bind m (fun _ => k))
  (at level 61, right associativity) : method_scope.
Local Open Scope method_scope.

Definition when (b : bool) (m : M unit) : M unit := if b then m else ret tt.

Definition value_of {A} (r : A * EEPROMClass * list Event) : A := fst (fst r).
Definition store_of {A} (r : A * EEPROMClass * list Event) : EEPROMClass := snd (fst r).
Definition events_of {A} (r : A * EEPROMClass * list Event) : list Event := snd r.

Module EEPROM.

Definition begin (size : Z) : M unit :=
  fun e => (tt, {| cells := cells e; region := Some size |}, [EEPROM_begin size]).

Definition end_ : M unit :=
  fun e => (tt, {| cells := cells e; region := None |}, [EEPROM_end]).

Definition read (address : Z) : M byte :=
  fun e => (if in_region e address then cells e address else NUL,
            e, [EEPROM_read address]).

Definition write (address : Z) (value : byte) : M unit :=
  fun e =>
    (tt,
     if in_region e address
     then {| cells := fun a => if a =? address then value else cells e a;
             region := region e |}
     else e,
     [EEPROM_write address value]).

End EEPROM.

(* ================================================================== *)
(** * WebRequestWrapper (external collaborator) *)

Record WebRequestWrapper : Type := {
  request_hostHeader : string;
  request_localIP : Z;
  request_uri : string;
  request_args : list (string * string);
  request_credentials : string -> string -> bool
}.

Fixpoint lookup_arg (args : list (string * string)) (name : string) : option string :=
  match args with
  | [] => None
  | (n, v) :: rest => if String.eqb n name then Some v else lookup_arg rest name
  end.

Module Web.

Definition hostHeader (w : WebRequestWrapper) : M string :=
  emit web_hostHeader ;; ret (request_hostHeader w).

Definition localIP (w : WebRequestWrapper) : M Z :=
  emit web_localIP ;; ret (request_localIP w).

Definition uri (w : WebRequestWrapper) : M string :=
  emit web_uri ;; ret (request_uri w).

Definition authenticate (w : WebRequestWrapper) (username password : string) : M bool :=
  emit (web_authenticate username password) ;;
  ret (request_credentials w username password).

Definition requestAuthentication (w : WebRequestWrapper) : M unit :=
  emit web_requestAuthentication.

Definition hasArg (w : WebRequestWrapper) (name : string) : M bool :=
  emit (web_hasArg name) ;;
  ret (match lookup_arg (request_args w) name with Some _ => true | None => false end).

(** An absent field reads as the empty [String]. *)
Definition arg (w : WebRequestWrapper) (name : string) : M string :=
  emit (web_arg name) ;;
  ret (match lookup_arg (request_args w) name with Some v => v | None => "" end).

Definition sendHeader (w : WebRequestWrapper) (name value : string) (first : bool) : M unit :=
  emit (web_sendHeader name value first).

Definition setContentLength (w : WebRequestWrapper) (n : Z) : M unit :=
  emit (web_setContentLength n).

Definition send (w : WebRequestWrapper) (code : Z) (content_type content : string) : M unit :=
  emit (web_send code content_type content).

Definition sendContent (w : WebRequestWrapper) (content : string) : M unit :=
  emit (web_sendContent (Html content)).

Definition stop (w : WebRequestWrapper) : M unit :=
  emit web_stop.

End Web.

(** The value [arg(name)] returns, without the call. *)
Definition arg_value (w : WebRequestWrapper) (name : string) : string :=
  match lookup_arg (request_args w) name with Some v => v | None => "" end.

(* ================================================================== *)
(** * The parameter registry (IotWebConfParameter.h)

    [ConfigItem], [Parameter] and [ParameterGroup] are declared and
    defined in IotWebConfParameter.h/.cpp, which are not among the
    sources; IotWebConf.cpp and IotWebConf.h use them.  The members below
    are the ones these two files touch ([defaultValue], [visible],
    [errorMessage], [getId], the constructor arguments); the methods
    follow section 4.1 of the spec. *)

(** Modelled from the spec: the leaf class [Parameter] of
    IotWebConfParameter.h ([Parameter] is a reserved word here, hence the
    suffix).  "stable identifier, human label, default value, current
    value (fixed-capacity byte buffer sized at construction), visibility
    flag, current error message".  The capacity of the buffer is the
    length of [valueBuffer]; a [NULL] error message is [None]; an absent
    default is the empty string. *)
Record Parameter_t : Type := {
  label : string;
  getId : string;
  valueBuffer : list byte;
  defaultValue : string;
  visible : bool;
  errorMessage : option string
}.

Definition set_valueBuffer (p : Parameter_t) (v : list byte) : Parameter_t :=
  {| label := label p; getId := getId p; valueBuffer := v;
     defaultValue := defaultValue p; visible := visible p;
     errorMessage := errorMessage p |}.

Definition set_defaultValue (p : Parameter_t) (d : string) : Parameter_t :=
  {| label := label p; getId := getId p; valueBuffer := valueBuffer p;
     defaultValue := d; visible := visible p;
     errorMessage := errorMessage p |}.

Definition set_errorMessage (p : Parameter_t) (m : option string) : Parameter_t :=
  {| label := label p; getId := getId p; valueBuffer := valueBuffer p;
     defaultValue := defaultValue p; visible := visible p;
     errorMessage := m |}.

(** Modelled from the spec: the constructor [TextParameter(label, id,
    valueBuffer, length)] of IotWebConfParameter.h, with the arguments
    IotWebConf.h gives it.  The parameter owns the first [length] bytes of
    the array; no default is given, the item is visible and carries no
    error. *)
Definition TextParameter (label id : string) (valueBuffer : list byte) (length : nat)
  : Parameter_t :=
  {| label := label; getId := id; valueBuffer := firstn length valueBuffer;
     defaultValue := ""; visible := true; errorMessage := None |}.

(** Modelled from the spec: the constructor [PasswordParameter(label, id,
    valueBuffer, length)] of IotWebConfParameter.h; the spec gives every
    leaf the same capabilities. *)
Definition PasswordParameter (label id : string) (valueBuffer : list byte) (length : nat)
  : Parameter_t :=
  TextParameter label id valueBuffer length.

(** Modelled from the spec: [ConfigItem] of IotWebConfParameter.h, a leaf
    or a [ParameterGroup] with an identifier, an optional label and its
    children in registration order. *)
#[warnings="-register-all"] Inductive ConfigItem : Type :=
| Leaf (p : Parameter_t)
| ParameterGroup (id : string) (label : option string) (items : list ConfigItem).

(** Modelled from the spec: [SerializationData] of IotWebConfParameter.h;
    the closures of IotWebConf.cpp read its members [data] and [length]. *)
Record SerializationData : Type := {
  data : list byte;
  length : nat
}.

(** The leaves of a tree, in registration order. *)
Fixpoint leaves (c : ConfigItem) : list Parameter_t :=
  match c with
  | Leaf p => [p]
  | ParameterGroup _ _ items =>
      (fix leaves_of (l : list ConfigItem) : list Parameter_t :=
         match l with
         | [] => []
         | c :: l' => leaves c ++ leaves_of l'
         end) items
  end.

Module Item.

(** Modelled from the spec: [Parameter::getStorageSize], absent from the
    sources.  "for a leaf, its fixed capacity". *)
Definition getStorageSize (p : Parameter_t) : Z :=
  Z.of_nat (List.length (valueBuffer p)).

(** Modelled from the spec: [Parameter::applyDefaultValue], absent from
    the sources.  "leaf copies its default into its current buffer": a
    copy into the fixed-capacity buffer, as [strncpy] makes it. *)
Definition applyDefaultValue (p : Parameter_t) : Parameter_t :=
  set_valueBuffer p
    (strncpy (valueBuffer p) (defaultValue p) (List.length (valueBuffer p))).

(** Modelled from the spec: [Parameter::clearErrorMessage], absent from
    the sources.  It resets the validation state of the item. *)
Definition clearErrorMessage (p : Parameter_t) : Parameter_t :=
  set_errorMessage p None.

(** Modelled from the spec: [Parameter::loadValue], absent from the
    sources.  "leaf requests exactly storageSize() bytes via a
    caller-supplied sequential byte-span consumer (one call per leaf)
    and copies them into its current buffer".  The consumer receives the
    buffer and its length and fills the buffer; [L] is the state the
    consumer's closure captures by reference. *)
Definition loadValue {L} (doLoad : SerializationData -> L -> M (list byte * L))
    (p : Parameter_t) (l : L) : M (Parameter_t * L) :=
  r <- doLoad {| data := valueBuffer p; length := List.length (valueBuffer p) |} l ;;
  ret (set_valueBuffer p (fst r), snd r).

(** Modelled from the spec: [Parameter::storeValue], absent from the
    sources.  "mirror of loadValue, leaf hands its current buffer's
    bytes to the producer". *)
Definition storeValue {L} (doStore : SerializationData -> L -> M L)
    (p : Parameter_t) (l : L) : M L :=
  doStore {| data := valueBuffer p; length := List.length (valueBuffer p) |} l.

(** Modelled from the spec: [Parameter::update], absent from the
    sources.  "leaf reads its identifier's submitted value from the
    external form-request accessor and copies (length-capped to its
    byte-capacity) into its current buffer". *)
Definition update (w : WebRequestWrapper) (p : Parameter_t) : M Parameter_t :=
  newValue <- Web.arg w (getId p) ;;
  ret (set_valueBuffer p
         (strncpy (valueBuffer p) newValue (List.length (valueBuffer p)))).

(** Modelled from the spec: [Parameter::renderHtml], absent from the
    sources.  "leaf renders a labeled input pre-filled either from
    submitted form data (if hasSubmittedData) or current value, plus any
    error message".  The markup template is not in the sources; the
    rendered input is the event [InputField]. *)
Definition renderHtml (dataArrived : bool) (w : WebRequestWrapper) (p : Parameter_t)
  : M unit :=
  value <- (if dataArrived then Web.arg w (getId p) else ret (c_str (valueBuffer p))) ;;
  emit (web_sendContent (InputField (label p) (getId p) value (errorMessage p))).

End Item.

Module Group.

(** Modelled from the spec: [ParameterGroup::getStorageSize], absent
    from the sources.  "for a group, recursive sum over children, in
    registration order". *)
Fixpoint getStorageSize (c : ConfigItem) : Z :=
  match c with
  | Leaf p => Item.getStorageSize p
  | ParameterGroup _ _ items =>
      (fix sum (l : list ConfigItem) : Z :=
         match l with
         | [] => 0
         | c :: l' => getStorageSize c + sum l'
         end) items
  end.

(** Modelled from the spec: the recursion of a group method that changes
    each leaf on its own and makes no call outside.  "group recurses over
    children in order". *)
Fixpoint map_leaves (f : Parameter_t -> Parameter_t) (c : ConfigItem) : ConfigItem :=
  match c with
  | Leaf p => Leaf (f p)
  | ParameterGroup i lab items =>
      ParameterGroup i lab
        ((fix go (l : list ConfigItem) : list ConfigItem :=
            match l with
            | [] => []
            | c :: l' => map_leaves f c :: go l'
            end) items)
  end.

(** Modelled from the spec: [ParameterGroup::applyDefaultValue], absent
    from the sources.  "group recurses over children in order". *)
Definition applyDefaultValue (c : ConfigItem) : ConfigItem :=
  map_leaves Item.applyDefaultValue c.

(** Modelled from the spec: [ParameterGroup::clearErrorMessage], absent
    from the sources.  "group recurses". *)
Definition clearErrorMessage (c : ConfigItem) : ConfigItem :=
  map_leaves Item.clearErrorMessage c.

(** Modelled from the spec: the recursion of a group method that calls
    out at each leaf.  The leaves are visited in registration order, the
    closure state [L] and the store are threaded through, and the visited
    objects are returned in place. *)
Fixpoint traverse {L} (f : Parameter_t -> L -> M (Parameter_t * L))
    (c : ConfigItem) (l : L) : M (ConfigItem * L) :=
  match c with
  | Leaf p => r <- f p l ;; ret (Leaf (fst r), snd r)
  | ParameterGroup i lab items =>
      r <- (fix go (cs : list ConfigItem) (l : L) : M (list ConfigItem * L) :=
              match cs with
              | [] => ret ([], l)
              | c :: cs' =>
                  r1 <- traverse f c l ;;
                  r2 <- go cs' (snd r1) ;;
                  ret (fst r1 :: fst r2, snd r2)
              end) items l ;;
      ret (ParameterGroup i lab (fst r), snd r)
  end.

(** Modelled from the spec: [ParameterGroup::loadValue], absent from the
    sources.  One call of the consumer per leaf, in traversal order. *)
Definition loadValue {L} (doLoad : SerializationData -> L -> M (list byte * L))
    (c : ConfigItem) (l : L) : M (ConfigItem * L) :=
  traverse (Item.loadValue doLoad) c l.

(** Modelled from the spec: [ParameterGroup::storeValue], absent from
    the sources.  "mirror of loadValue", "in the same traversal order". *)
Definition storeValue {L} (doStore : SerializationData -> L -> M L)
    (c : ConfigItem) (l : L) : M L :=
  r <- traverse (fun p l => l' <- Item.storeValue doStore p l ;; ret (p, l')) c l ;;
  ret (snd r).

(** Modelled from the spec: [ParameterGroup::update], absent from the
    sources.  "group recurses". *)
Definition update (w : WebRequestWrapper) (c : ConfigItem) : M ConfigItem :=
  r <- traverse (fun p (_ : unit) => p' <- Item.update w p ;; ret (p', tt)) c tt ;;
  ret (fst r).

(** Modelled from the spec: [ParameterGroup::renderHtml], absent from
    the sources.  "invisible items render nothing but are still included
    in load/store traversal; group recurses, concatenating markup and
    propagating a group label heading if present". *)
Fixpoint renderHtml (dataArrived : bool) (w : WebRequestWrapper) (c : ConfigItem)
  : M unit :=
  match c with
  | Leaf p => when (visible p) (Item.renderHtml dataArrived w p)
  | ParameterGroup _ lab items =>
      match lab with
      | Some text => emit (web_sendContent (GroupHeading text))
      | None => ret tt
      end ;;
      (fix go (cs : list ConfigItem) : M unit :=
         match cs with
         | [] => ret tt
         | c :: cs' => renderHtml dataArrived w c ;; go cs'
         end) items
  end.

End Group.

(* ================================================================== *)
(** * IotWebConf.h *)

Definition quote : string := String (ascii_of_nat 34) EmptyString.
Definition newline : string := String (ascii_of_nat 10) EmptyString.

Definition IOTWEBCONF_HTML_HEAD : string :=
  ("<!DOCTYPE html><html lang=" ++ quote ++ "en" ++ quote ++ "><head><meta name="
   ++ quote ++ "viewport" ++ quote ++ " content=" ++ quote
   ++ "width=device-width, initial-scale=1, user-scalable=no" ++ quote
   ++ "/><title>{v}</title>" ++ newline)%string.
Definition IOTWEBCONF_HTML_STYLE_INNER : string :=
  (".de{background-color:#ffaaaa;} "
   ++ ".em{font-size:0.8em;color:#bb0000;padding-bottom:0px;} .c{text-align: "
   ++ "center;} div,input,select{padding:5px;font-size:1em;} input{width:95%;} "
   ++ "select{width:100%} "
   ++ "input[type=checkbox]{width:auto;scale:1.5;margin:10px;} body{text-align: "
   ++ "center;font-family:verdana;} "
   ++ "button{border:0;border-radius:0.3rem;background-color:#16A1E7;color:#fff;"
   ++ "line-height:2.4rem;font-size:1.2rem;width:100%;} "
   ++ "fieldset{border-radius:0.3rem;margin: 0px;}" ++ newline)%string.
Definition IOTWEBCONF_HTML_SCRIPT_INNER : string :=
  ("function "
   ++ "c(l){document.getElementById('s').value=l.innerText||l.textContent;"
   ++ "document.getElementById('p').focus();}; function pw(id) { var "
   ++ "x=document.getElementById(id); if(x.type==='password') {x.type='text';} "
   ++ "else {x.type='password';} };")%string.
Definition IOTWEBCONF_HTML_HEAD_END : string := "</head><body>".
Definition IOTWEBCONF_HTML_BODY_INNER : string :=
  ("<div style='text-align:left;display:inline-block;min-width:260px;'>"
   ++ newline)%string.
Definition IOTWEBCONF_HTML_FORM_START : string :=
  ("<form action='' method='post'><input type='hidden' name='iotSave' "
   ++ "value='true'>" ++ newline)%string.
Definition IOTWEBCONF_HTML_FORM_END : string :=
  ("<button type='submit' style='margin-top: 10px;'>Apply</button></form>"
   ++ newline)%string.
Definition IOTWEBCONF_HTML_SAVED : string :=
  ("<div>Configuration saved<br />Return to <a href='/'>home "
   ++ "page</a>.</div>" ++ newline)%string.
Definition IOTWEBCONF_HTML_END : string := "</div></body></html>".
Definition IOTWEBCONF_HTML_UPDATE : string :=
  ("<div style='padding-top:25px;'><a href='{u}'>Firmware update</a></div>"
   ++ newline)%string.
Definition IOTWEBCONF_HTML_CONFIG_VER : string :=
  ("<div style='font-size: .6em;'>Firmware config version '{v}'</div>"
   ++ newline)%string.

(** [HtmlFormatProvider]: its virtual methods, which a sketch may
    override through [setHtmlFormatProvider]. *)
Record HtmlFormatProvider : Type := {
  getHead : string;
  getStyle : string;
  getScript : string;
  getHeadExtension : string;
  getHeadEnd : string;
  getFormStart : string;
  getFormEnd : string;
  getFormSaved : string;
  getEnd : string;
  getUpdate : string;
  getConfigVer : string
}.

(** The methods as the base class defines them. *)
Definition htmlFormatProviderInstance : HtmlFormatProvider :=
  {| getHead := IOTWEBCONF_HTML_HEAD;
     getStyle := ("<style>" ++ IOTWEBCONF_HTML_STYLE_INNER ++ "</style>")%string;
     getScript := ("<script>" ++ IOTWEBCONF_HTML_SCRIPT_INNER ++ "</script>")%string;
     getHeadExtension := "";
     getHeadEnd := (IOTWEBCONF_HTML_HEAD_END ++ IOTWEBCONF_HTML_BODY_INNER)%string;
     getFormStart := IOTWEBCONF_HTML_FORM_START;
     getFormEnd := IOTWEBCONF_HTML_FORM_END;
     getFormSaved := IOTWEBCONF_HTML_SAVED;
     getEnd := IOTWEBCONF_HTML_END;
     getUpdate := IOTWEBCONF_HTML_UPDATE;
     getConfigVer := IOTWEBCONF_HTML_CONFIG_VER |}.

(** The members of [class IotWebConf].  The two system parameters own the
    arrays [_thingName] and [_apPassword]: the arrays are their
    [valueBuffer]s.  The children of the four groups are pointers to
    objects held elsewhere; each object is kept once:
    - [_systemParameters] has [_thingNameParameter], [_apPasswordParameter]
      (constructor) and then [systemItems] ([addSystemParameter]);
    - [_customParameterGroups] has [customItems] ([addParameterGroup]);
    - [_hiddenParameters] has [hiddenItems] ([addHiddenParameter]);
    - [_allParameters] has these three groups (constructor).
    A callback that returns nothing is known by whether it is registered
    ([true]) or [NULL] ([false]). *)
Record IotWebConf : Type := {
  _initialApPassword : string;
  _configVersion : string;
  _thingNameParameter : Parameter_t;
  _apPasswordParameter : Parameter_t;
  systemItems : list ConfigItem;
  customItems : list ConfigItem;
  hiddenItems : list ConfigItem;
  _configSavingCallback : bool;
  _configSavedCallback : bool;
  _formValidator : option (WebRequestWrapper -> bool);
  _updatePath : option string;
  htmlFormatProvider : HtmlFormatProvider
}.

Definition _thingName (this : IotWebConf) : list byte :=
  valueBuffer (_thingNameParameter this).
Definition _apPassword (this : IotWebConf) : list byte :=
  valueBuffer (_apPasswordParameter this).

Definition _systemParameters (this : IotWebConf) : ConfigItem :=
  ParameterGroup "iwcSys" (Some "System configuration")
    (Leaf (_thingNameParameter this) :: Leaf (_apPasswordParameter this)
       :: systemItems this).
Definition _customParameterGroups (this : IotWebConf) : ConfigItem :=
  ParameterGroup "iwcCustom" None (customItems this).
Definition _hiddenParameters (this : IotWebConf) : ConfigItem :=
  ParameterGroup "hidden" None (hiddenItems this).
Definition _allParameters (this : IotWebConf) : ConfigItem :=
  ParameterGroup "iwcAll" None
    [_systemParameters this; _customParameterGroups this; _hiddenParameters this].

(** The group members are objects changed in place.  A method of a group
    returns the visited tree; these functions put its nodes back into the
    members they are. *)
Definition with_items (this : IotWebConf) (tn ap : Parameter_t)
    (sys cust hid : list ConfigItem) : IotWebConf :=
  {| _initialApPassword := _initialApPassword this;
     _configVersion := _configVersion this;
     _thingNameParameter := tn;
     _apPasswordParameter := ap;
     systemItems := sys;
     customItems := cust;
     hiddenItems := hid;
     _configSavingCallback := _configSavingCallback this;
     _configSavedCallback := _configSavedCallback this;
     _formValidator := _formValidator this;
     _updatePath := _updatePath this;
     htmlFormatProvider := htmlFormatProvider this |}.

Definition set_systemParameters (t : ConfigItem) (this : IotWebConf) : IotWebConf :=
  match t with
  | ParameterGroup _ _ (Leaf tn :: Leaf ap :: items) =>
      with_items this tn ap items (customItems this) (hiddenItems this)
  | _ => this
  end.

Definition set_customParameterGroups (t : ConfigItem) (this : IotWebConf) : IotWebConf :=
  match t with
  | ParameterGroup _ _ items =>
      with_items this (_thingNameParameter this) (_apPasswordParameter this)
        (systemItems this) items (hiddenItems this)
  | _ => this
  end.

Definition set_hiddenParameters (t : ConfigItem) (this : IotWebConf) : IotWebConf :=
  match t with
  | ParameterGroup _ _ items =>
      with_items this (_thingNameParameter this) (_apPasswordParameter this)
        (systemItems this) (customItems this) items
  | _ => this
  end.

Definition set_allParameters (t : ConfigItem) (this : IotWebConf) : IotWebConf :=
  match t with
  | ParameterGroup _ _ [s; c; h] =>
      set_hiddenParameters h (set_customParameterGroups c (set_systemParameters s this))
  | _ => this
  end.

Definition set_thingNameParameter (p : Parameter_t) (this : IotWebConf) : IotWebConf :=
  with_items this p (_apPasswordParameter this)
    (systemItems this) (customItems this) (hiddenItems this).

Definition set_apPasswordParameter (p : Parameter_t) (this : IotWebConf) : IotWebConf :=
  with_items this (_thingNameParameter this) p
    (systemItems this) (customItems this) (hiddenItems this).

(* ================================================================== *)
(** * IotWebConf.cpp *)

(** The constructor, with the member initialisers of IotWebConf.h.  The
    two arrays start zeroed (an object with static storage duration).
    The constructor also clears [_apTimeoutParameter.visible]; that member
    has no declaration in IotWebConf.h and is added to no group. *)
Definition IotWebConf_new
    (defaultThingName initialApPassword configVersion : string) : IotWebConf :=
  {| _initialApPassword := initialApPassword;
     _configVersion := configVersion;
     _thingNameParameter :=
       set_defaultValue
         (TextParameter "Thing name" "iwcThingName"
            (repeat NUL IOTWEBCONF_WORD_LEN) IOTWEBCONF_WORD_LEN)
         defaultThingName;
     _apPasswordParameter :=
       PasswordParameter "AP password" "iwcApPassword"
         (repeat NUL IOTWEBCONF_PASSWORD_LEN) IOTWEBCONF_PASSWORD_LEN;
     systemItems := [];
     customItems := [];
     hiddenItems := [];
     _configSavingCallback := false;
     _configSavedCallback := false;
     _formValidator := None;
     _updatePath := None;
     htmlFormatProvider := htmlFormatProviderInstance |}.

Definition getThingName (this : IotWebConf) : list byte := _thingName this.

Definition addParameterGroup (group : ConfigItem) (this : IotWebConf) : IotWebConf :=
  with_items this (_thingNameParameter this) (_apPasswordParameter this)
    (systemItems this) (customItems this ++ [group]) (hiddenItems this).

Definition addHiddenParameter (parameter : ConfigItem) (this : IotWebConf) : IotWebConf :=
  with_items this (_thingNameParameter this) (_apPasswordParameter this)
    (systemItems this) (customItems this) (hiddenItems this ++ [parameter]).

Definition addSystemParameter (parameter : ConfigItem) (this : IotWebConf) : IotWebConf :=
  with_items this (_thingNameParameter this) (_apPasswordParameter this)
    (systemItems this ++ [parameter]) (customItems this) (hiddenItems this).

Definition setFormValidator (func : WebRequestWrapper -> bool) (this : IotWebConf)
  : IotWebConf :=
  {| _initialApPassword := _initialApPassword this;
     _configVersion := _configVersion this;
     _thingNameParameter := _thingNameParameter this;
     _apPasswordParameter := _apPasswordParameter this;
     systemItems := systemItems this;
     customItems := customItems this;
     hiddenItems := hiddenItems this;
     _configSavingCallback := _configSavingCallback this;
     _configSavedCallback := _configSavedCallback this;
     _formValidator := Some func;
     _updatePath := _updatePath this;
     htmlFormatProvider := htmlFormatProvider this |}.

Definition setConfigSavingCallback (this : IotWebConf) : IotWebConf :=
  {| _initialApPassword := _initialApPassword this;
     _configVersion := _configVersion this;
     _thingNameParameter := _thingNameParameter this;
     _apPasswordParameter := _apPasswordParameter this;
     systemItems := systemItems this;
     customItems := customItems this;
     hiddenItems := hiddenItems this;
     _configSavingCallback := true;
     _configSavedCallback := _configSavedCallback this;
     _formValidator := _formValidator this;
     _updatePath := _updatePath this;
     htmlFormatProvider := htmlFormatProvider this |}.

Definition setConfigSavedCallback (this : IotWebConf) : IotWebConf :=
  {| _initialApPassword := _initialApPassword this;
     _configVersion := _configVersion this;
     _thingNameParameter := _thingNameParameter this;
     _apPasswordParameter := _apPasswordParameter this;
     systemItems := systemItems this;
     customItems := customItems this;
     hiddenItems := hiddenItems this;
     _configSavingCallback := _configSavingCallback this;
     _configSavedCallback := true;
     _formValidator := _formValidator this;
     _updatePath := _updatePath this;
     htmlFormatProvider := htmlFormatProvider this |}.

(** Output on [Serial] (the debug lines) is left out of every method. *)
Definition initConfig (this : IotWebConf) : Z :=
  Group.getStorageSize (_allParameters this).

(** [for (int t = 0; t < length; t++) valueBuffer[t] = EEPROM.read(start + t)]:
    the bytes read by the iterations [t], [t+1], ... ([count] of them). *)
Fixpoint readEepromValue_loop (start : Z) (t count : nat) : M (list byte) :=
  match count with
  | O => ret []
  | S k =>
      b <- EEPROM.read (start + Z.of_nat t) ;;
      bs <- readEepromValue_loop start (S t) k ;;
      ret (b :: bs)
  end.

(** The new content of [valueBuffer]: its first [length] bytes are
    overwritten. *)
Definition readEepromValue (start : Z) (valueBuffer : list byte) (length : nat)
  : M (list byte) :=
  bs <- readEepromValue_loop start 0 length ;;
  ret (bs ++ skipn length valueBuffer).

Fixpoint writeEepromValue_loop (start : Z) (valueBuffer : list byte) (t count : nat)
  : M unit :=
  match count with
  | O => ret tt
  | S k =>
      EEPROM.write (start + Z.of_nat t) (nth t valueBuffer NUL) ;;
      writeEepromValue_loop start valueBuffer (S t) k
  end.

Definition writeEepromValue (start : Z) (valueBuffer : list byte) (length : nat)
  : M unit :=
  writeEepromValue_loop start valueBuffer 0 length.

(** The loop of [testConfigVersion] from iteration [t], [count] iterations
    left; the first differing byte returns [false] at once. *)
Fixpoint testConfigVersion_loop (this : IotWebConf) (t count : nat) : M bool :=
  match count with
  | O => ret true
  | S k =>
      b <- EEPROM.read (IOTWEBCONF_CONFIG_START + Z.of_nat t) ;;
      if negb (Byte.eqb b (char_at (_configVersion this) t))
      then ret false
      else testConfigVersion_loop this (S t) k
  end.

Definition testConfigVersion (this : IotWebConf) : M bool :=
  testConfigVersion_loop this 0 IOTWEBCONF_CONFIG_VERSION_LENGTH.

Fixpoint saveConfigVersion_loop (this : IotWebConf) (t count : nat) : M unit :=
  match count with
  | O => ret tt
  | S k =>
      EEPROM.write (IOTWEBCONF_CONFIG_START + Z.of_nat t)
        (char_at (_configVersion this) t) ;;
      saveConfigVersion_loop this (S t) k
  end.

Definition saveConfigVersion (this : IotWebConf) : M unit :=
  saveConfigVersion_loop this 0 IOTWEBCONF_CONFIG_VERSION_LENGTH.

(** The closure passed to [loadValue]; [start] is captured by reference. *)
Definition loadConfig_lambda (serializationData : SerializationData) (start : Z)
  : M (list byte * Z) :=
  d <- readEepromValue start (data serializationData) (length serializationData) ;;
  ret (d, start + Z.of_nat (length serializationData)).

(** Both branches return inside the [if]; the [EEPROM.end()] that follows
    the [if] statement is never reached. *)
Definition loadConfig (this : IotWebConf) : M (bool * IotWebConf) :=
  let size := initConfig this in
  EEPROM.begin
    (IOTWEBCONF_CONFIG_START + Z.of_nat IOTWEBCONF_CONFIG_VERSION_LENGTH + size) ;;
  ok <- testConfigVersion this ;;
  if ok then
    let start := IOTWEBCONF_CONFIG_START + Z.of_nat IOTWEBCONF_CONFIG_VERSION_LENGTH in
    r <- Group.loadValue loadConfig_lambda (_allParameters this) start ;;
    ret (true, set_allParameters (fst r) this)
  else
    ret (false,
         set_allParameters (Group.applyDefaultValue (_allParameters this)) this).

(** The closure passed to [storeValue]. *)
Definition saveConfig_lambda (serializationData : SerializationData) (start : Z)
  : M Z :=
  writeEepromValue start (data serializationData) (length serializationData) ;;
  ret (start + Z.of_nat (length serializationData)).

(** [saveConfig] also sets [_apTimeoutMs] from [_apTimeoutStr]; neither
    member is declared in IotWebConf.h nor read by any other method. *)
Definition saveConfig (this : IotWebConf) : M unit :=
  let size := initConfig this in
  when (_configSavingCallback this) (emit (call_configSavingCallback size)) ;;
  EEPROM.begin
    (IOTWEBCONF_CONFIG_START + Z.of_nat IOTWEBCONF_CONFIG_VERSION_LENGTH + size) ;;
  saveConfigVersion this ;;
  let start := IOTWEBCONF_CONFIG_START + Z.of_nat IOTWEBCONF_CONFIG_VERSION_LENGTH in
  Group.storeValue saveConfig_lambda (_allParameters this) start ;;
  EEPROM.end_ ;;
  when (_configSavedCallback this) (emit call_configSavedCallback).

(** The host name and mDNS set-up after the load belong to the network
    stack and are left out. *)
Definition init (this : IotWebConf) : M (bool * IotWebConf) :=
  r <- loadConfig this ;;
  let validConfig := fst r in
  let this := snd r in
  let this :=
    if negb validConfig
    then set_apPasswordParameter
           (set_valueBuffer (_apPasswordParameter this)
              (strncpy (_apPassword this) (_initialApPassword this)
                 IOTWEBCONF_PASSWORD_LEN))
           this
    else this in
  ret (validConfig, this).

(** [IOTWEBCONF_DEBUG_TO_SERIAL] is defined unless the sketch disables
    it.  What the debug blocks print is left out; the calls they make on
    the [WebRequestWrapper] to obtain it are kept. *)
Definition IOTWEBCONF_DEBUG_TO_SERIAL : bool := true.

Definition thingName_errorMessage : string :=
  "Give a name with at least 3 characters.".
Definition apPassword_errorMessage : string :=
  "Password length must be at least 8 characters.".

Definition validateForm (this : IotWebConf) (webRequestWrapper : WebRequestWrapper)
  : M (bool * IotWebConf) :=
  (* -- Clean previous error messages. *)
  let this :=
    set_systemParameters (Group.clearErrorMessage (_systemParameters this)) this in
  let this :=
    set_customParameterGroups
      (Group.clearErrorMessage (_customParameterGroups this)) this in
  (* -- Call external validator. *)
  valid <- match _formValidator this with
           | Some func => emit call_formValidator ;; ret (func webRequestWrapper)
           | None => ret true
           end ;;
  (* -- Internal validation. *)
  v <- Web.arg webRequestWrapper (getId (_thingNameParameter this)) ;;
  let l := strlen v in
  let this :=
    if 3 >? l
    then set_thingNameParameter
           (set_errorMessage (_thingNameParameter this) (Some thingName_errorMessage))
           this
    else this in
  let valid := if 3 >? l then false else valid in
  v <- Web.arg webRequestWrapper (getId (_apPasswordParameter this)) ;;
  let l := strlen v in
  let this :=
    if (0 <? l) && (l <? 8)
    then set_apPasswordParameter
           (set_errorMessage (_apPasswordParameter this) (Some apPassword_errorMessage))
           this
    else this in
  let valid := if (0 <? l) && (l <? 8) then false else valid in
  ret (valid, this).

(** The first part of the pages: head, script, style and the start of the
    body. *)
Definition page_head (this : IotWebConf) : string :=
  let p := htmlFormatProvider this in
  (replace (getHead p) "{v}" "Config ESP" ++ getScript p ++ getStyle p
     ++ getHeadExtension p ++ getHeadEnd p)%string.

(** The last part of the config form: the end of the form, the update
    link when an update path is set, the config version, the end. *)
Definition form_tail (this : IotWebConf) : string :=
  let p := htmlFormatProvider this in
  (getFormEnd p
     ++ match _updatePath this with
        | Some u => replace (getUpdate p) "{u}" u
        | None => ""
        end
     ++ replace (getConfigVer p) "{v}" (_configVersion this)
     ++ getEnd p)%string.

Definition saved_page (this : IotWebConf) : string :=
  (page_head this ++ "Configuration saved. "
     ++ "Return to <a href='/'>home page</a>." ++ getEnd (htmlFormatProvider this))%string.

(** The first branch of [handleConfig]: display the config portal. *)
Definition displayConfigPortal (this : IotWebConf) (dataArrived : bool)
    (webRequestWrapper : WebRequestWrapper) : M unit :=
  Web.sendHeader webRequestWrapper
    "Cache-Control" "no-cache, no-store, must-revalidate" false ;;
  Web.sendHeader webRequestWrapper "Pragma" "no-cache" false ;;
  Web.sendHeader webRequestWrapper "Expires" "-1" false ;;
  Web.setContentLength webRequestWrapper CONTENT_LENGTH_UNKNOWN ;;
  Web.send webRequestWrapper 200 "text/html; charset=UTF-8" "" ;;
  Web.sendContent webRequestWrapper
    (page_head this ++ getFormStart (htmlFormatProvider this))%string ;;
  (* -- Add parameters to the form *)
  Group.renderHtml dataArrived webRequestWrapper (_systemParameters this) ;;
  Group.renderHtml dataArrived webRequestWrapper (_customParameterGroups this) ;;
  Web.sendContent webRequestWrapper (form_tail this) ;;
  Web.sendContent webRequestWrapper "" ;;
  Web.stop webRequestWrapper.

(** The second branch of [handleConfig]: save config. *)
Definition saveAndConfirm (this : IotWebConf) (webRequestWrapper : WebRequestWrapper)
  : M IotWebConf :=
  s <- Group.update webRequestWrapper (_systemParameters this) ;;
  let this := set_systemParameters s this in
  c <- Group.update webRequestWrapper (_customParameterGroups this) ;;
  let this := set_customParameterGroups c this in
  saveConfig this ;;
  let page := saved_page this in
  Web.sendHeader webRequestWrapper "Content-Length" (String_of_Z (strlen page)) false ;;
  Web.send webRequestWrapper 200 "text/html; charset=UTF-8" page ;;
  ret this.

Definition handleConfig (this : IotWebConf) (webRequestWrapper : WebRequestWrapper)
  : M IotWebConf :=
  (* -- Authenticate *)
  authenticated <- Web.authenticate webRequestWrapper
                     IOTWEBCONF_ADMIN_USER_NAME (c_str (_apPassword this)) ;;
  if negb authenticated then
    Web.requestAuthentication webRequestWrapper ;;
    ret this
  else
    dataArrived <- Web.hasArg webRequestWrapper "iotSave" ;;
    (* [!dataArrived || !validateForm(...)]: the form is validated only
       when data arrived *)
    r <- (if negb dataArrived then ret (true, this)
          else v <- validateForm this webRequestWrapper ;;
               ret (negb (fst v), snd v)) ;;
    let this := snd r in
    if (fst r : bool) then
      displayConfigPortal this dataArrived webRequestWrapper ;;
      ret this
    else
      saveAndConfirm this webRequestWrapper.

(** Is this an IP? *)
Fixpoint isIp (str : string) : bool :=
  match str with
  | EmptyString => true
  | String ch rest =>
      let c := Z.of_nat (nat_of_ascii ch) in
      if negb (c =? 46) && ((c <? 48) || (c >? 57))
      then false
      else isIp rest
  end.

(** IP to String? *)
Definition toStringIp (ip : Z) : string :=
  let octet (i : Z) := String_of_Z (Z.land (Z.shiftr ip (8 * i)) 255) in
  (octet 0 ++ "." ++ octet 1 ++ "." ++ octet 2 ++ "." ++ octet 3)%string.

(** Redirect to captive portal if we got a request for another domain.
    Return true in that case so the page handler do not try to handle the
    request again. *)
Definition handleCaptivePortal (this : IotWebConf) (webRequestWrapper : WebRequestWrapper)
  : M bool :=
  host <- Web.hostHeader webRequestWrapper ;;
  let thingName := toLowerCase (c_str (_thingName this)) in
  if negb (isIp host) && negb (startsWith host thingName) then
    (if IOTWEBCONF_DEBUG_TO_SERIAL
     then ip <- Web.localIP webRequestWrapper ;; ret tt
     else ret tt) ;;
    ip <- Web.localIP webRequestWrapper ;;
    Web.sendHeader webRequestWrapper
      "Location" ("http://" ++ toStringIp ip)%string true ;;
    Web.send webRequestWrapper 302 "text/plain" "" ;;
    Web.stop webRequestWrapper ;;
    ret true
  else
    ret false.

Definition handleNotFound (this : IotWebConf) (webRequestWrapper : WebRequestWrapper)
  : M unit :=
  handled <- handleCaptivePortal this webRequestWrapper ;;
  if handled then ret tt
  else
    (if IOTWEBCONF_DEBUG_TO_SERIAL
     then u <- Web.uri webRequestWrapper ;; ret tt
     else ret tt) ;;
    u <- Web.uri webRequestWrapper ;;
    let message :=
      ("Requested a non-existing page" ++ newline ++ newline
         ++ "URI: " ++ u ++ newline)%string in
    Web.sendHeader webRequestWrapper
      "Cache-Control" "no-cache, no-store, must-revalidate" false ;;
    Web.sendHeader webRequestWrapper "Pragma" "no-cache" false ;;
    Web.sendHeader webRequestWrapper "Expires" "-1" false ;;
    Web.sendHeader webRequestWrapper "Content-Length" (String_of_Z (strlen message)) false ;;
    Web.send webRequestWrapper 404 "text/plain" message.

(* ================================================================== *)
(** * Vocabulary of the statements *)

(** The loop of a group over its children, by name. *)
Definition traverse_items {L} (f : Parameter_t -> L -> M (Parameter_t * L))
  : list ConfigItem -> L -> M (list ConfigItem * L) :=
  fix go (cs : list ConfigItem) (l : L) : M (list ConfigItem * L) :=
    match cs with
    | [] => ret ([], l)
    | c :: cs' =>
        r1 <- Group.traverse f c l ;;
        r2 <- go cs' (snd r1) ;;
        ret (fst r1 :: fst r2, snd r2)
    end.

Definition renderHtml_items (dataArrived : bool) (w : WebRequestWrapper)
  : list ConfigItem -> M unit :=
  fix go (cs : list ConfigItem) : M unit :=
    match cs with
    | [] => ret tt
    | c :: cs' => Group.renderHtml dataArrived w c ;; go cs'
    end.

Definition storageSize_items (cs : list ConfigItem) : Z :=
  fold_right (fun c acc => Group.getStorageSize c + acc) 0 cs.

(** The bytes of the leaves of a tree, concatenated in traversal order. *)
Definition flat (ps : list Parameter_t) : list byte := flat_map valueBuffer ps.

(** Each leaf with its offset: [start] plus the running sum of the
    storage sizes of the leaves before it. *)
Fixpoint layout (start : Z) (ps : list Parameter_t) : list (Z * Parameter_t) :=
  match ps with
  | [] => []
  | p :: ps' => (start, p) :: layout (start + Item.getStorageSize p) ps'
  end.

(** The calls that write [bytes] to the addresses [start], [start+1], ... *)
Fixpoint write_events (start : Z) (bytes : list byte) : list Event :=
  match bytes with
  | [] => []
  | b :: bs => EEPROM_write start b :: write_events (start + 1) bs
  end.

(** The calls that read [n] bytes from the addresses [start], [start+1], ... *)
Fixpoint read_events (start : Z) (n : nat) : list Event :=
  match n with
  | O => []
  | S k => EEPROM_read start :: read_events (start + 1) k
  end.

Definition leaf_writes (op : Z * Parameter_t) : list Event :=
  write_events (fst op) (valueBuffer (snd op)).

Definition leaf_reads (op : Z * Parameter_t) : list Event :=
  read_events (fst op) (List.length (valueBuffer (snd op))).

(** The bytes [_configVersion[0]], ..., [_configVersion[3]]. *)
Definition version_tag (this : IotWebConf) : list byte :=
  map (char_at (_configVersion this)) (seq 0 IOTWEBCONF_CONFIG_VERSION_LENGTH).

(** The offset of the first leaf. *)
Definition first_offset : Z :=
  IOTWEBCONF_CONFIG_START + Z.of_nat IOTWEBCONF_CONFIG_VERSION_LENGTH.

(** The size both [loadConfig] and [saveConfig] pass to [EEPROM.begin]. *)
Definition region_size (this : IotWebConf) : Z :=
  first_offset + Group.getStorageSize (_allParameters this).

(** All leaves that the persistence traversal visits. *)
Definition all_leaves (this : IotWebConf) : list Parameter_t :=
  leaves (_allParameters this).

(** The byte a read at [a] returns. *)
Definition peek (e : EEPROMClass) (a : Z) : byte :=
  if in_region e a then cells e a else NUL.

(** [e'] is [e] with [bytes] written from [start] on, the handle as it
    was. *)
Definition stored (e e' : EEPROMClass) (start : Z) (bytes : list byte) : Prop :=
  region e' = region e /\
  forall a,
    cells e' a =
    if (start <=? a) && (a <? start + Z.of_nat (List.length bytes))
    then nth (Z.to_nat (a - start)) bytes NUL
    else cells e a.

(** Induction on trees, with the hypothesis on every child of a group. *)
Fixpoint ConfigItem_tree_ind (P : ConfigItem -> Prop)
    (HLeaf : forall p, P (Leaf p))
    (HGroup : forall i lab items, Forall P items -> P (ParameterGroup i lab items))
    (c : ConfigItem) : P c :=
  match c with
  | Leaf p => HLeaf p
  | ParameterGroup i lab items =>
      HGroup i lab items
        ((fix go (l : list ConfigItem) : Forall P l :=
            match l with
            | [] => Forall_nil P
            | c' :: l' => Forall_cons c' (ConfigItem_tree_ind P HLeaf HGroup c') (go l')
            end) items)
  end.

(** The leaf actions of [storeValue] and [loadValue] as [saveConfig] and
    [loadConfig] instantiate them. *)
Definition store_leaf (p : Parameter_t) (start : Z) : M (Parameter_t * Z) :=
  l' <- Item.storeValue saveConfig_lambda p start ;; ret (p, l').

Definition load_leaf (p : Parameter_t) (start : Z) : M (Parameter_t * Z) :=
  Item.loadValue loadConfig_lambda p start.

(** A result with the events [t] in front of its own. *)
Definition after {A} (t : list Event) (r : A * EEPROMClass * list Event)
  : A * EEPROMClass * list Event :=
  (value_of r, store_of r, t ++ events_of r).

(* ================================================================== *)
(** * Concrete objects, stores and requests *)

(** An erased flash sector: every byte is 0xFF and no handle is open. *)
Definition erased_store : EEPROMClass :=
  {| cells := fun _ => xff; region := None |}.

(** A freshly constructed object, as a sketch declares it. *)
Definition fresh_thing : IotWebConf :=
  IotWebConf_new "MyThing" "secret123" "init".

Definition text_item (id : string) (content : string) (capacity : nat) (default : string)
  : Parameter_t :=
  {| label := id; getId := id;
     valueBuffer := strncpy (repeat NUL capacity) content capacity;
     defaultValue := default; visible := true; errorMessage := None |}.

(** The same object with one custom group of one item and one hidden
    item registered. *)
Definition registered_thing : IotWebConf :=
  addHiddenParameter (Leaf (text_item "serial" "SN-0042" 8 ""))
    (addParameterGroup
       (ParameterGroup "mqtt" (Some "MQTT") [Leaf (text_item "mqttServer" "" 16 "broker")])
       fresh_thing).

(** The object once the user has named the device. *)
Definition named_thing (name : string) : IotWebConf :=
  set_thingNameParameter
    (set_valueBuffer (_thingNameParameter registered_thing)
       (strncpy (_thingName registered_thing) name IOTWEBCONF_WORD_LEN))
    registered_thing.

(** A request of an authenticated client of the access point
    192.168.4.1. *)
Definition request (host : string) (args : list (string * string)) : WebRequestWrapper :=
  {| request_hostHeader := host;
     request_localIP := 17082560;
     request_uri := "/config";
     request_args := args;
     request_credentials := fun _ _ => true |}.

Definition is_read (ev : Event) : Prop := exists a, ev = EEPROM_read a.

(** The calls of a redirecting [handleCaptivePortal]: the redirect to the
    device's own address and the close of the connection. *)
Definition redirect_events (w : WebRequestWrapper) : list Event :=
  [web_hostHeader; web_localIP; web_localIP;
   web_sendHeader "Location" ("http://" ++ toStringIp (request_localIP w))%string true;
   web_send 302 "text/plain" "";
   web_stop].

(** A character of a dotted number: ['.'] or a decimal digit. *)
Definition dot_or_digit (c : ascii) : Prop :=
  c = "."%char \/ (48 <= nat_of_ascii c <= 57)%nat.

(** The host starts with the name when case is ignored on both sides. *)
Definition case_insensitive_prefix_match (host name : string) : bool :=
  startsWith (toLowerCase host) (toLowerCase name).

(** C3 as the spec words it: redirect exactly when the host is neither an
    IP (by [isIp]) nor a case-insensitive prefix match of the thing name. *)
Definition redirects_unless_ip_or_name
    (this : IotWebConf) (w : WebRequestWrapper) (e : EEPROMClass) : Prop :=
  value_of (handleCaptivePortal this w e) = true <->
  (isIp (request_hostHeader w) = false
   /\ case_insensitive_prefix_match (request_hostHeader w) (c_str (_thingName this))
      = false).

(** What the external validator answers; [true] when none is registered. *)
Definition external_result (this : IotWebConf) (w : WebRequestWrapper) : bool :=
  match _formValidator this with
  | Some func => func w
  | None => true
  end.

(** The lengths the two built-in checks look at. *)
Definition thingName_length (this : IotWebConf) (w : WebRequestWrapper) : Z :=
  strlen (arg_value w (getId (_thingNameParameter this))).
Definition apPassword_length (this : IotWebConf) (w : WebRequestWrapper) : Z :=
  strlen (arg_value w (getId (_apPasswordParameter this))).

(** The two built-in checks, as predicates on the lengths. *)
Definition thingName_check (l : Z) : bool := 3 <=? l.
Definition apPassword_check (l : Z) : bool := (l =? 0) || (8 <=? l).

(** A submission of the config form with the given thing name and AP
    password. *)
Definition submission (thingName apPassword : string) : WebRequestWrapper :=
  request "192.168.4.1"
    [("iotSave", "true"); ("iwcThingName", thingName); ("iwcApPassword", apPassword)].

(** [hasArg(name)], without the call. *)
Definition has_field (w : WebRequestWrapper) (name : string) : bool :=
  match lookup_arg (request_args w) name with Some _ => true | None => false end.

(** The client presents the credentials of the administrator. *)
Definition authenticated (this : IotWebConf) (w : WebRequestWrapper) : bool :=
  request_credentials w IOTWEBCONF_ADMIN_USER_NAME (c_str (_apPassword this)).

(** A leaf after [update], without the call. *)
Definition updated (w : WebRequestWrapper) (p : Parameter_t) : Parameter_t :=
  set_valueBuffer p
    (strncpy (valueBuffer p) (arg_value w (getId p)) (List.length (valueBuffer p))).

(** Calls on the [WebRequestWrapper], as opposed to calls on the EEPROM
    and on the callbacks of the save path. *)
Definition is_web_event (ev : Event) : bool :=
  match ev with
  | EEPROM_begin _ | EEPROM_read _ | EEPROM_write _ _ | EEPROM_end
  | call_configSavingCallback _ | call_configSavedCallback | call_formValidator => false
  | _ => true
  end.

(** Calls of the save path: on the EEPROM or on the two save callbacks. *)
Definition is_save_event (ev : Event) : bool :=
  match ev with
  | EEPROM_begin _ | EEPROM_read _ | EEPROM_write _ _ | EEPROM_end
  | call_configSavingCallback _ | call_configSavedCallback => true
  | _ => false
  end.

(** The rendered input of the thing name with the error of the length
    check. *)
Definition thingName_input_with_error (this : IotWebConf) (w : WebRequestWrapper)
  : Event :=
  web_sendContent
    (InputField (label (_thingNameParameter this)) (getId (_thingNameParameter this))
       (arg_value w (getId (_thingNameParameter this)))
       (Some thingName_errorMessage)).

(** C8 as the spec words it: after a valid submission every leaf that the
    persistence traversal visits has been updated from the form. *)
Definition updates_every_persisted_leaf
    (this : IotWebConf) (w : WebRequestWrapper) (e : EEPROMClass) : Prop :=
  all_leaves (value_of (handleConfig this w e))
  = map (updated w) (all_leaves (snd (value_of (validateForm this w e)))).

(** A valid submission that also carries a field named like the hidden
    item of [registered_thing]. *)
Definition submission_with_serial : WebRequestWrapper :=
  request "192.168.4.1"
    [("iotSave", "true"); ("iwcThingName", "garage"); ("iwcApPassword", "");
     ("mqttServer", "10.0.0.2"); ("serial", "SN-9999")].

(** The calls a sketch makes between the constructor and [init]. *)
Inductive Registration : Type :=
| call_addParameterGroup (group : ConfigItem)
| call_addHiddenParameter (parameter : ConfigItem)
| call_addSystemParameter (parameter : ConfigItem)
| call_setFormValidator (func : WebRequestWrapper -> bool)
| call_setConfigSavingCallback
| call_setConfigSavedCallback.

Definition register (this : IotWebConf) (r : Registration) : IotWebConf :=
  match r with
  | call_addParameterGroup g => addParameterGroup g this
  | call_addHiddenParameter p => addHiddenParameter p this
  | call_addSystemParameter p => addSystemParameter p this
  | call_setFormValidator f => setFormValidator f this
  | call_setConfigSavingCallback => setConfigSavingCallback this
  | call_setConfigSavedCallback => setConfigSavedCallback this
  end.

(** The object a sketch has before [init]: constructed, then set up. *)
Definition sketch_object (defaultThingName initialApPassword configVersion : string)
    (setup : list Registration) : IotWebConf :=
  fold_left register setup
    (IotWebConf_new defaultThingName initialApPassword configVersion).

(** The head of the store does not hold the version tag. *)
Definition tag_absent (this : IotWebConf) (e : EEPROMClass) : Prop :=
  exists t, (t < IOTWEBCONF_CONFIG_VERSION_LENGTH)%nat
            /\ cells e (IOTWEBCONF_CONFIG_START + Z.of_nat t)
               <> char_at (_configVersion this) t.

(** The string is a C string that fits, with its terminator, an array of
    [capacity] characters. *)
Definition fits (s : string) (capacity : nat) : Prop :=
  is_cstring s = true /\ (String.length s < capacity)%nat.

(** The character array holds a NUL: read as a C string, it ends inside
    the array. *)
Definition terminated (buf : list byte) : bool :=
  existsb (fun b => Byte.eqb b NUL) buf.

(** What the rendering of an item tree sends, in order: for a group its
    heading, when it has a label, then its children; for a visible leaf
    its input, filled from the submitted field (read with [arg]) when
    data arrived, and from the current value otherwise; nothing for an
    invisible leaf. *)
Fixpoint item_events (dataArrived : bool) (w : WebRequestWrapper) (c : ConfigItem)
  : list Event :=
  match c with
  | Leaf p =>
      if visible p then
        if dataArrived
        then [web_arg (getId p);
              web_sendContent
                (InputField (label p) (getId p) (arg_value w (getId p)) (errorMessage p))]
        else [web_sendContent
                (InputField (label p) (getId p) (c_str (valueBuffer p)) (errorMessage p))]
      else []
  | ParameterGroup _ lab items =>
      match lab with
      | Some text => [web_sendContent (GroupHeading text)]
      | None => []
      end
      ++ flat_map (item_events dataArrived w) items
  end.

(* ================================================================== *)
(** * Vocabulary of the further properties *)

(** The bytes the store holds at [start], [start+1], ... ([n] of them). *)
Definition span (e : EEPROMClass) (start : Z) (n : nat) : list byte :=
  map (fun i => cells e (start + Z.of_nat i)) (seq 0 n).

(** The capacities of the buffers of a list of leaves: what decides the
    offsets and the size of the region. *)
Definition capacities (ps : list Parameter_t) : list nat :=
  map (fun p => List.length (valueBuffer p)) ps.

(** A leaf after [loadValue] at its offset: its buffer holds the bytes of
    the store from that offset on. *)
Definition loaded_leaf (e : EEPROMClass) (op : Z * Parameter_t) : Parameter_t :=
  set_valueBuffer (snd op) (span e (fst op) (List.length (valueBuffer (snd op)))).

(** The store holds the version tag of the object at its head. *)
Definition tag_present (this : IotWebConf) (e : EEPROMClass) : Prop :=
  forall i, (i < IOTWEBCONF_CONFIG_VERSION_LENGTH)%nat ->
    cells e (IOTWEBCONF_CONFIG_START + Z.of_nat i) = char_at (_configVersion this) i.

(** A store in which a configuration was saved: the one of a device named
    ["garage"]. *)
Definition saved_store : EEPROMClass :=
  store_of (saveConfig (named_thing "garage") erased_store).

(** An answer to the client: a call of [send]. *)
Definition is_answer (ev : Event) : bool :=
  match ev with
  | web_send _ _ _ => true
  | _ => false
  end.


(** The body of the answer of [handleNotFound]. *)
Definition not_found_message (w : WebRequestWrapper) : string :=
  ("Requested a non-existing page" ++ newline ++ newline
     ++ "URI: " ++ request_uri w ++ newline)%string.

(* ================================================================== *)
(** * Running methods *)

Lemma bind_run {A B} (m : M A) (k : A -> M B) e a e1 t1 b e2 t2 :
  m e = (a, e1, t1) -> k a e1 = (b, e2, t2) -> bind m k e = (b, e2, t1 ++ t2).
Proof. intros H1 H2. unfold bind. rewrite H1, H2. reflexivity. Qed.

Lemma bind_step {A B} (m : M A) (k : A -> M B) e a e1 t1 :
  m e = (a, e1, t1) -> bind m k e = after t1 (k a e1).
Proof.
  intros H. unfold bind, after. rewrite H.
  destruct (k a e1) as [[b e2] t2]. reflexivity.
Qed.

Lemma value_of_after {A} t (r : A * EEPROMClass * list Event) :
  value_of (after t r) = value_of r.
Proof. reflexivity. Qed.

Lemma store_of_after {A} t (r : A * EEPROMClass * list Event) :
  store_of (after t r) = store_of r.
Proof. reflexivity. Qed.

Lemma events_of_after {A} t (r : A * EEPROMClass * list Event) :
  events_of (after t r) = t ++ events_of r.
Proof. reflexivity. Qed.

Ltac mrun H := rewrite (bind_step _ _ _ _ _ _ H).
Ltac mstep := erewrite bind_step by reflexivity.

Lemma bind_value {A B} (m : M A) (k : A -> M B) e :
  value_of (bind m k e) = value_of (k (value_of (m e)) (store_of (m e))).
Proof.
  unfold bind, value_of, store_of.
  destruct (m e) as [[a e1] t1]; simpl. destruct (k a e1) as [[b e2] t2]; reflexivity.
Qed.

Lemma bind_store {A B} (m : M A) (k : A -> M B) e :
  store_of (bind m k e) = store_of (k (value_of (m e)) (store_of (m e))).
Proof.
  unfold bind, value_of, store_of.
  destruct (m e) as [[a e1] t1]; simpl. destruct (k a e1) as [[b e2] t2]; reflexivity.
Qed.

Lemma bind_events {A B} (m : M A) (k : A -> M B) e :
  events_of (bind m k e) =
  events_of (m e) ++ events_of (k (value_of (m e)) (store_of (m e))).
Proof.
  unfold bind, value_of, store_of, events_of.
  destruct (m e) as [[a e1] t1]; simpl. destruct (k a e1) as [[b e2] t2]; reflexivity.
Qed.

Lemma run_eta {A} (r : A * EEPROMClass * list Event) :
  r = (value_of r, store_of r, events_of r).
Proof. destruct r as [[a e] t]. reflexivity. Qed.

(** The equations of the group methods. *)

Lemma leaves_group i lab items :
  leaves (ParameterGroup i lab items) = flat_map leaves items.
Proof. reflexivity. Qed.

Lemma getStorageSize_group i lab items :
  Group.getStorageSize (ParameterGroup i lab items) = storageSize_items items.
Proof. simpl. induction items as [|c cs IH]; simpl; [reflexivity | now rewrite IH]. Qed.

Lemma traverse_group {L} (f : Parameter_t -> L -> M (Parameter_t * L)) i lab items l :
  Group.traverse f (ParameterGroup i lab items) l =
  (r <- traverse_items f items l ;; ret (ParameterGroup i lab (fst r), snd r)).
Proof. reflexivity. Qed.

Lemma map_leaves_group f i lab items :
  Group.map_leaves f (ParameterGroup i lab items) =
  ParameterGroup i lab (map (Group.map_leaves f) items).
Proof. reflexivity. Qed.

Lemma renderHtml_group d w i lab items :
  Group.renderHtml d w (ParameterGroup i lab items) =
  (match lab with
   | Some text => emit (web_sendContent (GroupHeading text))
   | None => ret tt
   end ;; renderHtml_items d w items).
Proof. reflexivity. Qed.

(* ================================================================== *)
(** * Lists of bytes and events *)

Lemma write_events_app start b1 b2 :
  write_events start (b1 ++ b2) =
  write_events start b1 ++ write_events (start + Z.of_nat (List.length b1)) b2.
Proof.
  revert start. induction b1 as [|b bs IH]; intros start; simpl.
  - now rewrite Z.add_0_r.
  - rewrite IH. do 3 f_equal. lia.
Qed.

Lemma read_events_add start a b :
  read_events start (a + b) =
  read_events start a ++ read_events (start + Z.of_nat a) b.
Proof.
  revert start. induction a as [|a IH]; intros start.
  - simpl. now rewrite Z.add_0_r.
  - cbn [Nat.add read_events app]. rewrite IH. do 3 f_equal. lia.
Qed.

Lemma flat_app ps qs : flat (ps ++ qs) = flat ps ++ flat qs.
Proof. unfold flat. apply flat_map_app. Qed.

Lemma layout_app start ps qs :
  layout start (ps ++ qs) =
  layout start ps ++ layout (start + Z.of_nat (List.length (flat ps))) qs.
Proof.
  revert start. induction ps as [|p ps IH]; intros start; simpl.
  - now rewrite Z.add_0_r.
  - rewrite IH. do 3 f_equal. unfold Item.getStorageSize.
    rewrite length_app. lia.
Qed.

Lemma getStorageSize_flat c :
  Group.getStorageSize c = Z.of_nat (List.length (flat (leaves c))).
Proof.
  induction c as [p | i lab items IH] using ConfigItem_tree_ind.
  - simpl. unfold Item.getStorageSize. now rewrite app_nil_r.
  - rewrite getStorageSize_group, leaves_group.
    induction IH as [|c cs Hc _ IHcs]; simpl; [reflexivity|].
    rewrite flat_app, length_app, Hc, IHcs. lia.
Qed.

Lemma getStorageSize_nonneg c : 0 <= Group.getStorageSize c.
Proof. rewrite getStorageSize_flat. lia. Qed.

Lemma map_seq_nth {A} (g : nat -> A) (l : list A) d :
  (forall i, (i < List.length l)%nat -> g i = nth i l d) ->
  map g (seq 0 (List.length l)) = l.
Proof.
  revert g. induction l as [|x l IH]; intros g H; simpl; [reflexivity|].
  f_equal.
  - apply (H 0%nat). simpl. lia.
  - rewrite <- seq_shift, map_map. apply IH.
    intros i Hi. apply (H (S i)). simpl. lia.
Qed.

Lemma firstn_skipn_step {A} (l : list A) t k d :
  (t < List.length l)%nat ->
  firstn (S k) (skipn t l) = nth t l d :: firstn k (skipn (S t) l).
Proof.
  revert t. induction l as [|x l IH]; intros t H; simpl in H; [lia|].
  destruct t as [|t]; [reflexivity|].
  cbn [skipn nth]. apply IH. lia.
Qed.

(* ================================================================== *)
(** * The store *)

Lemma stored_nil e start : stored e e start [].
Proof.
  split; [reflexivity|]. intros a. simpl.
  destruct ((start <=? a) && (a <? start + 0)) eqn:E; [|reflexivity].
  apply andb_true_iff in E. destruct E as [E1 E2].
  apply Z.leb_le in E1. apply Z.ltb_lt in E2. lia.
Qed.

Lemma stored_app e e1 e2 start b1 b2 :
  stored e e1 start b1 ->
  stored e1 e2 (start + Z.of_nat (List.length b1)) b2 ->
  stored e e2 start (b1 ++ b2).
Proof.
  intros [R1 C1] [R2 C2]. split; [congruence|].
  intros a. rewrite C2, C1, length_app.
  destruct (Z.leb_spec start a), (Z.ltb_spec a (start + Z.of_nat (List.length b1)));
    destruct (Z.leb_spec (start + Z.of_nat (List.length b1)) a);
    destruct (Z.ltb_spec a (start + Z.of_nat (List.length b1) + Z.of_nat (List.length b2)));
    destruct (Z.ltb_spec a (start + Z.of_nat (List.length b1 + List.length b2)));
    simpl; try lia; try reflexivity.
  - rewrite app_nth1 by lia. reflexivity.
  - rewrite app_nth2 by lia. f_equal. lia.
Qed.

Lemma stored_peek e e' start bytes n i :
  stored e e' start bytes -> region e = Some n ->
  0 <= start -> start + Z.of_nat (List.length bytes) <= n ->
  (i < List.length bytes)%nat ->
  cells e' (start + Z.of_nat i) = nth i bytes NUL.
Proof.
  intros [R C] Hn H0 Hle Hi. rewrite C.
  destruct (Z.leb_spec start (start + Z.of_nat i)); [|lia].
  destruct (Z.ltb_spec (start + Z.of_nat i) (start + Z.of_nat (List.length bytes))); [|lia].
  simpl. f_equal. lia.
Qed.

Lemma stored_outside e e' start bytes a :
  stored e e' start bytes ->
  a < start \/ start + Z.of_nat (List.length bytes) <= a ->
  cells e' a = cells e a.
Proof.
  intros [R C] H. rewrite C.
  destruct (Z.leb_spec start a), (Z.ltb_spec a (start + Z.of_nat (List.length bytes)));
    simpl; try reflexivity; lia.
Qed.

Lemma write_run e n a v :
  region e = Some n -> 0 <= a < n ->
  exists e', EEPROM.write a v e = (tt, e', [EEPROM_write a v]) /\ stored e e' a [v].
Proof.
  intros Hn Ha. unfold EEPROM.write, in_region. rewrite Hn.
  destruct (Z.leb_spec 0 a); [|lia]. destruct (Z.ltb_spec a n); [|lia]. simpl.
  eexists. split; [reflexivity|]. split; [simpl; congruence|].
  intros b. simpl.
  destruct (Z.eqb_spec b a) as [->|Hne].
  - destruct (Z.leb_spec a a); [|lia]. destruct (Z.ltb_spec a (a + 1)); [|lia].
    simpl. now rewrite Z.sub_diag.
  - destruct (Z.leb_spec a b), (Z.ltb_spec b (a + 1)); simpl; try reflexivity; lia.
Qed.

Lemma read_run e a : EEPROM.read a e = (peek e a, e, [EEPROM_read a]).
Proof. reflexivity. Qed.

Lemma peek_in_region e n a :
  region e = Some n -> 0 <= a < n -> peek e a = cells e a.
Proof.
  intros Hn Ha. unfold peek, in_region. rewrite Hn.
  destruct (Z.leb_spec 0 a); [|lia]. destruct (Z.ltb_spec a n); [|lia]. reflexivity.
Qed.

Lemma writeEepromValue_loop_run count : forall start buf t e n,
  region e = Some n -> 0 <= start ->
  start + Z.of_nat t + Z.of_nat count <= n ->
  (t + count <= List.length buf)%nat ->
  exists e',
    writeEepromValue_loop start buf t count e =
      (tt, e', write_events (start + Z.of_nat t) (firstn count (skipn t buf)))
    /\ stored e e' (start + Z.of_nat t) (firstn count (skipn t buf)).
Proof.
  induction count as [|k IH]; intros start buf t e n Hn H0 Hle Hlen.
  - exists e. split; [reflexivity | apply stored_nil].
  - destruct (write_run e n (start + Z.of_nat t) (nth t buf NUL) Hn ltac:(lia))
      as (e1 & Hw & Hs1).
    destruct (IH start buf (S t) e1 n) as (e2 & Hl & Hs2); try lia.
    { destruct Hs1 as [R _]. congruence. }
    exists e2. rewrite (firstn_skipn_step buf t k NUL) by lia. split.
    + cbn [writeEepromValue_loop].
      rewrite (bind_run _ _ _ _ _ _ _ _ _ Hw Hl). cbn [app write_events].
      do 3 f_equal. lia.
    + change (nth t buf NUL :: firstn k (skipn (S t) buf))
        with ([nth t buf NUL] ++ firstn k (skipn (S t) buf)).
      eapply stored_app; [exact Hs1|].
      replace (start + Z.of_nat t + Z.of_nat (List.length [nth t buf NUL]))
        with (start + Z.of_nat (S t)) by (simpl; lia).
      exact Hs2.
Qed.

Lemma readEepromValue_loop_run count : forall start t e,
  readEepromValue_loop start t count e =
    (map (fun i => peek e (start + Z.of_nat i)) (seq t count), e,
     read_events (start + Z.of_nat t) count).
Proof.
  induction count as [|k IH]; intros start t e; [reflexivity|].
  cbn [readEepromValue_loop].
  erewrite bind_run; [| apply read_run |].
  2:{ erewrite bind_run; [| apply IH | reflexivity ]. reflexivity. }
  cbn [seq map read_events app]. rewrite app_nil_r.
  do 3 f_equal. lia.
Qed.

(* ================================================================== *)
(** * Storing and loading a tree *)

Lemma storageSize_items_flat items :
  storageSize_items items = Z.of_nat (List.length (flat (flat_map leaves items))).
Proof.
  induction items as [|c cs IH]; simpl; [reflexivity|].
  rewrite flat_app, length_app, IH, getStorageSize_flat. lia.
Qed.

Lemma store_leaf_run p start e n :
  region e = Some n -> 0 <= start -> start + Item.getStorageSize p <= n ->
  exists e',
    store_leaf p start e =
      ((p, start + Item.getStorageSize p), e', write_events start (valueBuffer p))
    /\ stored e e' start (valueBuffer p).
Proof.
  intros Hn H0 Hle. unfold Item.getStorageSize in *.
  destruct (writeEepromValue_loop_run (List.length (valueBuffer p)) start
              (valueBuffer p) 0 e n Hn H0) as (e' & Hrun & Hst); try (simpl; lia).
  cbn [skipn] in Hrun, Hst. rewrite firstn_all in Hrun, Hst.
  replace (start + Z.of_nat 0) with start in Hrun, Hst by lia.
  exists e'. split; [|exact Hst].
  unfold store_leaf, Item.storeValue, saveConfig_lambda, writeEepromValue. cbn [data length].
  erewrite bind_run; [| erewrite bind_run; [| exact Hrun | reflexivity]; reflexivity
                     | reflexivity ].
  now rewrite !app_nil_r.
Qed.

Lemma store_tree_run c : forall start e n,
  region e = Some n -> 0 <= start -> start + Group.getStorageSize c <= n ->
  exists e',
    Group.traverse store_leaf c start e =
      ((c, start + Group.getStorageSize c), e',
       flat_map leaf_writes (layout start (leaves c)))
    /\ stored e e' start (flat (leaves c)).
Proof.
  induction c as [p | i lab items IH] using ConfigItem_tree_ind;
    intros start e n Hn H0 Hle.
  - destruct (store_leaf_run p start e n Hn H0 Hle) as (e' & Hrun & Hst).
    exists e'. split.
    + cbn [Group.traverse]. erewrite bind_run; [| exact Hrun | reflexivity].
      cbn. now rewrite !app_nil_r.
    + cbn. now rewrite app_nil_r.
  - assert (Hitems : exists e',
      traverse_items store_leaf items start e =
        ((items, start + storageSize_items items), e',
         flat_map leaf_writes (layout start (flat_map leaves items)))
      /\ stored e e' start (flat (flat_map leaves items))).
    { rewrite getStorageSize_group in Hle. clear i lab.
      revert start e Hn H0 Hle.
      induction IH as [|c cs Hc _ IHcs]; intros start e Hn H0 Hle.
      - exists e. split; [cbn; now rewrite Z.add_0_r | apply stored_nil].
      - cbn [storageSize_items fold_right] in Hle.
        fold (storageSize_items cs) in Hle.
        pose proof (getStorageSize_nonneg c) as Hc0.
        assert (0 <= storageSize_items cs) as Hcs0
          by (rewrite storageSize_items_flat; lia).
        destruct (Hc start e n Hn H0 ltac:(lia)) as (e1 & Hrun1 & Hst1).
        destruct (IHcs (start + Group.getStorageSize c) e1) as (e2 & Hrun2 & Hst2);
          try lia.
        { destruct Hst1 as [R _]. congruence. }
        exists e2. split.
        + cbn [traverse_items].
          erewrite bind_run; [| exact Hrun1 |].
          2:{ cbn [fst snd]. erewrite bind_run; [| exact Hrun2 | reflexivity].
              reflexivity. }
          cbn [fst snd flat_map storageSize_items fold_right].
          fold (storageSize_items cs).
          rewrite layout_app, flat_map_app, app_nil_r, <- getStorageSize_flat.
          do 2 f_equal. f_equal. lia.
        + cbn [flat_map]. rewrite flat_app.
          eapply stored_app; [exact Hst1|].
          rewrite <- getStorageSize_flat. exact Hst2. }
    destruct Hitems as (e' & Hrun & Hst). exists e'. split; [|exact Hst].
    rewrite traverse_group. erewrite bind_run; [| exact Hrun | reflexivity].
    cbn [fst snd]. rewrite app_nil_r, getStorageSize_group. reflexivity.
Qed.

Lemma set_valueBuffer_same p : set_valueBuffer p (valueBuffer p) = p.
Proof. destruct p; reflexivity. Qed.

Lemma load_leaf_run p start e n :
  region e = Some n -> 0 <= start -> start + Item.getStorageSize p <= n ->
  (forall i, (i < List.length (valueBuffer p))%nat ->
             cells e (start + Z.of_nat i) = nth i (valueBuffer p) NUL) ->
  load_leaf p start e =
    ((p, start + Item.getStorageSize p), e,
     read_events start (List.length (valueBuffer p))).
Proof.
  intros Hn H0 Hle Hcells. unfold Item.getStorageSize in *.
  unfold load_leaf, Item.loadValue, loadConfig_lambda, readEepromValue.
  cbn [data length].
  assert (Hbytes : map (fun i => peek e (start + Z.of_nat i))
                     (seq 0 (List.length (valueBuffer p))) = valueBuffer p).
  { apply map_seq_nth with (d := NUL). intros i Hi.
    rewrite (peek_in_region e n) by (auto; lia). now apply Hcells. }
  erewrite bind_run; [| | reflexivity].
  2:{ erewrite bind_run; [| | reflexivity].
      2:{ erewrite bind_run; [| apply readEepromValue_loop_run | reflexivity].
          reflexivity. }
      reflexivity. }
  cbn [fst snd]. rewrite Hbytes, skipn_all, !app_nil_r, set_valueBuffer_same.
  do 2 f_equal. f_equal. lia.
Qed.

Lemma load_tree_run c : forall start e n,
  region e = Some n -> 0 <= start -> start + Group.getStorageSize c <= n ->
  (forall i, (i < List.length (flat (leaves c)))%nat ->
             cells e (start + Z.of_nat i) = nth i (flat (leaves c)) NUL) ->
  Group.traverse load_leaf c start e =
    ((c, start + Group.getStorageSize c), e,
     flat_map leaf_reads (layout start (leaves c))).
Proof.
  induction c as [p | i lab items IH] using ConfigItem_tree_ind;
    intros start e n Hn H0 Hle Hcells.
  - cbn [Group.traverse].
    erewrite bind_run; [| apply (load_leaf_run p start e n); auto | reflexivity].
    + cbn. now rewrite !app_nil_r.
    + intros j Hj. rewrite Hcells; cbn; rewrite app_nil_r; [reflexivity | exact Hj].
  - assert (Hitems :
      traverse_items load_leaf items start e =
        ((items, start + storageSize_items items), e,
         flat_map leaf_reads (layout start (flat_map leaves items)))).
    { rewrite getStorageSize_group in Hle. rewrite leaves_group in Hcells.
      clear i lab. revert start Hn H0 Hle Hcells.
      induction IH as [|c cs Hc _ IHcs]; intros start Hn H0 Hle Hcells.
      - cbn. now rewrite Z.add_0_r.
      - cbn [storageSize_items fold_right] in Hle.
        fold (storageSize_items cs) in Hle.
        cbn [flat_map] in Hcells. rewrite flat_app in Hcells.
        pose proof (getStorageSize_nonneg c) as Hc0.
        assert (0 <= storageSize_items cs) as Hcs0
          by (rewrite storageSize_items_flat; lia).
        cbn [traverse_items].
        erewrite bind_run; [| apply (Hc start e n); auto; try lia |].
        3:{ cbn [fst snd]. erewrite bind_run; [| apply IHcs | reflexivity].
            - reflexivity.
            - exact Hn.
            - lia.
            - lia.
            - intros j Hj. rewrite getStorageSize_flat.
              replace (start + Z.of_nat (List.length (flat (leaves c))) + Z.of_nat j)
                with (start + Z.of_nat (List.length (flat (leaves c)) + j)) by lia.
              rewrite Hcells by (rewrite length_app; lia).
              rewrite app_nth2 by lia. f_equal. lia. }
        + cbn [fst snd flat_map storageSize_items fold_right].
          fold (storageSize_items cs).
          rewrite layout_app, flat_map_app, app_nil_r, <- getStorageSize_flat.
          do 2 f_equal. f_equal. lia.
        + intros j Hj. rewrite Hcells by (rewrite length_app; lia).
          now rewrite app_nth1 by lia. }
    rewrite traverse_group. erewrite bind_run; [| exact Hitems | reflexivity].
    cbn [fst snd]. rewrite app_nil_r, getStorageSize_group. reflexivity.
Qed.

(** A traversal returns a tree of the shape it was given, so putting the
    visited tree back into the members loses nothing. *)
Lemma set_allParameters_traverse {L} (f : Parameter_t -> L -> M (Parameter_t * L))
    this l e :
  let t := fst (value_of (Group.traverse f (_allParameters this) l e)) in
  _allParameters (set_allParameters t this) = t.
Proof.
  cbv zeta.
  assert (Hshape : exists tn ap sys cust hid,
            fst (value_of (Group.traverse f (_allParameters this) l e))
            = ParameterGroup "iwcAll" None
                [ParameterGroup "iwcSys" (Some "System configuration")
                   (Leaf tn :: Leaf ap :: sys);
                 ParameterGroup "iwcCustom" None cust;
                 ParameterGroup "hidden" None hid]).
  { unfold _allParameters, _systemParameters, _customParameterGroups, _hiddenParameters.
    rewrite !traverse_group, !bind_value. cbn [ret value_of fst snd traverse_items].
    rewrite !bind_value. cbn [ret value_of fst snd].
    rewrite !traverse_group, !bind_value. cbn [ret value_of fst snd traverse_items].
    rewrite !bind_value. cbn [ret value_of fst snd Group.traverse].
    rewrite !bind_value. cbn [ret value_of fst snd].
    do 5 eexists. reflexivity. }
  destruct Hshape as (tn & ap & sys & cust & hid & ->).
  destruct this; reflexivity.
Qed.

(* ================================================================== *)
(** * The version tag *)

Lemma saveConfigVersion_loop_run this count : forall t e n,
  region e = Some n ->
  IOTWEBCONF_CONFIG_START + Z.of_nat t + Z.of_nat count <= n ->
  exists e',
    saveConfigVersion_loop this t count e =
      (tt, e',
       write_events (IOTWEBCONF_CONFIG_START + Z.of_nat t)
         (map (char_at (_configVersion this)) (seq t count)))
    /\ stored e e' (IOTWEBCONF_CONFIG_START + Z.of_nat t)
         (map (char_at (_configVersion this)) (seq t count)).
Proof.
  induction count as [|k IH]; intros t e n Hn Hle.
  - exists e. split; [reflexivity | apply stored_nil].
  - destruct (write_run e n (IOTWEBCONF_CONFIG_START + Z.of_nat t)
                (char_at (_configVersion this) t) Hn)
      as (e1 & Hw & Hs1); [unfold IOTWEBCONF_CONFIG_START in *; lia|].
    destruct (IH (S t) e1 n) as (e2 & Hl & Hs2); try lia.
    { destruct Hs1 as [R _]. congruence. }
    exists e2. split.
    + cbn [saveConfigVersion_loop].
      rewrite (bind_run _ _ _ _ _ _ _ _ _ Hw Hl). cbn [app seq map write_events].
      do 3 f_equal. lia.
    + cbn [seq map].
      change (char_at (_configVersion this) t
                :: map (char_at (_configVersion this)) (seq (S t) k))
        with ([char_at (_configVersion this) t]
                ++ map (char_at (_configVersion this)) (seq (S t) k)).
      eapply stored_app; [exact Hs1|].
      replace (IOTWEBCONF_CONFIG_START + Z.of_nat t
               + Z.of_nat (List.length [char_at (_configVersion this) t]))
        with (IOTWEBCONF_CONFIG_START + Z.of_nat (S t)) by (simpl; lia).
      exact Hs2.
Qed.

Lemma testConfigVersion_loop_true this count : forall t e,
  (forall i, (t <= i < t + count)%nat ->
             peek e (IOTWEBCONF_CONFIG_START + Z.of_nat i)
             = char_at (_configVersion this) i) ->
  testConfigVersion_loop this t count e =
    (true, e, read_events (IOTWEBCONF_CONFIG_START + Z.of_nat t) count).
Proof.
  induction count as [|k IH]; intros t e H; [reflexivity|].
  cbn [testConfigVersion_loop].
  erewrite bind_run; [| apply read_run |].
  2:{ rewrite (H t) by lia. rewrite (byte_dec_lb eq_refl). cbn [negb].
      apply IH. intros i Hi. apply H. lia. }
  cbn [read_events app]. do 3 f_equal. lia.
Qed.

Lemma testConfigVersion_loop_value this count : forall t e,
  value_of (testConfigVersion_loop this t count e) =
    forallb (fun i => Byte.eqb (peek e (IOTWEBCONF_CONFIG_START + Z.of_nat i))
                        (char_at (_configVersion this) i))
      (seq t count)
  /\ store_of (testConfigVersion_loop this t count e) = e.
Proof.
  induction count as [|k IH]; intros t e; [split; reflexivity|].
  cbn [testConfigVersion_loop seq forallb].
  rewrite bind_value, bind_store, read_run. cbn [value_of store_of fst snd].
  destruct (Byte.eqb (peek e (IOTWEBCONF_CONFIG_START + Z.of_nat t))
              (char_at (_configVersion this) t)); cbn [negb andb].
  - apply IH.
  - split; reflexivity.
Qed.

Lemma set_allParameters_same this :
  set_allParameters (_allParameters this) this = this.
Proof. destruct this; reflexivity. Qed.

Lemma length_version_tag this :
  List.length (version_tag this) = IOTWEBCONF_CONFIG_VERSION_LENGTH.
Proof. unfold version_tag. now rewrite length_map, length_seq. Qed.

(** What [saveConfig] leaves in the store and what it calls. *)
Lemma saveConfig_run this e :
  exists e',
    saveConfig this e =
      (tt, e',
       (if _configSavingCallback this
        then [call_configSavingCallback (initConfig this)] else [])
       ++ [EEPROM_begin (region_size this)]
       ++ write_events IOTWEBCONF_CONFIG_START (version_tag this)
       ++ flat_map leaf_writes (layout first_offset (all_leaves this))
       ++ [EEPROM_end]
       ++ (if _configSavedCallback this then [call_configSavedCallback] else []))
    /\ region e' = None
    /\ (forall i, (i < IOTWEBCONF_CONFIG_VERSION_LENGTH)%nat ->
          cells e' (IOTWEBCONF_CONFIG_START + Z.of_nat i) = nth i (version_tag this) NUL)
    /\ (forall i, (i < List.length (flat (all_leaves this)))%nat ->
          cells e' (first_offset + Z.of_nat i) = nth i (flat (all_leaves this)) NUL)
    /\ (forall a, a < IOTWEBCONF_CONFIG_START \/ region_size this <= a ->
          cells e' a = cells e a).
Proof.
  pose proof (getStorageSize_nonneg (_allParameters this)) as Hsz.
  set (e1 := {| cells := cells e; region := Some (region_size this) |}).
  destruct (saveConfigVersion_loop_run this IOTWEBCONF_CONFIG_VERSION_LENGTH
              0 e1 (region_size this) eq_refl) as (e2 & Hv & Hs2).
  { unfold region_size, first_offset. lia. }
  fold (version_tag this) in Hv, Hs2.
  replace (IOTWEBCONF_CONFIG_START + Z.of_nat 0) with IOTWEBCONF_CONFIG_START
    in Hv, Hs2 by lia.
  assert (Hr2 : region e2 = Some (region_size this)) by (destruct Hs2; assumption).
  destruct (store_tree_run (_allParameters this) first_offset e2 (region_size this) Hr2)
    as (e3 & Ht & Hs3).
  { unfold first_offset, IOTWEBCONF_CONFIG_START. lia. }
  { unfold region_size. lia. }
  assert (Hr3 : region e3 = Some (region_size this)) by (destruct Hs3; congruence).
  exists {| cells := cells e3; region := None |}.
  split; [| split; [reflexivity | split; [| split]]].
  - unfold saveConfig, when.
    assert (Hcb : (if _configSavingCallback this
                   then emit (call_configSavingCallback (initConfig this))
                   else ret tt) e
                  = (tt, e, if _configSavingCallback this
                            then [call_configSavingCallback (initConfig this)]
                            else []))
      by (destruct (_configSavingCallback this); reflexivity).
    mrun Hcb.
    assert (Hb : EEPROM.begin
                   (IOTWEBCONF_CONFIG_START
                    + Z.of_nat IOTWEBCONF_CONFIG_VERSION_LENGTH + initConfig this) e
                 = (tt, e1, [EEPROM_begin (region_size this)])) by reflexivity.
    mrun Hb. unfold saveConfigVersion. mrun Hv.
    assert (Hst : Group.storeValue saveConfig_lambda (_allParameters this)
                    (IOTWEBCONF_CONFIG_START
                     + Z.of_nat IOTWEBCONF_CONFIG_VERSION_LENGTH) e2
                  = (first_offset + Group.getStorageSize (_allParameters this), e3,
                     flat_map leaf_writes (layout first_offset (all_leaves this)))).
    { unfold Group.storeValue. fold store_leaf. fold first_offset. mrun Ht.
      unfold after. cbn. now rewrite app_nil_r. }
    mrun Hst. mstep.
    destruct (_configSavedCallback this); reflexivity.
  - intros i Hi. cbn [cells].
    rewrite (stored_outside _ _ _ _ _ Hs3)
      by (left; unfold first_offset; lia).
    eapply stored_peek; [exact Hs2 | reflexivity | | | ].
    + unfold IOTWEBCONF_CONFIG_START; lia.
    + rewrite length_version_tag. unfold region_size, first_offset. lia.
    + now rewrite length_version_tag.
  - intros i Hi. cbn [cells].
    eapply stored_peek; [exact Hs3 | exact Hr2 | | | exact Hi].
    + unfold first_offset, IOTWEBCONF_CONFIG_START; lia.
    + unfold all_leaves. rewrite <- getStorageSize_flat. unfold region_size. lia.
  - intros a Ha. cbn [cells].
    rewrite (stored_outside _ _ _ _ _ Hs3).
    + rewrite (stored_outside _ _ _ _ _ Hs2); [reflexivity|].
      rewrite length_version_tag. unfold region_size, first_offset in Ha. lia.
    + rewrite <- getStorageSize_flat. unfold region_size, first_offset in *. lia.
Qed.

Lemma nth_version_tag this i :
  (i < IOTWEBCONF_CONFIG_VERSION_LENGTH)%nat ->
  nth i (version_tag this) NUL = char_at (_configVersion this) i.
Proof.
  intros Hi. unfold version_tag.
  rewrite nth_indep with (d' := char_at (_configVersion this) 0%nat)
    by now rewrite length_map, length_seq.
  rewrite map_nth, seq_nth by assumption. reflexivity.
Qed.

(** [loadConfig] on a store that holds the version tag and the bytes of
    the leaves. *)
Lemma loadConfig_run_valid this e :
  (forall i, (i < IOTWEBCONF_CONFIG_VERSION_LENGTH)%nat ->
     cells e (IOTWEBCONF_CONFIG_START + Z.of_nat i) = nth i (version_tag this) NUL) ->
  (forall i, (i < List.length (flat (all_leaves this)))%nat ->
     cells e (first_offset + Z.of_nat i) = nth i (flat (all_leaves this)) NUL) ->
  loadConfig this e =
    ((true, this),
     {| cells := cells e; region := Some (region_size this) |},
     [EEPROM_begin (region_size this)]
     ++ read_events IOTWEBCONF_CONFIG_START IOTWEBCONF_CONFIG_VERSION_LENGTH
     ++ flat_map leaf_reads (layout first_offset (all_leaves this))).
Proof.
  intros Htag Hleaves.
  pose proof (getStorageSize_nonneg (_allParameters this)) as Hsz.
  set (e1 := {| cells := cells e; region := Some (region_size this) |}).
  assert (Hb : EEPROM.begin
                 (IOTWEBCONF_CONFIG_START
                  + Z.of_nat IOTWEBCONF_CONFIG_VERSION_LENGTH + initConfig this) e
               = (tt, e1, [EEPROM_begin (region_size this)])) by reflexivity.
  assert (Ht : testConfigVersion this e1
               = (true, e1,
                  read_events IOTWEBCONF_CONFIG_START IOTWEBCONF_CONFIG_VERSION_LENGTH)).
  { unfold testConfigVersion. rewrite testConfigVersion_loop_true.
    - do 2 f_equal.
    - intros i Hi. rewrite (peek_in_region e1 (region_size this)).
      + cbn [cells e1]. rewrite Htag by lia. apply nth_version_tag. lia.
      + reflexivity.
      + unfold region_size, first_offset, IOTWEBCONF_CONFIG_START. lia. }
  assert (Hl : Group.loadValue loadConfig_lambda (_allParameters this)
                 (IOTWEBCONF_CONFIG_START
                  + Z.of_nat IOTWEBCONF_CONFIG_VERSION_LENGTH) e1
               = ((_allParameters this,
                   first_offset + Group.getStorageSize (_allParameters this)), e1,
                  flat_map leaf_reads (layout first_offset (all_leaves this)))).
  { unfold Group.loadValue. fold load_leaf. fold first_offset.
    apply (load_tree_run _ _ _ (region_size this)).
    - reflexivity.
    - unfold first_offset, IOTWEBCONF_CONFIG_START. lia.
    - unfold region_size. lia.
    - exact Hleaves. }
  unfold loadConfig. mrun Hb. mrun Ht. cbn iota. mrun Hl.
  unfold after. cbn [ret value_of store_of events_of fst snd].
  rewrite set_allParameters_same, app_nil_r. reflexivity.
Qed.

Lemma layout_offsets ps : forall start,
  map fst (layout start ps) =
  map (fun k => start + Z.of_nat (List.length (flat (firstn k ps))))
    (seq 0 (List.length ps)).
Proof.
  induction ps as [|p ps IH]; intros start; [reflexivity|].
  cbn [layout map List.length seq fst firstn flat flat_map].
  rewrite Z.add_0_r. f_equal.
  rewrite IH, <- seq_shift, map_map. apply map_ext. intros k.
  cbn [firstn]. unfold Item.getStorageSize, flat. cbn [flat_map].
  rewrite length_app. lia.
Qed.

(* ================================================================== *)
(** * C2: the version check and the defaults *)

Lemma forallb_false_exists {A} (f : A -> bool) l :
  forallb f l = false <-> exists x, In x l /\ f x = false.
Proof.
  induction l as [|a l IH]; simpl.
  - split; [discriminate | intros (x & [] & _)].
  - rewrite andb_false_iff, IH. split.
    + intros [H | (x & Hin & Hx)]; [exists a; auto | exists x; auto].
    + intros (x & [-> | Hin] & Hx); [left; exact Hx | right; exists x; auto].
Qed.

Lemma leaves_map_leaves f c :
  leaves (Group.map_leaves f c) = map f (leaves c).
Proof.
  induction c as [p | i lab items IH] using ConfigItem_tree_ind; [reflexivity|].
  rewrite map_leaves_group, !leaves_group.
  induction IH as [|c cs Hc _ IHcs]; [reflexivity|].
  cbn [map flat_map]. now rewrite map_app, Hc, IHcs.
Qed.

Lemma allParameters_set_map_leaves f this :
  _allParameters (set_allParameters (Group.map_leaves f (_allParameters this)) this)
  = Group.map_leaves f (_allParameters this).
Proof. destruct this; reflexivity. Qed.

Lemma until_nul_no_nul l : ~ In NUL (until_nul l).
Proof.
  induction l as [|b l IH]; simpl; [tauto|].
  destruct (Byte.eqb b NUL) eqn:E; simpl; [tauto|].
  intros [H | H]; [| tauto]. subst b. discriminate.
Qed.

Lemma until_nul_padded s k rest :
  ~ In NUL s -> (0 < k)%nat \/ rest = [] ->
  until_nul (s ++ repeat NUL k ++ rest) = s.
Proof.
  intros Hs Hk. induction s as [|b s IH]; simpl.
  - destruct k as [|k]; simpl; [|reflexivity].
    destruct Hk as [Hk | ->]; [lia | reflexivity].
  - destruct (Byte.eqb b NUL) eqn:E.
    + apply byte_dec_bl in E. subst b. exfalso. apply Hs. now left.
    + f_equal. apply IH. intros H. apply Hs. now right.
Qed.

(** The C string a buffer holds after [strncpy] over its whole length:
    the source, cut to the capacity. *)
Lemma c_str_strncpy dest src :
  until_nul (strncpy dest src (List.length dest))
  = firstn (List.length dest) (until_nul (bytes_of src)).
Proof.
  unfold strncpy. apply until_nul_padded.
  - intros H. apply (until_nul_no_nul (bytes_of src)).
    rewrite <- (firstn_skipn (List.length dest) (until_nul (bytes_of src))).
    apply in_or_app. now left.
  - right. apply skipn_all.
Qed.

Lemma length_strncpy dest src :
  List.length (strncpy dest src (List.length dest)) = List.length dest.
Proof.
  unfold strncpy. rewrite !length_app, repeat_length, skipn_all. simpl.
  pose proof (firstn_le_length (List.length dest) (until_nul (bytes_of src))). lia.
Qed.

Lemma loadConfig_value this e :
  let e1 := {| cells := cells e; region := Some (region_size this) |} in
  fst (value_of (loadConfig this e)) =
    forallb (fun i => Byte.eqb (peek e1 (IOTWEBCONF_CONFIG_START + Z.of_nat i))
                        (char_at (_configVersion this) i))
      (seq 0 IOTWEBCONF_CONFIG_VERSION_LENGTH)
  /\ (fst (value_of (loadConfig this e)) = false ->
      snd (value_of (loadConfig this e)) =
        set_allParameters (Group.applyDefaultValue (_allParameters this)) this).
Proof.
  intros e1. unfold loadConfig.
  assert (Hb : EEPROM.begin
                 (IOTWEBCONF_CONFIG_START
                  + Z.of_nat IOTWEBCONF_CONFIG_VERSION_LENGTH + initConfig this) e
               = (tt, e1, [EEPROM_begin (region_size this)])) by reflexivity.
  mrun Hb.
  destruct (testConfigVersion_loop_value this IOTWEBCONF_CONFIG_VERSION_LENGTH 0 e1)
    as [Hv Hs].
  fold (testConfigVersion this) in Hv, Hs.
  rewrite (bind_step _ _ _ _ _ _ (run_eta (testConfigVersion this e1))).
  rewrite !value_of_after, Hv, Hs.
  destruct (forallb _ _); cbn iota.
  - rewrite bind_value. split; [reflexivity | discriminate].
  - split; reflexivity.
Qed.

Lemma loadConfig_false_iff_version_mismatch_aux this e :
  fst (value_of (loadConfig this e)) = false <-> tag_absent this e.
Proof.
  destruct (loadConfig_value this e) as [Hv _].
  pose proof (getStorageSize_nonneg (_allParameters this)) as Hsz.
  unfold tag_absent. rewrite Hv, forallb_false_exists. split.
  - intros (t & Hin & Hne). apply in_seq in Hin. exists t. split; [lia|].
    rewrite (peek_in_region _ (region_size this)) in Hne
      by (try reflexivity;
          unfold region_size, first_offset, IOTWEBCONF_CONFIG_START; lia).
    apply eqb_false in Hne. exact Hne.
  - intros (t & Ht & Hne). exists t. split; [apply in_seq; lia|].
    rewrite (peek_in_region _ (region_size this))
      by (try reflexivity;
          unfold region_size, first_offset, IOTWEBCONF_CONFIG_START; lia).
    cbn [cells].
    destruct (Byte.eqb _ _) eqn:E; [|reflexivity].
    apply byte_dec_bl in E. contradiction.
Qed.

(** C2.  [loadConfig] returns [false] exactly when one of the
    [IOTWEBCONF_CONFIG_VERSION_LENGTH] bytes stored at the head of the
    region differs from the corresponding byte of [_configVersion]; in
    that case the default value has been applied to every leaf of
    [_allParameters], so that each buffer holds its default as a C
    string (cut to the capacity of the buffer).  The outcome is the
    boolean result of a total function. *)
Theorem loadConfig_false_iff_version_mismatch (this : IotWebConf) (e : EEPROMClass) :
  let r := loadConfig this e in
  let this' := snd (value_of r) in
  (fst (value_of r) = false <->
   exists t, (t < IOTWEBCONF_CONFIG_VERSION_LENGTH)%nat
             /\ cells e (IOTWEBCONF_CONFIG_START + Z.of_nat t)
                <> char_at (_configVersion this) t)
  /\ (fst (value_of r) = false ->
      all_leaves this' = map Item.applyDefaultValue (all_leaves this)
      /\ Forall (fun p =>
                   until_nul (valueBuffer p)
                   = firstn (List.length (valueBuffer p))
                       (until_nul (bytes_of (defaultValue p))))
           (all_leaves this')).
Proof.
  cbv zeta. destruct (loadConfig_value this e) as [_ Hd].
  split; [apply loadConfig_false_iff_version_mismatch_aux|].
  intros Hf. rewrite (Hd Hf). unfold all_leaves, Group.applyDefaultValue.
  rewrite allParameters_set_map_leaves, leaves_map_leaves.
  split; [reflexivity|].
  apply Forall_map, Forall_forall. intros p _.
  unfold Item.applyDefaultValue. cbn [valueBuffer set_valueBuffer defaultValue].
  now rewrite length_strncpy, c_str_strncpy.
Qed.

Lemma loadConfig_false_iff_version_mismatch_witness :
  fst (value_of (loadConfig registered_thing erased_store)) = false
  /\ all_leaves (snd (value_of (loadConfig registered_thing erased_store)))
     = map Item.applyDefaultValue (all_leaves registered_thing).
Proof.
  split; [reflexivity|].
  destruct (loadConfig_false_iff_version_mismatch registered_thing erased_store)
    as [_ H].
  apply H. reflexivity.
Defined.

(* ================================================================== *)
(** * C4: the store handle after a load *)

Lemma read_events_are_reads n : forall start, Forall is_read (read_events start n).
Proof.
  induction n as [|n IH]; intros start; simpl; constructor; [now exists start | apply IH].
Qed.

Lemma load_leaf_any p start e :
  store_of (load_leaf p start e) = e
  /\ Forall is_read (events_of (load_leaf p start e)).
Proof.
  unfold load_leaf, Item.loadValue, loadConfig_lambda, readEepromValue.
  rewrite (bind_step _ _ _ _ _ _
             (bind_step _ _ _ _ _ _
                (bind_step _ _ _ _ _ _ (readEepromValue_loop_run _ _ _ _)))).
  cbn. rewrite !app_nil_r. split; [reflexivity | apply read_events_are_reads].
Qed.

Lemma load_tree_any c : forall start e,
  store_of (Group.traverse load_leaf c start e) = e
  /\ Forall is_read (events_of (Group.traverse load_leaf c start e)).
Proof.
  induction c as [p | i lab items IH] using ConfigItem_tree_ind; intros start e.
  - cbn [Group.traverse]. rewrite bind_store, bind_events. cbn.
    rewrite app_nil_r. apply load_leaf_any.
  - rewrite traverse_group, bind_store, bind_events. cbn [ret store_of events_of fst snd].
    rewrite app_nil_r. clear i lab. revert start e.
    induction IH as [|c cs Hc _ IHcs]; intros start e.
    + split; [reflexivity | constructor].
    + cbn [traverse_items]. rewrite !bind_store, !bind_events.
      cbn [ret store_of events_of fst snd]. rewrite app_nil_r.
      destruct (Hc start e) as [Hs He]. rewrite Hs.
      destruct (IHcs (snd (value_of (Group.traverse load_leaf c start e))) e)
        as [Hs' He'].
      split; [exact Hs' | apply Forall_app; split; assumption].
Qed.

Lemma testConfigVersion_loop_reads this count : forall t e,
  Forall is_read (events_of (testConfigVersion_loop this t count e)).
Proof.
  induction count as [|k IH]; intros t e; [constructor|].
  cbn [testConfigVersion_loop]. rewrite bind_events, read_run.
  cbn [events_of value_of store_of fst snd app].
  constructor; [now eexists|].
  destruct (negb _); [constructor | apply IH].
Qed.

(** C4 (the code does not do this).  Whatever the outcome, [loadConfig]
    returns with the region it opened still open: the store handle is
    [Some] of the region size, and the only calls on the EEPROM are the
    [begin] and reads; [EEPROM.end()] is not among them. *)
Theorem loadConfig_leaves_store_open (this : IotWebConf) (e : EEPROMClass) :
  let r := loadConfig this e in
  region (store_of r) = Some (region_size this)
  /\ (exists reads, events_of r = EEPROM_begin (region_size this) :: reads
                    /\ Forall is_read reads)
  /\ ~ In EEPROM_end (events_of r).
Proof.
  cbv zeta.
  set (e1 := {| cells := cells e; region := Some (region_size this) |}).
  assert (Hb : EEPROM.begin
                 (IOTWEBCONF_CONFIG_START
                  + Z.of_nat IOTWEBCONF_CONFIG_VERSION_LENGTH + initConfig this) e
               = (tt, e1, [EEPROM_begin (region_size this)])) by reflexivity.
  assert (H : region (store_of (loadConfig this e)) = Some (region_size this)
              /\ exists reads,
                   events_of (loadConfig this e) = EEPROM_begin (region_size this) :: reads
                   /\ Forall is_read reads).
  { unfold loadConfig. mrun Hb. rewrite store_of_after, events_of_after.
    rewrite bind_store, bind_events.
    destruct (testConfigVersion_loop_value this IOTWEBCONF_CONFIG_VERSION_LENGTH 0 e1)
      as [_ Hs].
    pose proof (testConfigVersion_loop_reads this IOTWEBCONF_CONFIG_VERSION_LENGTH 0 e1)
      as Hr.
    fold (testConfigVersion this) in Hs, Hr. rewrite Hs.
    destruct (value_of (testConfigVersion this e1)).
    - rewrite bind_store, bind_events. cbn [ret store_of events_of fst snd].
      unfold Group.loadValue.
      change (Item.loadValue loadConfig_lambda) with load_leaf.
      destruct (load_tree_any (_allParameters this)
                  (IOTWEBCONF_CONFIG_START + Z.of_nat IOTWEBCONF_CONFIG_VERSION_LENGTH) e1)
        as [Hs' Hr'].
      rewrite Hs'. split; [reflexivity|].
      eexists. split; [reflexivity|]. rewrite app_nil_r.
      apply Forall_app; split; assumption.
    - cbn [ret store_of events_of fst snd]. split; [reflexivity|].
      eexists. split; [reflexivity|]. rewrite app_nil_r. exact Hr. }
  destruct H as (Hreg & reads & Hev & Hreads).
  split; [exact Hreg|]. split; [now exists reads|].
  rewrite Hev. intros [Habs | Hin]; [discriminate|].
  rewrite Forall_forall in Hreads. destruct (Hreads _ Hin) as [a Ha]. discriminate.
Qed.

(** The sibling path: [saveConfig] closes the region it opened. *)
Lemma saveConfig_closes_store this e :
  region (store_of (saveConfig this e)) = None
  /\ In EEPROM_end (events_of (saveConfig this e)).
Proof.
  destruct (saveConfig_run this e) as (e' & Hrun & Hreg & _).
  rewrite Hrun. split; [exact Hreg|].
  cbn [events_of snd]. rewrite !in_app_iff.
  right; right; right; right; left. now left.
Qed.

(* ================================================================== *)
(** * C3 and C10: the captive portal *)

Lemma handleCaptivePortal_run this w e :
  handleCaptivePortal this w e =
  if negb (isIp (request_hostHeader w))
     && negb (startsWith (request_hostHeader w) (toLowerCase (c_str (_thingName this))))
  then (true, e, redirect_events w)
  else (false, e, [web_hostHeader]).
Proof.
  unfold handleCaptivePortal, Web.hostHeader. mstep.
  destruct (negb (isIp (request_hostHeader w))
            && negb (startsWith (request_hostHeader w)
                       (toLowerCase (c_str (_thingName this))))); reflexivity.
Qed.

Lemma nat_of_ascii_dot ch : nat_of_ascii ch = 46%nat <-> ch = "."%char.
Proof.
  split; [| intros ->; reflexivity].
  intros H. rewrite <- (ascii_nat_embedding ch), H. reflexivity.
Qed.

Lemma isIp_cons ch rest :
  isIp (String ch rest) = true <-> dot_or_digit ch /\ isIp rest = true.
Proof.
  cbn [isIp]. unfold dot_or_digit. rewrite <- nat_of_ascii_dot.
  destruct (Z.eqb_spec (Z.of_nat (nat_of_ascii ch)) 46) as [E | E];
    cbn [negb andb].
  - split; [intros H; split; [left; lia | exact H] | tauto].
  - destruct (Z.ltb_spec (Z.of_nat (nat_of_ascii ch)) 48) as [L | L];
      cbn [orb].
    + split; [discriminate | intros [[H | H] _]; lia].
    + destruct (Z.gtb_spec (Z.of_nat (nat_of_ascii ch)) 57) as [G | G].
      * split; [discriminate | intros [[H | H] _]; lia].
      * split; [intros H; split; [right; lia | exact H] | tauto].
Qed.

(** C10.  [isIp] is [true] exactly for the strings made only of ['.'] and
    decimal digits: so for the empty string, for ["..."] and for
    ["999.999.999.999"]; it is [false] for every other string.  Hence
    [handleCaptivePortal] never redirects a request whose host header is
    made of digits and dots only, a valid address or not. *)
Theorem isIp_iff_dots_and_digits :
  (forall str, isIp str = true <-> Forall dot_or_digit (list_ascii_of_string str))
  /\ isIp "" = true
  /\ isIp "..." = true
  /\ isIp "999.999.999.999" = true
  /\ (forall this w e,
        Forall dot_or_digit (list_ascii_of_string (request_hostHeader w)) ->
        value_of (handleCaptivePortal this w e) = false
        /\ events_of (handleCaptivePortal this w e) = [web_hostHeader]).
Proof.
  assert (Hiff : forall str,
            isIp str = true <-> Forall dot_or_digit (list_ascii_of_string str)).
  { induction str as [|ch rest IH].
    - split; [constructor | reflexivity].
    - rewrite isIp_cons, IH. cbn [list_ascii_of_string]. split.
      + intros [H1 H2]. now constructor.
      + intros H. inversion H; subst. now split. }
  split; [exact Hiff|]. repeat (split; [reflexivity|]).
  intros this w e H. apply Hiff in H.
  rewrite handleCaptivePortal_run, H. split; reflexivity.
Qed.

Lemma isIp_iff_dots_and_digits_witness :
  Forall dot_or_digit (list_ascii_of_string "999.999.999.999")
  /\ value_of (handleCaptivePortal (named_thing "mything")
                 (request "999.999.999.999" []) erased_store) = false.
Proof.
  assert (H : Forall dot_or_digit (list_ascii_of_string "999.999.999.999")).
  { apply (proj1 isIp_iff_dots_and_digits). reflexivity. }
  split; [exact H|].
  apply (proj2 (proj2 (proj2 (proj2 isIp_iff_dots_and_digits)))). exact H.
Defined.

(** For an array that holds a NUL, the string read from it does not
    depend on the memory behind the array. *)
Lemma c_str_terminated buf behind :
  terminated buf = true -> c_str (buf ++ behind) = c_str buf.
Proof.
  unfold c_str. intros H. f_equal.
  induction buf as [|b buf IH]; [discriminate|].
  cbn [app until_nul]. cbn [terminated existsb] in H.
  destruct (Byte.eqb b NUL); [reflexivity|].
  cbn [orb] in H. f_equal. now apply IH.
Qed.

(** C3 as stated fails: a device named ["MyThing"] redirects a request
    whose host header is ["MyThing"].  The thing name is lower-cased, the
    host header is not, and the comparison is case-sensitive. *)
Lemma redirects_unless_ip_or_name_fails :
  ~ redirects_unless_ip_or_name (named_thing "MyThing") (request "MyThing" []) erased_store.
Proof.
  intros [H _].
  assert (Hv : value_of (handleCaptivePortal (named_thing "MyThing")
                           (request "MyThing" []) erased_store) = true)
    by reflexivity.
  destruct (H Hv) as [_ Hm]. vm_compute in Hm. discriminate.
Qed.

(** C3, amended.  Let the thing name array hold a NUL, so that the
    thing name read as a string ends inside the array.  Then
    [handleCaptivePortal] returns [true] exactly when the host header
    contains a character other than ['.'] and the decimal digits ([isIp]
    is [false]) and does not start with the lower-cased thing name,
    compared case-sensitively with the header as sent.  In that case, and
    only then, it sends the redirect to the device's own address and
    closes the connection.  Host ["192.168.4.1"] is not redirected; host
    ["evil.example.com"] with the name ["mything"] is redirected and the
    connection closed.  With the NUL in the array the name read does not
    depend on the memory behind the array; without it the code reads the
    name on into that memory, and the statement does not apply. *)
Theorem handleCaptivePortal_redirects_iff
    (this : IotWebConf) (w : WebRequestWrapper) (e : EEPROMClass) :
  terminated (_thingName this) = true ->
  let host := request_hostHeader w in
  let thingName := toLowerCase (c_str (_thingName this)) in
  let r := handleCaptivePortal this w e in
  (forall behind, c_str (_thingName this ++ behind) = c_str (_thingName this))
  /\ (value_of r = true <-> isIp host = false /\ startsWith host thingName = false)
  /\ (value_of r = true -> events_of r = redirect_events w)
  /\ (value_of r = false -> events_of r = [web_hostHeader])
  /\ store_of r = e
  /\ (host = "192.168.4.1" -> value_of r = false)
  /\ (host = "evil.example.com" -> c_str (_thingName this) = "mything" ->
      value_of r = true /\ In web_stop (events_of r)).
Proof.
  intros Hnul. cbv zeta.
  split; [intros behind; now apply c_str_terminated|].
  clear Hnul. rewrite handleCaptivePortal_run.
  destruct (isIp (request_hostHeader w)) eqn:Hip;
    destruct (startsWith (request_hostHeader w) (toLowerCase (c_str (_thingName this))))
      eqn:Hsw;
    cbn [negb andb value_of store_of events_of fst snd];
    (split; [split; [try discriminate; auto | intros [? ?]; congruence]|]);
    (split; [try discriminate; auto|]); (split; [try discriminate; auto|]);
    (split; [reflexivity|]);
    (split; [intros Hh; rewrite Hh in Hip; vm_compute in Hip; congruence|]);
    intros Hh Hn; rewrite Hh in Hip; rewrite Hh, Hn in Hsw;
    vm_compute in Hip; vm_compute in Hsw; try discriminate.
  split; [reflexivity | unfold redirect_events; simpl; tauto].
Qed.

Lemma handleCaptivePortal_redirects_iff_witness :
  terminated (_thingName (named_thing "mything")) = true
  /\ request_hostHeader (request "evil.example.com" []) = "evil.example.com"
  /\ c_str (_thingName (named_thing "mything")) = "mything"
  /\ value_of (handleCaptivePortal (named_thing "mything")
                 (request "evil.example.com" []) erased_store) = true
  /\ In web_stop (events_of (handleCaptivePortal (named_thing "mything")
                               (request "evil.example.com" []) erased_store)).
Proof.
  split; [reflexivity|]. split; [reflexivity|]. split; [reflexivity|].
  destruct (handleCaptivePortal_redirects_iff (named_thing "mything")
              (request "evil.example.com" []) erased_store eq_refl)
    as (_ & _ & _ & _ & _ & _ & H).
  exact (H eq_refl eq_refl).
Defined.

(* ================================================================== *)
(** * C5 and C6: form validation *)

Lemma all_leaves_eq this :
  all_leaves this =
  _thingNameParameter this :: _apPasswordParameter this
    :: flat_map leaves (systemItems this)
    ++ flat_map leaves (customItems this)
    ++ flat_map leaves (hiddenItems this).
Proof.
  unfold all_leaves, _allParameters, _systemParameters, _customParameterGroups,
    _hiddenParameters.
  rewrite leaves_group. cbn [flat_map]. rewrite !leaves_group. cbn [flat_map app].
  now rewrite app_nil_r.
Qed.

Lemma flat_map_leaves_map f items :
  flat_map leaves (map (Group.map_leaves f) items) = map f (flat_map leaves items).
Proof.
  induction items as [|c cs IH]; [reflexivity|].
  cbn [map flat_map]. now rewrite map_app, leaves_map_leaves, IH.
Qed.

Lemma strlen_nonneg s : 0 <= strlen s.
Proof. unfold strlen. lia. Qed.

(** What [validateForm] returns, leaves behind and calls. *)
Lemma validateForm_run this w e :
  let r := validateForm this w e in
  let this' := snd (value_of r) in
  let l1 := thingName_length this w in
  let l2 := apPassword_length this w in
  fst (value_of r)
    = external_result this w && thingName_check l1 && apPassword_check l2
  /\ errorMessage (_thingNameParameter this')
     = (if thingName_check l1 then None else Some thingName_errorMessage)
  /\ errorMessage (_apPasswordParameter this')
     = (if apPassword_check l2 then None else Some apPassword_errorMessage)
  /\ store_of r = e
  /\ events_of r
     = match _formValidator this with Some _ => [call_formValidator] | None => [] end
       ++ [web_arg (getId (_thingNameParameter this));
           web_arg (getId (_apPasswordParameter this))]
  /\ map valueBuffer (all_leaves this') = map valueBuffer (all_leaves this)
  /\ hiddenItems this' = hiddenItems this
  /\ (_initialApPassword this', _configVersion this', _configSavingCallback this',
      _configSavedCallback this', _updatePath this', htmlFormatProvider this')
     = (_initialApPassword this, _configVersion this, _configSavingCallback this,
        _configSavedCallback this, _updatePath this, htmlFormatProvider this).
Proof.
  cbv zeta. unfold thingName_length, apPassword_length, external_result,
    thingName_check, apPassword_check.
  pose proof (strlen_nonneg (arg_value w (getId (_thingNameParameter this)))) as H1.
  pose proof (strlen_nonneg (arg_value w (getId (_apPasswordParameter this)))) as H2.
  rewrite !all_leaves_eq.
  destruct this as [ipw cv tn ap sys cust hid cb1 cb2 fv up hp].
  unfold validateForm, Web.arg, arg_value in *.
  cbn [_formValidator _thingNameParameter _apPasswordParameter systemItems customItems
       hiddenItems getId] in *.
  remember (strlen match lookup_arg (request_args w) (getId tn) with
                   | Some v => v | None => "" end) as l1 eqn:El1.
  remember (strlen match lookup_arg (request_args w) (getId ap) with
                   | Some v => v | None => "" end) as l2 eqn:El2.
  assert (Hmap : map valueBuffer
                   (flat_map leaves (map (Group.map_leaves Item.clearErrorMessage) sys))
                 = map valueBuffer (flat_map leaves sys)
                 /\ map valueBuffer
                   (flat_map leaves (map (Group.map_leaves Item.clearErrorMessage) cust))
                 = map valueBuffer (flat_map leaves cust)).
  { rewrite !flat_map_leaves_map, !map_map. split; reflexivity. }
  destruct Hmap as [Hsys Hcust].
  unfold Group.clearErrorMessage, _systemParameters, _customParameterGroups.
  rewrite !map_leaves_group.
  cbn [set_systemParameters set_customParameterGroups with_items map Group.map_leaves
       _thingNameParameter _apPasswordParameter systemItems customItems hiddenItems
       _formValidator getId Item.clearErrorMessage set_errorMessage
       _initialApPassword _configVersion _configSavingCallback _configSavedCallback
       _updatePath htmlFormatProvider].
  destruct fv as [f|]; mstep; mstep; rewrite <- ?El1;
    destruct (Z.gtb_spec 3 l1), (Z.leb_spec 3 l1); try lia;
    cbn [set_thingNameParameter with_items _apPasswordParameter getId];
    mstep;
    cbn [set_thingNameParameter with_items _apPasswordParameter getId
         Item.clearErrorMessage set_errorMessage];
    rewrite <- ?El2;
    destruct (Z.ltb_spec 0 l2), (Z.ltb_spec l2 8), (Z.eqb_spec l2 0), (Z.leb_spec 8 l2);
    try lia;
    cbn; rewrite ?andb_true_r, ?andb_false_r, ?map_app, ?Hsys, ?Hcust;
    repeat split; reflexivity.
Qed.

(** C5.  [validateForm] calls the external validator (when one is
    registered) before the two built-in checks read their fields; both
    built-in checks always run; the result is the conjunction of the
    external result and the two checks; each error message is set or
    cleared by its own check alone.  With a thing name of length 2 and an
    AP password of length 5 both messages are set in the same pass. *)
Theorem validateForm_checks_are_additive
    (this : IotWebConf) (w : WebRequestWrapper) (e : EEPROMClass) :
  let r := validateForm this w e in
  let this' := snd (value_of r) in
  let l1 := thingName_length this w in
  let l2 := apPassword_length this w in
  events_of r
    = match _formValidator this with Some _ => [call_formValidator] | None => [] end
      ++ [web_arg (getId (_thingNameParameter this));
          web_arg (getId (_apPasswordParameter this))]
  /\ fst (value_of r)
     = external_result this w && thingName_check l1 && apPassword_check l2
  /\ errorMessage (_thingNameParameter this')
     = (if thingName_check l1 then None else Some thingName_errorMessage)
  /\ errorMessage (_apPasswordParameter this')
     = (if apPassword_check l2 then None else Some apPassword_errorMessage)
  /\ (l1 = 2 -> l2 = 5 ->
      errorMessage (_thingNameParameter this') = Some thingName_errorMessage
      /\ errorMessage (_apPasswordParameter this') = Some apPassword_errorMessage
      /\ fst (value_of r) = false).
Proof.
  cbv zeta.
  destruct (validateForm_run this w e) as (Hv & Htn & Hap & _ & Hev & _).
  split; [exact Hev|]. split; [exact Hv|]. split; [exact Htn|]. split; [exact Hap|].
  intros H1 H2. rewrite Hv, Htn, Hap, H1, H2.
  split; [reflexivity|]. split; [reflexivity|]. now rewrite andb_false_r.
Qed.

Lemma validateForm_checks_are_additive_witness :
  thingName_length registered_thing (submission "ab" "12345") = 2
  /\ apPassword_length registered_thing (submission "ab" "12345") = 5
  /\ errorMessage
       (_thingNameParameter
          (snd (value_of (validateForm registered_thing (submission "ab" "12345")
                            erased_store))))
     = Some thingName_errorMessage
  /\ errorMessage
       (_apPasswordParameter
          (snd (value_of (validateForm registered_thing (submission "ab" "12345")
                            erased_store))))
     = Some apPassword_errorMessage
  /\ fst (value_of (validateForm registered_thing (submission "ab" "12345")
                      erased_store)) = false.
Proof.
  split; [reflexivity|]. split; [reflexivity|].
  destruct (validateForm_checks_are_additive registered_thing (submission "ab" "12345")
              erased_store) as (_ & _ & _ & _ & H).
  apply H; reflexivity.
Defined.

(** C6.  With the external validator absent or answering [true]: a thing
    name of length 3 passes its check and one of length 2 fails it; an AP
    password of length 0 or 8 passes its check and one of length 7 fails
    it; the form is valid when both checks pass. *)
Theorem validateForm_boundaries
    (this : IotWebConf) (w : WebRequestWrapper) (e : EEPROMClass) :
  let r := validateForm this w e in
  let this' := snd (value_of r) in
  let l1 := thingName_length this w in
  let l2 := apPassword_length this w in
  external_result this w = true ->
  (l1 = 3 -> errorMessage (_thingNameParameter this') = None)
  /\ (l1 = 2 -> errorMessage (_thingNameParameter this') = Some thingName_errorMessage
                /\ fst (value_of r) = false)
  /\ (l2 = 0 -> errorMessage (_apPasswordParameter this') = None)
  /\ (l2 = 8 -> errorMessage (_apPasswordParameter this') = None)
  /\ (l2 = 7 -> errorMessage (_apPasswordParameter this') = Some apPassword_errorMessage
                /\ fst (value_of r) = false)
  /\ (l1 = 3 -> l2 = 0 \/ l2 = 8 -> fst (value_of r) = true).
Proof.
  cbv zeta. intros Hext.
  destruct (validateForm_run this w e) as (Hv & Htn & Hap & _).
  rewrite Hv, Htn, Hap, Hext.
  split; [intros ->; reflexivity|].
  split; [intros ->; split; reflexivity|].
  split; [intros ->; reflexivity|].
  split; [intros ->; reflexivity|].
  split; [intros ->; split; [reflexivity | now rewrite andb_false_r]|].
  intros -> [-> | ->]; reflexivity.
Qed.

Lemma validateForm_boundaries_witness :
  (external_result registered_thing (submission "abc" "12345678") = true
   /\ thingName_length registered_thing (submission "abc" "12345678") = 3
   /\ apPassword_length registered_thing (submission "abc" "12345678") = 8
   /\ fst (value_of (validateForm registered_thing (submission "abc" "12345678")
                       erased_store)) = true)
  /\ (thingName_length registered_thing (submission "ab" "") = 2
      /\ fst (value_of (validateForm registered_thing (submission "ab" "")
                          erased_store)) = false)
  /\ (apPassword_length registered_thing (submission "abc" "1234567") = 7
      /\ fst (value_of (validateForm registered_thing (submission "abc" "1234567")
                          erased_store)) = false).
Proof.
  split; [|split].
  - repeat (split; [reflexivity|]).
    destruct (validateForm_boundaries registered_thing (submission "abc" "12345678")
                erased_store eq_refl) as (_ & _ & _ & _ & _ & H).
    apply H; [reflexivity | right; reflexivity].
  - split; [reflexivity|].
    destruct (validateForm_boundaries registered_thing (submission "ab" "")
                erased_store eq_refl) as (_ & H & _).
    apply H. reflexivity.
  - split; [reflexivity|].
    destruct (validateForm_boundaries registered_thing (submission "abc" "1234567")
                erased_store eq_refl) as (_ & _ & _ & _ & H & _).
    apply H. reflexivity.
Defined.

(* ================================================================== *)
(** * C7 and C8: the config handler *)

Lemma update_tree_run w c : forall e,
  Group.traverse (fun p (_ : unit) => p' <- Item.update w p ;; ret (p', tt)) c tt e
  = ((Group.map_leaves (updated w) c, tt), e,
     map (fun p => web_arg (getId p)) (leaves c)).
Proof.
  induction c as [p | i lab items IH] using ConfigItem_tree_ind; intros e.
  - reflexivity.
  - rewrite traverse_group, map_leaves_group, leaves_group.
    assert (Hitems :
      traverse_items (fun p (_ : unit) => p' <- Item.update w p ;; ret (p', tt))
        items tt e
      = ((map (Group.map_leaves (updated w)) items, tt), e,
         map (fun p => web_arg (getId p)) (flat_map leaves items))).
    { induction IH as [|c cs Hc _ IHcs]; [reflexivity|].
      cbn [traverse_items]. mrun (Hc e). cbn [fst snd]. mrun IHcs.
      unfold after. cbn. now rewrite app_nil_r, map_app. }
    mrun Hitems. unfold after. cbn. now rewrite app_nil_r.
Qed.

Lemma update_run w c e :
  Group.update w c e
  = (Group.map_leaves (updated w) c, e, map (fun p => web_arg (getId p)) (leaves c)).
Proof.
  unfold Group.update. mrun (update_tree_run w c e).
  unfold after. cbn. now rewrite app_nil_r.
Qed.

Lemma renderHtml_web d w c : forall e,
  store_of (Group.renderHtml d w c e) = e
  /\ forallb is_web_event (events_of (Group.renderHtml d w c e)) = true.
Proof.
  induction c as [p | i lab items IH] using ConfigItem_tree_ind; intros e.
  - cbn [Group.renderHtml]. unfold when, Item.renderHtml, Web.arg.
    destruct (visible p), d; split; reflexivity.
  - rewrite renderHtml_group, bind_store, bind_events.
    assert (Hhead : forall e0,
              store_of ((match lab with
                         | Some text => emit (web_sendContent (GroupHeading text))
                         | None => ret tt
                         end) e0) = e0
              /\ forallb is_web_event
                   (events_of ((match lab with
                                | Some text => emit (web_sendContent (GroupHeading text))
                                | None => ret tt
                                end) e0)) = true)
      by (intros e0; destruct lab; split; reflexivity).
    destruct (Hhead e) as [Hs He]. rewrite Hs, forallb_app, He. cbn [andb].
    clear Hhead Hs He i lab.
    induction IH as [|c cs Hc _ IHcs]; [split; reflexivity|].
    cbn [renderHtml_items]. rewrite bind_store, bind_events, forallb_app.
    destruct (Hc e) as [Hs He]. rewrite Hs, He. exact IHcs.
Qed.

Lemma displayConfigPortal_web this d w e :
  store_of (displayConfigPortal this d w e) = e
  /\ forallb is_web_event (events_of (displayConfigPortal this d w e)) = true.
Proof.
  unfold displayConfigPortal, Web.sendHeader, Web.setContentLength, Web.send,
    Web.sendContent, Web.stop.
  do 6 mstep.
  destruct (renderHtml_web d w (_systemParameters this) e) as [Hs1 He1].
  destruct (renderHtml_web d w (_customParameterGroups this) e) as [Hs2 He2].
  rewrite (bind_step _ _ _ _ _ _ (run_eta (Group.renderHtml d w (_systemParameters this) e))).
  rewrite Hs1.
  rewrite (bind_step _ _ _ _ _ _
             (run_eta (Group.renderHtml d w (_customParameterGroups this) e))).
  rewrite Hs2. do 2 mstep.
  unfold after. cbn [value_of store_of events_of fst snd emit].
  split; [reflexivity|].
  rewrite !forallb_app, He1, He2. reflexivity.
Qed.

(** What [renderHtml] of a tree does: it sends [item_events] and leaves
    the store alone. *)
Lemma renderHtml_run d w c : forall e,
  Group.renderHtml d w c e = (tt, e, item_events d w c).
Proof.
  induction c as [p | i lab items IH] using ConfigItem_tree_ind; intros e.
  - cbn [Group.renderHtml item_events].
    unfold when, Item.renderHtml, Web.arg, arg_value.
    destruct (visible p), d; reflexivity.
  - rewrite renderHtml_group. cbn [item_events].
    assert (Hhead : (match lab with
                     | Some text => emit (web_sendContent (GroupHeading text))
                     | None => ret tt
                     end) e
                    = (tt, e,
                       match lab with
                       | Some text => [web_sendContent (GroupHeading text)]
                       | None => []
                       end))
      by (destruct lab; reflexivity).
    mrun Hhead. clear Hhead.
    assert (Hitems : forall e0,
              renderHtml_items d w items e0
              = (tt, e0, flat_map (item_events d w) items)).
    { clear i lab e. induction IH as [|c cs Hc _ IHcs]; intros e0; [reflexivity|].
      cbn [renderHtml_items flat_map]. mrun (Hc e0). rewrite IHcs. reflexivity. }
    rewrite Hitems. reflexivity.
Qed.

(** What [displayConfigPortal] does: the three cache headers, the unknown
    content length, the status line, the head of the page with the start
    of the form, the items of the system group and of the custom groups,
    the end of the form, the closing empty chunk, and the close of the
    connection. *)
Lemma displayConfigPortal_run this d w e :
  displayConfigPortal this d w e
  = (tt, e,
     [web_sendHeader "Cache-Control" "no-cache, no-store, must-revalidate" false;
      web_sendHeader "Pragma" "no-cache" false;
      web_sendHeader "Expires" "-1" false;
      web_setContentLength CONTENT_LENGTH_UNKNOWN;
      web_send 200 "text/html; charset=UTF-8" "";
      web_sendContent
        (Html (page_head this ++ getFormStart (htmlFormatProvider this))%string)]
     ++ item_events d w (_systemParameters this)
     ++ item_events d w (_customParameterGroups this)
     ++ [web_sendContent (Html (form_tail this));
         web_sendContent (Html "");
         web_stop]).
Proof.
  unfold displayConfigPortal, Web.sendHeader, Web.setContentLength, Web.send,
    Web.sendContent, Web.stop.
  do 6 mstep.
  mrun (renderHtml_run d w (_systemParameters this) e).
  mrun (renderHtml_run d w (_customParameterGroups this) e).
  do 2 mstep.
  unfold after. cbn [value_of store_of events_of fst snd emit app].
  reflexivity.
Qed.


Lemma validateForm_run_eta this w e :
  validateForm this w e
  = ((fst (value_of (validateForm this w e)), snd (value_of (validateForm this w e))),
     e, events_of (validateForm this w e)).
Proof.
  destruct (validateForm_run this w e) as (_ & _ & _ & Hs & _).
  destruct (validateForm this w e) as [[[v t] s] ev]. cbn in *. now subst.
Qed.

(** [handleConfig] on an authenticated submission that fails validation. *)
Lemma handleConfig_invalid this w e :
  authenticated this w = true ->
  has_field w "iotSave" = true ->
  fst (value_of (validateForm this w e)) = false ->
  let this1 := snd (value_of (validateForm this w e)) in
  handleConfig this w e
  = (this1, e,
     [web_authenticate IOTWEBCONF_ADMIN_USER_NAME (c_str (_apPassword this));
      web_hasArg "iotSave"]
     ++ events_of (validateForm this w e)
     ++ events_of (displayConfigPortal this1 true w e)).
Proof.
  intros Hauth Hsave Hinvalid this1.
  unfold authenticated in Hauth. unfold has_field in Hsave.
  unfold handleConfig, Web.authenticate, Web.hasArg.
  mstep. rewrite Hauth. cbn [negb]. mstep. rewrite Hsave. cbn [negb].
  rewrite (bind_step _ _ _ _ _ _
             (bind_step _ _ _ _ _ _ (validateForm_run_eta this w e))).
  cbn [fst snd ret after value_of store_of events_of]. rewrite Hinvalid. cbn [negb].
  fold this1.
  destruct (displayConfigPortal_web this1 true w e) as [Hs _].
  rewrite (bind_step _ _ _ _ _ _ (run_eta (displayConfigPortal this1 true w e))).
  rewrite Hs. unfold after. cbn. rewrite !app_nil_r. reflexivity.
Qed.

Lemma forallb_web_not_save l :
  forallb is_web_event l = true -> forallb (fun ev => negb (is_save_event ev)) l = true.
Proof.
  rewrite !forallb_forall. intros H ev Hin. specialize (H ev Hin).
  destruct ev; try discriminate; reflexivity.
Qed.

(** The answer of [handleConfig] to an authenticated submission that
    fails validation. *)
Lemma handleConfig_invalid_renders
    (this : IotWebConf) (w : WebRequestWrapper) (e : EEPROMClass) :
  authenticated this w = true ->
  has_field w "iotSave" = true ->
  fst (value_of (validateForm this w e)) = false ->
  let r := handleConfig this w e in
  let this' := value_of r in
  events_of r
    = [web_authenticate IOTWEBCONF_ADMIN_USER_NAME (c_str (_apPassword this));
       web_hasArg "iotSave"]
      ++ events_of (validateForm this w e)
      ++ events_of (displayConfigPortal this' true w e)
  /\ map valueBuffer (all_leaves this') = map valueBuffer (all_leaves this)
  /\ forallb (fun ev => negb (is_save_event ev)) (events_of r) = true
  /\ store_of r = e
  /\ (thingName_length this w < 3 ->
      errorMessage (_thingNameParameter this') = Some thingName_errorMessage
      /\ (visible (_thingNameParameter this) = true ->
          In (thingName_input_with_error this w) (events_of r))).
Proof.
  intros Hauth Hsave Hinvalid. cbv zeta.
  rewrite (handleConfig_invalid this w e Hauth Hsave Hinvalid).
  cbn [value_of store_of events_of fst snd].
  destruct (validateForm_run this w e) as (_ & Htn & _ & _ & Hev & Hbuf & _).
  set (this1 := snd (value_of (validateForm this w e))) in *.
  destruct (displayConfigPortal_web this1 true w e) as [_ Hweb].
  split; [reflexivity|]. split; [exact Hbuf|]. split; [|split; [reflexivity|]].
  - rewrite forallb_app, forallb_app. cbn [forallb is_save_event negb andb].
    rewrite Hev, (forallb_web_not_save _ Hweb), andb_true_r.
    destruct (_formValidator this); reflexivity.
  - intros Hshort. unfold thingName_check in Htn.
    destruct (Z.leb_spec 3 (thingName_length this w)); [lia|].
    split; [exact Htn|]. intros Hvis.
    rewrite !in_app_iff. right. right.
    assert (Hid : getId (_thingNameParameter this1) = getId (_thingNameParameter this)
                  /\ label (_thingNameParameter this1) = label (_thingNameParameter this)
                  /\ visible (_thingNameParameter this1) = visible (_thingNameParameter this)).
    { subst this1. unfold validateForm, Web.arg.
      destruct this as [ipw cv tn ap sys cust hid cb1 cb2 fv up hp].
      destruct fv; cbv [bind emit ret value_of fst snd];
        cbn; destruct (3 >? _); destruct (_ && _); cbn; repeat split; reflexivity. }
    destruct Hid as (Hid & Hlab & Hv).
    unfold displayConfigPortal, Web.sendHeader, Web.setContentLength, Web.send,
      Web.sendContent, Web.stop.
    do 6 mstep. unfold after at 1 2 3 4 5 6.
    cbn [events_of snd value_of store_of fst app].
    do 6 right.
    unfold _systemParameters at 1. rewrite renderHtml_group.
    rewrite bind_events. apply in_or_app. left.
    mstep. rewrite events_of_after. cbn [app]. right.
    cbn [renderHtml_items Group.renderHtml]. rewrite bind_events. apply in_or_app. left.
    rewrite Hv, Hvis. unfold when, Item.renderHtml, Web.arg.
    rewrite Htn, Hid, Hlab. right. left. reflexivity.
Qed.

Lemma handleConfig_unauthenticated this w e :
  authenticated this w = false ->
  handleConfig this w e
  = (this, e,
     [web_authenticate IOTWEBCONF_ADMIN_USER_NAME (c_str (_apPassword this));
      web_requestAuthentication]).
Proof.
  intros Hauth. unfold authenticated in Hauth.
  unfold handleConfig, Web.authenticate, Web.requestAuthentication.
  mstep. rewrite Hauth. reflexivity.
Qed.

Lemma validateForm_page this w e :
  page_head (snd (value_of (validateForm this w e))) = page_head this
  /\ form_tail (snd (value_of (validateForm this w e))) = form_tail this
  /\ htmlFormatProvider (snd (value_of (validateForm this w e)))
     = htmlFormatProvider this.
Proof.
  destruct (validateForm_run this w e) as (_ & _ & _ & _ & _ & _ & _ & Hrest).
  injection Hrest as _ Hcv _ _ Hup Hp.
  unfold page_head, form_tail. now rewrite Hcv, Hup, Hp.
Qed.

(** C7.  When a submission carries the save marker and fails validation,
    [handleConfig] changes no value buffer (no [update]), makes no call on
    the EEPROM nor on the save callbacks (no save), and leaves the store
    as it was.  The client being authenticated (otherwise the answer is
    the authentication challenge), the calls are, in this order: the
    authentication, the test for the save marker, the validation (the
    external validator when one is registered, then the reads of the two
    checked fields), and the config form: the three cache headers, the
    unknown content length, status 200, the head of the page with the
    start of the form, the items of the system group and of the custom
    groups rendered from the submitted data, the end of the form, the
    empty closing chunk and the close of the connection.  When the
    submitted thing name is shorter than 3 characters (as ["ab"]), the
    thing name parameter carries its error message and, being visible, is
    rendered with it. *)
Theorem handleConfig_validation_failure
    (this : IotWebConf) (w : WebRequestWrapper) (e : EEPROMClass) :
  has_field w "iotSave" = true ->
  fst (value_of (validateForm this w e)) = false ->
  let r := handleConfig this w e in
  let this' := value_of r in
  map valueBuffer (all_leaves this') = map valueBuffer (all_leaves this)
  /\ forallb (fun ev => negb (is_save_event ev)) (events_of r) = true
  /\ store_of r = e
  /\ (authenticated this w = true ->
      events_of r
      = [web_authenticate IOTWEBCONF_ADMIN_USER_NAME (c_str (_apPassword this));
         web_hasArg "iotSave"]
        ++ match _formValidator this with
           | Some _ => [call_formValidator]
           | None => []
           end
        ++ [web_arg (getId (_thingNameParameter this));
            web_arg (getId (_apPasswordParameter this))]
        ++ [web_sendHeader "Cache-Control" "no-cache, no-store, must-revalidate" false;
            web_sendHeader "Pragma" "no-cache" false;
            web_sendHeader "Expires" "-1" false;
            web_setContentLength CONTENT_LENGTH_UNKNOWN;
            web_send 200 "text/html; charset=UTF-8" "";
            web_sendContent
              (Html (page_head this ++ getFormStart (htmlFormatProvider this))%string)]
        ++ item_events true w (_systemParameters this')
        ++ item_events true w (_customParameterGroups this')
        ++ [web_sendContent (Html (form_tail this));
            web_sendContent (Html "");
            web_stop]
      /\ (thingName_length this w < 3 ->
          errorMessage (_thingNameParameter this') = Some thingName_errorMessage
          /\ (visible (_thingNameParameter this) = true ->
              In (thingName_input_with_error this w) (events_of r)))).
Proof.
  intros Hsave Hinvalid. cbv zeta.
  destruct (authenticated this w) eqn:Hauth.
  - destruct (handleConfig_invalid_renders this w e Hauth Hsave Hinvalid)
      as (Hev & Hbuf & Hnosave & Hstore & Herr).
    split; [exact Hbuf|]. split; [exact Hnosave|]. split; [exact Hstore|].
    intros _. split; [|exact Herr].
    rewrite Hev, displayConfigPortal_run. cbn [events_of snd].
    destruct (validateForm_run this w e) as (_ & _ & _ & _ & Hval & _).
    rewrite Hval.
    rewrite (handleConfig_invalid this w e Hauth Hsave Hinvalid).
    cbn [value_of fst].
    destruct (validateForm_page this w e) as (Hhead & Htail & Hprov).
    rewrite Hhead, Htail, Hprov, <- !app_assoc. reflexivity.
  - rewrite (handleConfig_unauthenticated this w e Hauth).
    cbn [value_of store_of events_of fst snd].
    split; [reflexivity|]. split; [reflexivity|]. split; [reflexivity|].
    discriminate.
Qed.

Lemma handleConfig_validation_failure_witness :
  has_field (submission "ab" "") "iotSave" = true
  /\ fst (value_of (validateForm registered_thing (submission "ab" "") erased_store))
     = false
  /\ authenticated registered_thing (submission "ab" "") = true
  /\ thingName_length registered_thing (submission "ab" "") < 3
  /\ errorMessage
       (_thingNameParameter
          (value_of (handleConfig registered_thing (submission "ab" "") erased_store)))
     = Some thingName_errorMessage
  /\ In (thingName_input_with_error registered_thing (submission "ab" ""))
       (events_of (handleConfig registered_thing (submission "ab" "") erased_store))
  /\ In (web_send 200 "text/html; charset=UTF-8" "")
       (events_of (handleConfig registered_thing (submission "ab" "") erased_store))
  /\ store_of (handleConfig registered_thing (submission "ab" "") erased_store)
     = erased_store.
Proof.
  assert (Hshort : thingName_length registered_thing (submission "ab" "") < 3)
    by (vm_compute; reflexivity).
  destruct (handleConfig_validation_failure registered_thing (submission "ab" "")
              erased_store eq_refl eq_refl) as (_ & _ & Hstore & Hform).
  destruct (Hform eq_refl) as [Hev Herr].
  destruct (Herr Hshort) as [Hmsg Hin].
  split; [reflexivity|]. split; [reflexivity|]. split; [reflexivity|].
  split; [exact Hshort|]. split; [exact Hmsg|].
  split; [apply Hin; reflexivity|].
  split; [|exact Hstore].
  rewrite Hev. apply in_or_app. right. apply in_or_app. right.
  apply in_or_app. right. apply in_or_app. left.
  cbn [In]. tauto.
Defined.

(** [saveAndConfirm]: the items of the system group and of the custom
    groups are updated, then the whole tree is saved, then the page is
    sent. *)
Lemma saveAndConfirm_run this w e :
  let this' :=
    set_customParameterGroups
      (Group.map_leaves (updated w)
         (_customParameterGroups
            (set_systemParameters
               (Group.map_leaves (updated w) (_systemParameters this)) this)))
      (set_systemParameters (Group.map_leaves (updated w) (_systemParameters this)) this)
  in
  saveAndConfirm this w e
  = (this', store_of (saveConfig this' e),
     map (fun p => web_arg (getId p)) (leaves (_systemParameters this))
     ++ map (fun p => web_arg (getId p)) (leaves (_customParameterGroups this))
     ++ events_of (saveConfig this' e)
     ++ [web_sendHeader "Content-Length" (String_of_Z (strlen (saved_page this'))) false;
         web_send 200 "text/html; charset=UTF-8" (saved_page this')]).
Proof.
  intros this'. unfold saveAndConfirm.
  mrun (update_run w (_systemParameters this) e).
  set (this1 := set_systemParameters
                  (Group.map_leaves (updated w) (_systemParameters this)) this) in *.
  mrun (update_run w (_customParameterGroups this1) e). fold this'.
  rewrite (bind_step _ _ _ _ _ _ (run_eta (saveConfig this' e))).
  unfold Web.sendHeader, Web.send. do 2 mstep.
  unfold after. cbn [value_of store_of events_of fst snd ret].
  assert (Hcust : leaves (_customParameterGroups this1)
                  = leaves (_customParameterGroups this))
    by (subst this1; destruct this; reflexivity).
  rewrite Hcust, ?app_nil_r, <- ?app_assoc. reflexivity.
Qed.

Lemma handleConfig_valid this w e :
  authenticated this w = true ->
  has_field w "iotSave" = true ->
  fst (value_of (validateForm this w e)) = true ->
  handleConfig this w e
  = after ([web_authenticate IOTWEBCONF_ADMIN_USER_NAME (c_str (_apPassword this));
            web_hasArg "iotSave"]
           ++ events_of (validateForm this w e))
      (saveAndConfirm (snd (value_of (validateForm this w e))) w e).
Proof.
  intros Hauth Hsave Hvalid.
  unfold authenticated in Hauth. unfold has_field in Hsave.
  unfold handleConfig, Web.authenticate, Web.hasArg.
  mstep. rewrite Hauth. cbn [negb]. mstep. rewrite Hsave. cbn [negb].
  rewrite (bind_step _ _ _ _ _ _
             (bind_step _ _ _ _ _ _ (validateForm_run_eta this w e))).
  cbn [fst snd ret after value_of store_of events_of]. rewrite Hvalid. cbn [negb].
  rewrite !app_nil_r. reflexivity.
Qed.

(** C8 as stated fails: the item registered with [addHiddenParameter] is
    stored by [saveConfig] but keeps its value through a valid submission
    that carries a field of its name. *)
Lemma updates_every_persisted_leaf_fails :
  ~ updates_every_persisted_leaf registered_thing submission_with_serial erased_store.
Proof.
  unfold updates_every_persisted_leaf. intros H.
  apply (f_equal (map (fun p => c_str (valueBuffer p)))) in H.
  vm_compute in H. discriminate.
Qed.

(** C8, amended.  For an authenticated submission that carries the save
    marker and passes validation, [handleConfig] updates every leaf of
    the system parameter group and of the custom parameter groups from the
    submitted data, leaves the hidden parameter group as it is, then
    saves the whole tree (hidden items included) with [saveConfig], so
    that the store holds the updated buffers, and then sends the
    confirmation page. *)
Theorem handleConfig_valid_submission
    (this : IotWebConf) (w : WebRequestWrapper) (e : EEPROMClass) :
  authenticated this w = true ->
  has_field w "iotSave" = true ->
  fst (value_of (validateForm this w e)) = true ->
  let this1 := snd (value_of (validateForm this w e)) in
  let r := handleConfig this w e in
  let this' := value_of r in
  _systemParameters this' = Group.map_leaves (updated w) (_systemParameters this1)
  /\ _customParameterGroups this'
     = Group.map_leaves (updated w) (_customParameterGroups this1)
  /\ _hiddenParameters this' = _hiddenParameters this
  /\ store_of r = store_of (saveConfig this' e)
  /\ events_of r
     = [web_authenticate IOTWEBCONF_ADMIN_USER_NAME (c_str (_apPassword this));
        web_hasArg "iotSave"]
       ++ events_of (validateForm this w e)
       ++ map (fun p => web_arg (getId p)) (leaves (_systemParameters this1))
       ++ map (fun p => web_arg (getId p)) (leaves (_customParameterGroups this1))
       ++ events_of (saveConfig this' e)
       ++ [web_sendHeader "Content-Length" (String_of_Z (strlen (saved_page this'))) false;
           web_send 200 "text/html; charset=UTF-8" (saved_page this')]
  /\ (forall i, (i < List.length (flat (all_leaves this')))%nat ->
        cells (store_of r) (first_offset + Z.of_nat i)
        = nth i (flat (all_leaves this')) NUL).
Proof.
  intros Hauth Hsave Hvalid. cbv zeta.
  rewrite (handleConfig_valid this w e Hauth Hsave Hvalid).
  destruct (validateForm_run this w e) as (_ & _ & _ & _ & _ & _ & Hhid & _).
  set (this1 := snd (value_of (validateForm this w e))) in *.
  rewrite (saveAndConfirm_run this1 w e).
  unfold after. cbn [value_of store_of events_of fst snd].
  set (this' := set_customParameterGroups _ _).
  split; [subst this'; destruct this1; reflexivity|].
  split; [subst this'; destruct this1; reflexivity|].
  split.
  { unfold _hiddenParameters. rewrite <- Hhid. subst this'. destruct this1; reflexivity. }
  split; [reflexivity|].
  split; [now rewrite <- ?app_assoc|].
  destruct (saveConfig_run this' e) as (e' & Hrun & _ & _ & Hleaves & _).
  rewrite Hrun. exact Hleaves.
Qed.

Lemma handleConfig_valid_submission_witness :
  authenticated registered_thing submission_with_serial = true
  /\ has_field submission_with_serial "iotSave" = true
  /\ fst (value_of (validateForm registered_thing submission_with_serial erased_store))
     = true
  /\ _hiddenParameters
       (value_of (handleConfig registered_thing submission_with_serial erased_store))
     = _hiddenParameters registered_thing.
Proof.
  repeat (split; [reflexivity|]).
  destruct (handleConfig_valid_submission registered_thing submission_with_serial
              erased_store eq_refl eq_refl eq_refl) as (_ & _ & H & _).
  exact H.
Defined.

(* ================================================================== *)
(** * C9: the first boot *)

Lemma until_nul_cstring l :
  forallb (fun b => negb (Byte.eqb b NUL)) l = true -> until_nul l = l.
Proof.
  induction l as [|b l IH]; simpl; [reflexivity|].
  intros H. apply andb_true_iff in H. destruct H as [Hb Hl].
  destruct (Byte.eqb b NUL); [discriminate|]. now rewrite IH.
Qed.

Lemma length_bytes_of s : List.length (bytes_of s) = String.length s.
Proof.
  unfold bytes_of, list_byte_of_string. rewrite length_map.
  induction s as [|c s IH]; simpl; [reflexivity | now rewrite IH].
Qed.

(** A C string that fits is read back from the buffer it was copied to. *)
Lemma c_str_strncpy_fits dest s :
  fits s (List.length dest) -> c_str (strncpy dest s (List.length dest)) = s.
Proof.
  intros [Hc Hlen]. unfold c_str. rewrite c_str_strncpy.
  unfold is_cstring in Hc. rewrite (until_nul_cstring _ Hc).
  rewrite firstn_all2 by (rewrite length_bytes_of; lia).
  apply string_of_list_byte_of_string.
Qed.

Lemma sketch_object_members dn pw cv setup :
  let this := sketch_object dn pw cv setup in
  _thingNameParameter this = _thingNameParameter (IotWebConf_new dn pw cv)
  /\ _apPasswordParameter this = _apPasswordParameter (IotWebConf_new dn pw cv)
  /\ _initialApPassword this = pw
  /\ _configVersion this = cv.
Proof.
  unfold sketch_object.
  assert (H : forall this0,
            let this := fold_left register setup this0 in
            _thingNameParameter this = _thingNameParameter this0
            /\ _apPasswordParameter this = _apPasswordParameter this0
            /\ _initialApPassword this = _initialApPassword this0
            /\ _configVersion this = _configVersion this0).
  { induction setup as [|r rs IH]; intros this0; cbn [fold_left].
    - repeat split.
    - destruct (IH (register this0 r)) as (H1 & H2 & H3 & H4).
      cbv zeta. rewrite H1, H2, H3, H4. destruct r; repeat split. }
  apply (H (IotWebConf_new dn pw cv)).
Qed.

Lemma init_run_invalid this e :
  fst (value_of (loadConfig this e)) = false ->
  fst (value_of (init this e)) = false
  /\ _thingNameParameter (snd (value_of (init this e)))
     = Item.applyDefaultValue (_thingNameParameter this)
  /\ _apPassword (snd (value_of (init this e)))
     = strncpy (valueBuffer (Item.applyDefaultValue (_apPasswordParameter this)))
         (_initialApPassword this) IOTWEBCONF_PASSWORD_LEN.
Proof.
  intros Hf. destruct (loadConfig_value this e) as [_ Hd]. specialize (Hd Hf).
  unfold init. rewrite bind_value. cbn [ret value_of fst snd].
  rewrite Hf, Hd. cbn [negb fst snd].
  destruct this; repeat split; reflexivity.
Qed.

(** C9.  A sketch constructs the object, sets it up, and calls [init] on
    a store whose head does not hold the version tag.  Then [init]
    returns [false]; the thing name buffer holds the default of the thing
    name parameter, which is the default thing name given to the
    constructor; the AP password buffer holds the initial AP password
    given to the constructor, as [strncpy] copies it, and not the (empty)
    default of the AP password parameter.  Read as C strings, the two
    buffers are the default thing name and the initial AP password
    whenever these fit their arrays (33 characters with the terminator). *)
Theorem init_on_fresh_store
    (defaultThingName initialApPassword configVersion : string)
    (setup : list Registration) (e : EEPROMClass) :
  let this := sketch_object defaultThingName initialApPassword configVersion setup in
  tag_absent this e ->
  let r := init this e in
  let this' := snd (value_of r) in
  fst (value_of r) = false
  /\ _thingName this'
     = strncpy (repeat NUL IOTWEBCONF_WORD_LEN)
         (defaultValue (_thingNameParameter this')) IOTWEBCONF_WORD_LEN
  /\ defaultValue (_thingNameParameter this') = defaultThingName
  /\ _apPassword this'
     = strncpy (repeat NUL IOTWEBCONF_PASSWORD_LEN)
         initialApPassword IOTWEBCONF_PASSWORD_LEN
  /\ defaultValue (_apPasswordParameter this') = ""
  /\ (fits defaultThingName IOTWEBCONF_WORD_LEN ->
      c_str (_thingName this') = defaultThingName)
  /\ (fits initialApPassword IOTWEBCONF_PASSWORD_LEN ->
      c_str (_apPassword this') = initialApPassword).
Proof.
  intros this Habsent r this'.
  destruct (sketch_object_members defaultThingName initialApPassword configVersion setup)
    as (Htn & Hap & Hipw & Hcv).
  fold this in Htn, Hap, Hipw, Hcv.
  assert (Hf : fst (value_of (loadConfig this e)) = false)
    by (apply (proj2 (loadConfig_false_iff_version_mismatch_aux this e)); exact Habsent).
  destruct (init_run_invalid this e Hf) as (Hv & Htn' & Hap').
  fold r in Hv, Htn', Hap'. fold this' in Htn', Hap'.
  assert (Hdef : defaultValue (_apPasswordParameter this') = "").
  { subst this' r. unfold init. rewrite bind_value. cbn [ret value_of fst snd].
    rewrite Hf. destruct (loadConfig_value this e) as [_ Hd]. rewrite (Hd Hf).
    cbn [negb].
    assert (Hdef : defaultValue (_apPasswordParameter this) = "")
      by (rewrite Hap; reflexivity).
    destruct this; cbn in *. exact Hdef. }
  unfold _thingName. rewrite Htn', Hap', Htn, Hap, Hipw.
  split; [exact Hv|]. split; [reflexivity|]. split; [reflexivity|].
  split; [reflexivity|]. split; [exact Hdef|]. split.
  - intros Hdn.
    exact (c_str_strncpy_fits (repeat NUL IOTWEBCONF_WORD_LEN) defaultThingName Hdn).
  - intros Hpw.
    exact (c_str_strncpy_fits (repeat NUL IOTWEBCONF_PASSWORD_LEN) initialApPassword Hpw).
Qed.

Lemma init_on_fresh_store_witness :
  tag_absent
    (sketch_object "MyThing" "secret123" "init"
       [call_addHiddenParameter (Leaf (text_item "serial" "SN-0042" 8 ""))])
    erased_store
  /\ fits "MyThing" IOTWEBCONF_WORD_LEN
  /\ fits "secret123" IOTWEBCONF_PASSWORD_LEN
  /\ fst (value_of
            (init (sketch_object "MyThing" "secret123" "init"
                     [call_addHiddenParameter (Leaf (text_item "serial" "SN-0042" 8 ""))])
               erased_store)) = false
  /\ c_str (_thingName
              (snd (value_of
                      (init (sketch_object "MyThing" "secret123" "init"
                               [call_addHiddenParameter
                                  (Leaf (text_item "serial" "SN-0042" 8 ""))])
                         erased_store)))) = "MyThing"
  /\ c_str (_apPassword
              (snd (value_of
                      (init (sketch_object "MyThing" "secret123" "init"
                               [call_addHiddenParameter
                                  (Leaf (text_item "serial" "SN-0042" 8 ""))])
                         erased_store)))) = "secret123".
Proof.
  assert (H1 : fits "MyThing" IOTWEBCONF_WORD_LEN)
    by (split; [reflexivity | vm_compute; lia]).
  assert (H2 : fits "secret123" IOTWEBCONF_PASSWORD_LEN)
    by (split; [reflexivity | vm_compute; lia]).
  assert (H3 : tag_absent
                 (sketch_object "MyThing" "secret123" "init"
                    [call_addHiddenParameter (Leaf (text_item "serial" "SN-0042" 8 ""))])
                 erased_store)
    by (exists 0%nat; split; [vm_compute; lia | vm_compute; discriminate]).
  destruct (init_on_fresh_store "MyThing" "secret123" "init"
              [call_addHiddenParameter (Leaf (text_item "serial" "SN-0042" 8 ""))]
              erased_store H3) as (Hv & _ & _ & _ & _ & Hname & Hpw).
  split; [exact H3|]. split; [exact H1|]. split; [exact H2|].
  split; [exact Hv|]. split; [exact (Hname H1) | exact (Hpw H2)].
Defined.

(* ================================================================== *)
(** * Further properties: what a load reads *)

Lemma length_span e start n : List.length (span e start n) = n.
Proof. unfold span. now rewrite length_map, length_seq. Qed.

Lemma nth_span e start n i :
  (i < n)%nat -> nth i (span e start n) NUL = cells e (start + Z.of_nat i).
Proof.
  intros Hi. unfold span.
  rewrite nth_indep with (d' := cells e (start + Z.of_nat 0))
    by now rewrite length_map, length_seq.
  rewrite (map_nth (fun i => cells e (start + Z.of_nat i))), seq_nth by assumption.
  reflexivity.
Qed.

Lemma span_S e start n :
  span e start (S n) = cells e start :: span e (start + 1) n.
Proof.
  unfold span. cbn [seq map]. f_equal; [f_equal; lia|].
  rewrite <- seq_shift, map_map. apply map_ext. intros i. f_equal. lia.
Qed.

Lemma span_add e a b : forall start,
  span e start (a + b) = span e start a ++ span e (start + Z.of_nat a) b.
Proof.
  induction a as [|a IH]; intros start.
  - cbn [Nat.add]. unfold span at 2. cbn. now rewrite Z.add_0_r.
  - cbn [Nat.add]. rewrite !span_S, IH. cbn [app]. do 3 f_equal. lia.
Qed.

(** [loadValue] of one leaf, whatever the store holds. *)
Lemma load_leaf_gen p start e n :
  region e = Some n -> 0 <= start -> start + Item.getStorageSize p <= n ->
  load_leaf p start e =
    ((loaded_leaf e (start, p), start + Item.getStorageSize p), e,
     read_events start (List.length (valueBuffer p))).
Proof.
  intros Hn H0 Hle. unfold Item.getStorageSize in *.
  unfold load_leaf, Item.loadValue, loadConfig_lambda, readEepromValue.
  cbn [data length].
  assert (Hbytes : map (fun i => peek e (start + Z.of_nat i))
                     (seq 0 (List.length (valueBuffer p)))
                   = span e start (List.length (valueBuffer p))).
  { unfold span. apply map_ext_in. intros i Hi. apply in_seq in Hi.
    apply (peek_in_region e n); [assumption | lia]. }
  rewrite (bind_step _ _ _ _ _ _
             (bind_step _ _ _ _ _ _
                (bind_step _ _ _ _ _ _ (readEepromValue_loop_run _ _ _ _)))).
  unfold after. cbn [ret value_of store_of events_of fst snd].
  rewrite Hbytes, skipn_all, !app_nil_r. unfold loaded_leaf. cbn [fst snd].
  do 2 f_equal. f_equal. lia.
Qed.

(** [loadValue] of a tree, whatever the store holds: every leaf receives
    the bytes at its offset, and nothing else changes. *)
Lemma load_tree_gen c : forall start e n,
  region e = Some n -> 0 <= start -> start + Group.getStorageSize c <= n ->
  exists c',
    Group.traverse load_leaf c start e =
      ((c', start + Group.getStorageSize c), e,
       flat_map leaf_reads (layout start (leaves c)))
    /\ leaves c' = map (loaded_leaf e) (layout start (leaves c)).
Proof.
  induction c as [p | i lab items IH] using ConfigItem_tree_ind;
    intros start e n Hn H0 Hle.
  - exists (Leaf (loaded_leaf e (start, p))). split; [|reflexivity].
    cbn [Group.traverse]. mrun (load_leaf_gen p start e n Hn H0 Hle).
    unfold after. cbn. now rewrite !app_nil_r.
  - assert (Hitems : exists items',
      traverse_items load_leaf items start e =
        ((items', start + storageSize_items items), e,
         flat_map leaf_reads (layout start (flat_map leaves items)))
      /\ flat_map leaves items'
         = map (loaded_leaf e) (layout start (flat_map leaves items))).
    { rewrite getStorageSize_group in Hle. clear i lab.
      revert start H0 Hle.
      induction IH as [|c cs Hc _ IHcs]; intros start H0 Hle.
      - exists []. split; [cbn; now rewrite Z.add_0_r | reflexivity].
      - cbn [storageSize_items fold_right] in Hle.
        fold (storageSize_items cs) in Hle.
        pose proof (getStorageSize_nonneg c) as Hc0.
        assert (0 <= storageSize_items cs) as Hcs0
          by (rewrite storageSize_items_flat; lia).
        destruct (Hc start e n Hn H0 ltac:(lia)) as (c' & Hrun1 & Hl1).
        destruct (IHcs (start + Group.getStorageSize c)) as (cs' & Hrun2 & Hl2);
          try lia.
        exists (c' :: cs'). split.
        + cbn [traverse_items]. mrun Hrun1. cbn [fst snd]. mrun Hrun2.
          unfold after. cbn [ret value_of store_of events_of fst snd flat_map
                             storageSize_items fold_right].
          fold (storageSize_items cs).
          rewrite layout_app, flat_map_app, app_nil_r, <- getStorageSize_flat.
          do 2 f_equal. f_equal. lia.
        + cbn [flat_map]. rewrite Hl1, Hl2, layout_app, map_app,
            <- getStorageSize_flat. reflexivity. }
    destruct Hitems as (items' & Hrun & Hl).
    exists (ParameterGroup i lab items'). split.
    + rewrite traverse_group. mrun Hrun. unfold after.
      cbn [ret value_of store_of events_of fst snd].
      now rewrite app_nil_r, getStorageSize_group.
    + rewrite !leaves_group. exact Hl.
Qed.

Lemma set_allParameters_other_members t this :
  _initialApPassword (set_allParameters t this) = _initialApPassword this
  /\ _configVersion (set_allParameters t this) = _configVersion this
  /\ _configSavingCallback (set_allParameters t this) = _configSavingCallback this
  /\ _configSavedCallback (set_allParameters t this) = _configSavedCallback this
  /\ _formValidator (set_allParameters t this) = _formValidator this
  /\ _updatePath (set_allParameters t this) = _updatePath this
  /\ htmlFormatProvider (set_allParameters t this) = htmlFormatProvider this.
Proof.
  unfold set_allParameters, set_hiddenParameters, set_customParameterGroups,
    set_systemParameters.
  repeat match goal with
         | |- context [match ?x with _ => _ end] => destruct x
         end; repeat split; reflexivity.
Qed.

(** What [loadConfig] leaves in the object and in the store, for both
    outcomes. *)
Lemma loadConfig_leaves this e :
  let r := loadConfig this e in
  store_of r = {| cells := cells e; region := Some (region_size this) |}
  /\ all_leaves (snd (value_of r))
     = (if fst (value_of r)
        then map (loaded_leaf e) (layout first_offset (all_leaves this))
        else map Item.applyDefaultValue (all_leaves this))
  /\ _configVersion (snd (value_of r)) = _configVersion this
  /\ _initialApPassword (snd (value_of r)) = _initialApPassword this.
Proof.
  cbv zeta.
  pose proof (getStorageSize_nonneg (_allParameters this)) as Hsz.
  set (e1 := {| cells := cells e; region := Some (region_size this) |}).
  assert (Hb : EEPROM.begin
                 (IOTWEBCONF_CONFIG_START
                  + Z.of_nat IOTWEBCONF_CONFIG_VERSION_LENGTH + initConfig this) e
               = (tt, e1, [EEPROM_begin (region_size this)])) by reflexivity.
  destruct (testConfigVersion_loop_value this IOTWEBCONF_CONFIG_VERSION_LENGTH 0 e1)
    as [_ Hs].
  fold (testConfigVersion this) in Hs.
  unfold loadConfig. mrun Hb.
  rewrite (bind_step _ _ _ _ _ _ (run_eta (testConfigVersion this e1))), Hs.
  rewrite !value_of_after, !store_of_after.
  destruct (value_of (testConfigVersion this e1)).
  - destruct (load_tree_gen (_allParameters this) first_offset e1 (region_size this))
      as (c' & Hrun & Hl); [reflexivity | | |].
    { unfold first_offset, IOTWEBCONF_CONFIG_START. lia. }
    { unfold region_size. lia. }
    pose proof (set_allParameters_traverse load_leaf this first_offset e1) as Hshape.
    cbv zeta in Hshape. rewrite Hrun in Hshape. cbn [value_of fst] in Hshape.
    unfold Group.loadValue.
    change (Item.loadValue loadConfig_lambda) with load_leaf.
    fold first_offset. mrun Hrun. unfold after.
    cbn [ret value_of store_of events_of fst snd].
    destruct (set_allParameters_other_members c' this) as (H1 & H2 & _).
    split; [reflexivity|]. split; [|split; assumption].
    unfold all_leaves at 1. rewrite Hshape, Hl. reflexivity.
  - cbn [ret value_of store_of events_of fst snd].
    destruct (set_allParameters_other_members
                (Group.applyDefaultValue (_allParameters this)) this) as (H1 & H2 & _).
    split; [reflexivity|]. split; [|split; assumption].
    unfold all_leaves, Group.applyDefaultValue.
    now rewrite allParameters_set_map_leaves, leaves_map_leaves.
Qed.

Lemma length_flat_capacities ps : List.length (flat ps) = list_sum (capacities ps).
Proof.
  induction ps as [|p ps IH]; [reflexivity|].
  unfold flat in *. cbn [flat_map capacities map list_sum]. rewrite length_app.
  fold (capacities ps). now rewrite IH.
Qed.

Lemma capacities_loaded e ps : forall start,
  capacities (map (loaded_leaf e) (layout start ps)) = capacities ps.
Proof.
  induction ps as [|p ps IH]; intros start; [reflexivity|].
  cbn [layout map capacities]. unfold capacities in IH. rewrite IH.
  unfold loaded_leaf. cbn [fst snd valueBuffer set_valueBuffer].
  now rewrite length_span.
Qed.

Lemma capacities_applyDefaultValue ps :
  capacities (map Item.applyDefaultValue ps) = capacities ps.
Proof.
  unfold capacities. rewrite map_map. apply map_ext. intros p.
  unfold Item.applyDefaultValue. cbn [valueBuffer set_valueBuffer].
  apply length_strncpy.
Qed.

Lemma region_size_capacities this :
  region_size this = first_offset + Z.of_nat (list_sum (capacities (all_leaves this))).
Proof.
  unfold region_size, all_leaves. now rewrite getStorageSize_flat, length_flat_capacities.
Qed.

Lemma tag_present_valid this e :
  tag_present this e -> fst (value_of (loadConfig this e)) = true.
Proof.
  intros Hp. destruct (fst (value_of (loadConfig this e))) eqn:E; [reflexivity|].
  apply loadConfig_false_iff_version_mismatch_aux in E.
  destruct E as (t & Ht & Hne). exfalso. apply Hne. now apply Hp.
Qed.

Lemma loadConfig_capacities this e :
  capacities (all_leaves (snd (value_of (loadConfig this e))))
  = capacities (all_leaves this).
Proof.
  destruct (loadConfig_leaves this e) as (_ & Hl & _). rewrite Hl.
  destruct (fst (value_of (loadConfig this e)));
    [apply capacities_loaded | apply capacities_applyDefaultValue].
Qed.

(** X1.  [loadConfig] never alters a byte of the store, whether the
    version tag matches or not. *)
Theorem loadConfig_never_writes (this : IotWebConf) (e : EEPROMClass) :
  forall a, cells (store_of (loadConfig this e)) a = cells e a.
Proof.
  intros a. destruct (loadConfig_leaves this e) as (Hs & _). rewrite Hs. reflexivity.
Qed.

(** X2.  [loadConfig] keeps the capacity of every leaf buffer, whether
    it loads the stored bytes or applies the defaults; so the offsets of
    the leaves and the size of the region are the same before and after. *)
Theorem loadConfig_keeps_layout (this : IotWebConf) (e : EEPROMClass) :
  let this' := snd (value_of (loadConfig this e)) in
  capacities (all_leaves this') = capacities (all_leaves this)
  /\ map fst (layout first_offset (all_leaves this'))
     = map fst (layout first_offset (all_leaves this))
  /\ region_size this' = region_size this.
Proof.
  cbv zeta. pose proof (loadConfig_capacities this e) as Hc.
  split; [exact Hc|]. split.
  - rewrite !layout_offsets.
    assert (Hlen : List.length (all_leaves (snd (value_of (loadConfig this e))))
                   = List.length (all_leaves this)).
    { apply (f_equal (@List.length nat)) in Hc. unfold capacities in Hc.
      now rewrite !length_map in Hc. }
    rewrite Hlen. apply map_ext. intros k.
    rewrite !length_flat_capacities. unfold capacities. rewrite <- !firstn_map.
    fold (capacities (all_leaves (snd (value_of (loadConfig this e))))).
    fold (capacities (all_leaves this)). now rewrite Hc.
  - rewrite !region_size_capacities. now rewrite Hc.
Qed.

(** X3.  When the store holds the version tag of the object,
    [loadConfig] returns [true] and every leaf buffer receives the bytes
    the store holds at the offset of the leaf; the identifier, label,
    default, visibility and error message of the leaf stay as they were. *)
Theorem loadConfig_reads_each_leaf_at_its_offset (this : IotWebConf) (e : EEPROMClass) :
  tag_present this e ->
  let r := loadConfig this e in
  fst (value_of r) = true
  /\ all_leaves (snd (value_of r))
     = map (fun op => set_valueBuffer (snd op)
                        (span e (fst op) (List.length (valueBuffer (snd op)))))
         (layout first_offset (all_leaves this)).
Proof.
  intros Hp. cbv zeta. pose proof (tag_present_valid this e Hp) as Hv.
  destruct (loadConfig_leaves this e) as (_ & Hl & _).
  rewrite Hv in Hl. split; [exact Hv | exact Hl].
Qed.

Lemma loadConfig_reads_each_leaf_at_its_offset_witness :
  tag_present registered_thing saved_store
  /\ fst (value_of (loadConfig registered_thing saved_store)) = true.
Proof.
  assert (H : tag_present registered_thing saved_store).
  { intros i Hi.
    do 4 (destruct i as [|i]; [vm_compute; reflexivity|]).
    exfalso. unfold IOTWEBCONF_CONFIG_VERSION_LENGTH in Hi. lia. }
  split; [exact H|].
  destruct (loadConfig_reads_each_leaf_at_its_offset registered_thing saved_store H)
    as [Hv _].
  exact Hv.
Defined.

(* ================================================================== *)
(** * Further properties: what a save writes *)

Lemma saveConfig_cells this e a :
  cells (store_of (saveConfig this e)) a
  = if (IOTWEBCONF_CONFIG_START <=? a) && (a <? first_offset)
    then nth (Z.to_nat (a - IOTWEBCONF_CONFIG_START)) (version_tag this) NUL
    else if (first_offset <=? a) && (a <? region_size this)
         then nth (Z.to_nat (a - first_offset)) (flat (all_leaves this)) NUL
         else cells e a.
Proof.
  destruct (saveConfig_run this e) as (e' & Hrun & _ & Htag & Hleaves & Hout).
  rewrite Hrun. cbn [store_of fst snd].
  pose proof (getStorageSize_nonneg (_allParameters this)) as Hsz.
  assert (Hlen : region_size this
                 = first_offset + Z.of_nat (List.length (flat (all_leaves this))))
    by (unfold region_size, all_leaves; now rewrite getStorageSize_flat).
  destruct (Z.leb_spec IOTWEBCONF_CONFIG_START a), (Z.ltb_spec a first_offset);
    cbn [andb].
  - replace a with (IOTWEBCONF_CONFIG_START
                    + Z.of_nat (Z.to_nat (a - IOTWEBCONF_CONFIG_START))) at 1 by lia.
    apply Htag. unfold first_offset in *. lia.
  - destruct (Z.leb_spec first_offset a); [|lia].
    destruct (Z.ltb_spec a (region_size this)); cbn [andb].
    + replace a with (first_offset + Z.of_nat (Z.to_nat (a - first_offset))) at 1 by lia.
      apply Hleaves. lia.
    + apply Hout. now right.
  - destruct (Z.leb_spec first_offset a);
      [unfold first_offset in *; lia|]. cbn [andb]. apply Hout. now left.
  - destruct (Z.leb_spec first_offset a);
      [unfold first_offset in *; lia|]. cbn [andb]. apply Hout. now left.
Qed.

(** X4.  [saveConfig] writes exactly the layout [version tag][leaf 1]
    [leaf 2]...: after it, the bytes from [IOTWEBCONF_CONFIG_START] are
    the four bytes of the config version, then the buffers of the leaves
    in registration order; every byte outside this region is as it was,
    and the store handle is closed. *)
Theorem saveConfig_writes_exactly_the_layout (this : IotWebConf) (e : EEPROMClass) :
  let e' := store_of (saveConfig this e) in
  span e' IOTWEBCONF_CONFIG_START IOTWEBCONF_CONFIG_VERSION_LENGTH = version_tag this
  /\ span e' first_offset (List.length (flat (all_leaves this))) = flat (all_leaves this)
  /\ (forall a, a < IOTWEBCONF_CONFIG_START \/ region_size this <= a ->
        cells e' a = cells e a)
  /\ region e' = None.
Proof.
  cbv zeta. destruct (saveConfig_run this e) as (e' & Hrun & Hreg & Htag & Hleaves & Hout).
  rewrite Hrun. cbn [store_of fst snd].
  split; [|split; [|split; assumption]].
  - rewrite <- (length_version_tag this). unfold span.
    apply map_seq_nth with (d := NUL). intros i Hi. apply Htag.
    now rewrite length_version_tag in Hi.
  - unfold span. apply map_seq_nth with (d := NUL). exact Hleaves.
Qed.

(** X5.  Saving twice is saving once: a second [saveConfig] of the same
    object leaves every byte of the store as the first one left it. *)
Theorem saveConfig_idempotent (this : IotWebConf) (e : EEPROMClass) :
  forall a,
    cells (store_of (saveConfig this (store_of (saveConfig this e)))) a
    = cells (store_of (saveConfig this e)) a.
Proof.
  intros a. rewrite (saveConfig_cells this (store_of (saveConfig this e)) a).
  rewrite (saveConfig_cells this e a).
  destruct ((IOTWEBCONF_CONFIG_START <=? a) && (a <? first_offset)); [reflexivity|].
  destruct ((first_offset <=? a) && (a <? region_size this)); reflexivity.
Qed.

(* ================================================================== *)
(** * Further properties: save, reboot, load *)

Lemma span_eq e start l :
  (forall i, (i < List.length l)%nat -> cells e (start + Z.of_nat i) = nth i l NUL) ->
  span e start (List.length l) = l.
Proof. intros H. unfold span. now apply map_seq_nth with (d := NUL). Qed.

(** Leaves of the capacities of [qs], loaded from a store that holds the
    buffers of [qs], receive the buffers of [qs]. *)
Lemma loaded_buffers e ps : forall qs start,
  capacities ps = capacities qs ->
  (forall i, (i < List.length (flat qs))%nat ->
     cells e (start + Z.of_nat i) = nth i (flat qs) NUL) ->
  map valueBuffer (map (loaded_leaf e) (layout start ps)) = map valueBuffer qs.
Proof.
  induction ps as [|p ps IH]; intros [|q qs] start Hcap Hcells;
    try discriminate; [reflexivity|].
  cbn [capacities map] in Hcap. injection Hcap as Hlen Hcap'.
  unfold flat in Hcells. cbn [flat_map] in Hcells. fold (flat qs) in Hcells.
  cbn [layout map]. f_equal.
  - unfold loaded_leaf. cbn [fst snd valueBuffer set_valueBuffer]. rewrite Hlen.
    apply span_eq. intros i Hi. rewrite Hcells by (rewrite length_app; lia).
    now rewrite app_nth1.
  - apply IH; [exact Hcap'|]. intros i Hi. unfold Item.getStorageSize. rewrite Hlen.
    replace (start + Z.of_nat (List.length (valueBuffer q)) + Z.of_nat i)
      with (start + Z.of_nat (List.length (valueBuffer q) + i)) by lia.
    rewrite Hcells by (rewrite length_app; lia).
    rewrite app_nth2 by lia. f_equal. lia.
Qed.

Lemma flat_loaded e ps : forall start,
  flat (map (loaded_leaf e) (layout start ps)) = span e start (List.length (flat ps)).
Proof.
  induction ps as [|p ps IH]; intros start; [reflexivity|].
  unfold flat in *. cbn [layout map flat_map]. rewrite IH, length_app, span_add.
  reflexivity.
Qed.

Lemma init_run_valid this e :
  fst (value_of (loadConfig this e)) = true ->
  value_of (init this e) = value_of (loadConfig this e).
Proof.
  intros Hv. unfold init. rewrite bind_value. unfold value_of in *.
  destruct (fst (fst (loadConfig this e))) as [b t].
  cbn [fst snd] in *. subst b. reflexivity.
Qed.

Lemma saved_tag_present saved boot e :
  version_tag boot = version_tag saved ->
  tag_present boot (store_of (saveConfig saved e)).
Proof.
  intros Htag i Hi.
  destruct (saveConfig_run saved e) as (e' & Hrun & _ & Ht & _).
  rewrite Hrun. cbn [store_of fst snd].
  rewrite Ht, <- Htag by assumption. now apply nth_version_tag.
Qed.

(* ================================================================== *)
(** * C1: save then load *)

(** The calls of a [loadConfig] that finds the version tag. *)
Lemma loadConfig_events_present this e :
  tag_present this e ->
  events_of (loadConfig this e)
  = [EEPROM_begin (region_size this)]
    ++ read_events IOTWEBCONF_CONFIG_START IOTWEBCONF_CONFIG_VERSION_LENGTH
    ++ flat_map leaf_reads (layout first_offset (all_leaves this)).
Proof.
  intros Hp.
  pose proof (getStorageSize_nonneg (_allParameters this)) as Hsz.
  set (e1 := {| cells := cells e; region := Some (region_size this) |}).
  assert (Hb : EEPROM.begin
                 (IOTWEBCONF_CONFIG_START
                  + Z.of_nat IOTWEBCONF_CONFIG_VERSION_LENGTH + initConfig this) e
               = (tt, e1, [EEPROM_begin (region_size this)])) by reflexivity.
  assert (Ht : testConfigVersion this e1
               = (true, e1,
                  read_events IOTWEBCONF_CONFIG_START IOTWEBCONF_CONFIG_VERSION_LENGTH)).
  { unfold testConfigVersion. rewrite testConfigVersion_loop_true.
    - do 2 f_equal.
    - intros i Hi. rewrite (peek_in_region e1 (region_size this)).
      + cbn [cells e1]. apply Hp. lia.
      + reflexivity.
      + unfold region_size, first_offset, IOTWEBCONF_CONFIG_START. lia. }
  destruct (load_tree_gen (_allParameters this) first_offset e1 (region_size this))
    as (c' & Hrun & _); [reflexivity | | |].
  { unfold first_offset, IOTWEBCONF_CONFIG_START. lia. }
  { unfold region_size. lia. }
  unfold loadConfig. mrun Hb. mrun Ht.
  unfold Group.loadValue.
  change (Item.loadValue loadConfig_lambda) with load_leaf.
  fold first_offset. mrun Hrun. unfold after.
  cbn [ret value_of store_of events_of fst snd app].
  now rewrite app_nil_r.
Qed.

(** Offsets and reads depend on the capacities of the leaves only. *)
Lemma layout_capacities ps : forall qs start,
  capacities ps = capacities qs ->
  map fst (layout start ps) = map fst (layout start qs)
  /\ flat_map leaf_reads (layout start ps) = flat_map leaf_reads (layout start qs).
Proof.
  induction ps as [|p ps IH]; intros [|q qs] start Hcap; try discriminate;
    [split; reflexivity|].
  cbn [capacities map] in Hcap. injection Hcap as Hlen Hcap'.
  cbn [layout map flat_map fst]. unfold leaf_reads at 1 3. cbn [fst snd].
  unfold Item.getStorageSize. rewrite Hlen.
  destruct (IH qs (start + Z.of_nat (List.length (valueBuffer q))) Hcap') as [H1 H2].
  now rewrite H1, H2.
Qed.

(** C1.  For every registered tree and every content of the leaf buffers,
    [saveConfig] followed by [loadConfig] makes [loadConfig] return
    [true] and puts into every leaf buffer the bytes the buffer at its
    place held at save time.  This is stated for the load into any object
    [other] with leaf buffers of the same capacities, in the same order,
    and the same four version bytes, whatever its buffers hold before:
    the saved object itself is one such object, and loading into it gives
    the saved object back as a whole.  Both calls open the same region
    (start + version-tag length + storage size of the tree), and they
    write and read each leaf at the same offset: the version-tag length
    plus the running sum of the storage sizes of the leaves before it. *)
Theorem saveConfig_loadConfig_roundtrip (this other : IotWebConf) (e : EEPROMClass) :
  capacities (all_leaves other) = capacities (all_leaves this) ->
  version_tag other = version_tag this ->
  let saved := saveConfig this e in
  let loaded := loadConfig other (store_of saved) in
  let offsets := layout first_offset (all_leaves this) in
  fst (value_of loaded) = true
  /\ map valueBuffer (all_leaves (snd (value_of loaded)))
     = map valueBuffer (all_leaves this)
  /\ (other = this -> snd (value_of loaded) = this)
  /\ events_of saved =
       (if _configSavingCallback this
        then [call_configSavingCallback (Group.getStorageSize (_allParameters this))]
        else [])
       ++ [EEPROM_begin (region_size this)]
       ++ write_events IOTWEBCONF_CONFIG_START (version_tag this)
       ++ flat_map leaf_writes offsets
       ++ [EEPROM_end]
       ++ (if _configSavedCallback this then [call_configSavedCallback] else [])
  /\ events_of loaded =
       [EEPROM_begin (region_size this)]
       ++ read_events IOTWEBCONF_CONFIG_START IOTWEBCONF_CONFIG_VERSION_LENGTH
       ++ flat_map leaf_reads offsets
  /\ region_size other = region_size this
  /\ map fst (layout first_offset (all_leaves other)) = map fst offsets
  /\ map fst offsets
     = map (fun k =>
              IOTWEBCONF_CONFIG_START + Z.of_nat IOTWEBCONF_CONFIG_VERSION_LENGTH
              + Z.of_nat (List.length (flat (firstn k (all_leaves this)))))
         (seq 0 (List.length (all_leaves this))).
Proof.
  intros Hcap Htag. cbv zeta.
  pose proof (saved_tag_present this other e Htag) as Hp.
  pose proof (tag_present_valid other _ Hp) as Hv.
  pose proof (loadConfig_events_present other _ Hp) as Hev.
  destruct (loadConfig_leaves other (store_of (saveConfig this e))) as (_ & Hl & _).
  rewrite Hv in Hl.
  destruct (layout_capacities (all_leaves other) (all_leaves this) first_offset Hcap)
    as [Hoff Hreads].
  assert (Hreg : region_size other = region_size this)
    by (rewrite !region_size_capacities; now rewrite Hcap).
  destruct (saveConfig_run this e) as (e' & Hsave & _ & Htag' & Hleaves & _).
  split; [exact Hv|]. split.
  { rewrite Hl. apply loaded_buffers; [exact Hcap|].
    rewrite Hsave. exact Hleaves. }
  split.
  { intros ->. rewrite Hsave. cbn [store_of fst snd].
    now rewrite (loadConfig_run_valid this e' Htag' Hleaves). }
  split; [rewrite Hsave; reflexivity|].
  split; [rewrite Hev, Hreg, Hreads; reflexivity|].
  split; [exact Hreg|]. split; [exact Hoff|]. apply layout_offsets.
Qed.

Lemma saveConfig_loadConfig_roundtrip_witness :
  capacities (all_leaves registered_thing) = capacities (all_leaves (named_thing "garage"))
  /\ version_tag registered_thing = version_tag (named_thing "garage")
  /\ map valueBuffer (all_leaves registered_thing)
     <> map valueBuffer (all_leaves (named_thing "garage"))
  /\ map valueBuffer
       (all_leaves
          (snd (value_of (loadConfig registered_thing
                            (store_of (saveConfig (named_thing "garage") erased_store))))))
     = map valueBuffer (all_leaves (named_thing "garage")).
Proof.
  split; [reflexivity|]. split; [reflexivity|].
  split; [vm_compute; discriminate|].
  exact (proj1 (proj2 (saveConfig_loadConfig_roundtrip (named_thing "garage")
                         registered_thing erased_store eq_refl eq_refl))).
Defined.

Lemma init_after_saveConfig saved boot e :
  capacities (all_leaves boot) = capacities (all_leaves saved) ->
  version_tag boot = version_tag saved ->
  fst (value_of (init boot (store_of (saveConfig saved e)))) = true
  /\ map valueBuffer
       (all_leaves (snd (value_of (init boot (store_of (saveConfig saved e))))))
     = map valueBuffer (all_leaves saved).
Proof.
  intros Hcap Htag.
  set (e' := store_of (saveConfig saved e)).
  pose proof (saved_tag_present saved boot e Htag) as Hp. fold e' in Hp.
  pose proof (tag_present_valid boot e' Hp) as Hv.
  rewrite (init_run_valid boot e' Hv).
  destruct (loadConfig_leaves boot e') as (_ & Hl & _). rewrite Hv in Hl.
  split; [exact Hv|].
  rewrite Hl. apply loaded_buffers; [exact Hcap|].
  destruct (saveConfig_run saved e) as (e'' & Hrun & _ & _ & Hleaves & _).
  subst e'. rewrite Hrun. exact Hleaves.
Qed.

(** X6.  A configuration survives a reboot.  Let an object be saved, and
    let [init] run on that store for an object with leaf buffers of the
    same capacities, in the same order, and the same four version bytes
    (the object the same sketch constructs and sets up after the reboot).
    Then [init] returns [true] and every leaf buffer holds what the
    buffer at its place held when saved; in particular the AP password is
    the saved one, not the initial one. *)
Theorem init_restores_saved_configuration
    (saved boot : IotWebConf) (e : EEPROMClass) :
  capacities (all_leaves boot) = capacities (all_leaves saved) ->
  version_tag boot = version_tag saved ->
  let r := init boot (store_of (saveConfig saved e)) in
  fst (value_of r) = true
  /\ map valueBuffer (all_leaves (snd (value_of r)))
     = map valueBuffer (all_leaves saved)
  /\ _apPassword (snd (value_of r)) = _apPassword saved.
Proof.
  intros Hcap Htag. cbv zeta.
  destruct (init_after_saveConfig saved boot e Hcap Htag) as [Hv Hbuf].
  split; [exact Hv|]. split; [exact Hbuf|].
  rewrite !all_leaves_eq in Hbuf. cbn [map] in Hbuf.
  injection Hbuf as _ Hap _. exact Hap.
Qed.

Lemma init_restores_saved_configuration_witness :
  capacities (all_leaves registered_thing) = capacities (all_leaves (named_thing "garage"))
  /\ version_tag registered_thing = version_tag (named_thing "garage")
  /\ map valueBuffer
       (all_leaves
          (snd (value_of (init registered_thing
                            (store_of (saveConfig (named_thing "garage") erased_store))))))
     = map valueBuffer (all_leaves (named_thing "garage")).
Proof.
  split; [reflexivity|]. split; [reflexivity|].
  exact (proj1 (proj2 (init_restores_saved_configuration (named_thing "garage")
                         registered_thing erased_store eq_refl eq_refl))).
Defined.

(** X7.  Loading and saving back changes nothing: when the store holds
    the version tag of the object, a [saveConfig] of the object that
    [loadConfig] returns leaves every byte of the store as it was before
    the load. *)
Theorem saveConfig_after_loadConfig_keeps_store (this : IotWebConf) (e : EEPROMClass) :
  tag_present this e ->
  let loaded := loadConfig this e in
  forall a,
    cells (store_of (saveConfig (snd (value_of loaded)) (store_of loaded))) a
    = cells e a.
Proof.
  intros Hp. cbv zeta. intros a.
  pose proof (tag_present_valid this e Hp) as Hv.
  destruct (loadConfig_leaves this e) as (Hs & Hl & Hcv & _). rewrite Hv in Hl.
  set (this' := snd (value_of (loadConfig this e))) in *.
  assert (Hreg : region_size this' = region_size this).
  { rewrite !region_size_capacities. subst this'. now rewrite loadConfig_capacities. }
  rewrite saveConfig_cells, Hs, Hreg. cbn [cells].
  pose proof (getStorageSize_nonneg (_allParameters this)) as Hsz.
  destruct (Z.leb_spec IOTWEBCONF_CONFIG_START a), (Z.ltb_spec a first_offset);
    cbn [andb]; try reflexivity.
  - rewrite nth_version_tag, Hcv by (unfold first_offset in *; lia).
    rewrite <- Hp by (unfold first_offset in *; lia). f_equal. lia.
  - destruct (Z.leb_spec first_offset a); [|lia].
    destruct (Z.ltb_spec a (region_size this)); cbn [andb]; [|reflexivity].
    rewrite Hl, flat_loaded, nth_span.
    + f_equal. lia.
    + unfold region_size, all_leaves in *. rewrite getStorageSize_flat in *. lia.
  - destruct (Z.leb_spec first_offset a); [unfold first_offset in *; lia|]. reflexivity.
  - destruct (Z.leb_spec first_offset a); [unfold first_offset in *; lia|]. reflexivity.
Qed.

Lemma saveConfig_after_loadConfig_keeps_store_witness :
  tag_present registered_thing saved_store
  /\ cells (store_of (saveConfig (snd (value_of (loadConfig registered_thing saved_store)))
                        (store_of (loadConfig registered_thing saved_store)))) 4
     = cells saved_store 4.
Proof.
  assert (H : tag_present registered_thing saved_store).
  { intros i Hi.
    do 4 (destruct i as [|i]; [vm_compute; reflexivity|]).
    exfalso. unfold IOTWEBCONF_CONFIG_VERSION_LENGTH in Hi. lia. }
  split; [exact H|].
  exact (saveConfig_after_loadConfig_keeps_store registered_thing saved_store H 4).
Defined.

(* ================================================================== *)
(** * Further properties: registration and layout *)

Lemma all_leaves_addHiddenParameter p this :
  all_leaves (addHiddenParameter p this) = all_leaves this ++ leaves p.
Proof.
  rewrite !all_leaves_eq. unfold addHiddenParameter.
  cbn [with_items _thingNameParameter _apPasswordParameter systemItems customItems
       hiddenItems].
  rewrite flat_map_app. cbn [flat_map]. rewrite app_nil_r.
  cbn [app]. now rewrite <- !app_assoc.
Qed.

Lemma loaded_same e ps : forall start,
  (forall i, (i < List.length (flat ps))%nat ->
     cells e (start + Z.of_nat i) = nth i (flat ps) NUL) ->
  map (loaded_leaf e) (layout start ps) = ps.
Proof.
  induction ps as [|p ps IH]; intros start Hcells; [reflexivity|].
  unfold flat in Hcells. cbn [flat_map] in Hcells. fold (flat ps) in Hcells.
  cbn [layout map]. f_equal.
  - unfold loaded_leaf. cbn [fst snd]. rewrite span_eq; [apply set_valueBuffer_same|].
    intros i Hi. rewrite Hcells by (rewrite length_app; lia). now rewrite app_nth1.
  - apply IH. intros i Hi. unfold Item.getStorageSize.
    replace (start + Z.of_nat (List.length (valueBuffer p)) + Z.of_nat i)
      with (start + Z.of_nat (List.length (valueBuffer p) + i)) by lia.
    rewrite Hcells by (rewrite length_app; lia).
    rewrite app_nth2 by lia. f_equal. lia.
Qed.

Lemma loaded_leaf_ext e e' ps : forall start,
  (forall a, start <= a -> cells e a = cells e' a) ->
  map (loaded_leaf e) (layout start ps) = map (loaded_leaf e') (layout start ps).
Proof.
  induction ps as [|p ps IH]; intros start H; [reflexivity|].
  cbn [layout map]. f_equal.
  - unfold loaded_leaf, span. cbn [fst snd]. f_equal.
    apply map_ext. intros i. apply H. lia.
  - apply IH. intros a Ha. apply H. unfold Item.getStorageSize in Ha. lia.
Qed.

(** X8.  Each of [addParameterGroup], [addSystemParameter] and
    [addHiddenParameter] makes the region that [loadConfig] and
    [saveConfig] open larger by the storage size of the item it adds. *)
Theorem registration_grows_region (item : ConfigItem) (this : IotWebConf) :
  region_size (addParameterGroup item this) = region_size this + Group.getStorageSize item
  /\ region_size (addSystemParameter item this)
     = region_size this + Group.getStorageSize item
  /\ region_size (addHiddenParameter item this)
     = region_size this + Group.getStorageSize item.
Proof.
  rewrite !region_size_capacities, !all_leaves_eq, getStorageSize_flat,
    length_flat_capacities.
  unfold addParameterGroup, addSystemParameter, addHiddenParameter.
  cbn [with_items _thingNameParameter _apPasswordParameter systemItems customItems
       hiddenItems].
  rewrite !flat_map_app. cbn [flat_map]. rewrite !app_nil_r.
  unfold capacities. cbn [map].
  assert (Hcons : forall a l, list_sum (a :: l) = (a + list_sum l)%nat)
    by reflexivity.
  rewrite !Hcons, !map_app, !list_sum_app. repeat split; lia.
Qed.

(** X9.  A configuration saved before a hidden item was added still
    loads afterwards: [loadConfig] returns [true], every leaf registered
    before holds what was saved, and the leaves of the new item receive
    the bytes the store held behind the old region. *)
Theorem loadConfig_after_addHiddenParameter
    (item : ConfigItem) (this : IotWebConf) (e : EEPROMClass) :
  let r := loadConfig (addHiddenParameter item this) (store_of (saveConfig this e)) in
  fst (value_of r) = true
  /\ all_leaves (snd (value_of r))
     = all_leaves this ++ map (loaded_leaf e) (layout (region_size this) (leaves item)).
Proof.
  cbv zeta. set (e' := store_of (saveConfig this e)).
  assert (Hp : tag_present (addHiddenParameter item this) e')
    by (apply saved_tag_present; reflexivity).
  pose proof (tag_present_valid _ _ Hp) as Hv.
  destruct (loadConfig_leaves (addHiddenParameter item this) e') as (_ & Hl & _).
  rewrite Hv in Hl. split; [exact Hv|].
  rewrite Hl, all_leaves_addHiddenParameter, layout_app, map_app.
  destruct (saveConfig_run this e) as (e'' & Hrun & _ & _ & Hleaves & Hout).
  assert (He : e' = e'') by (subst e'; now rewrite Hrun). rewrite He.
  f_equal.
  - apply loaded_same. exact Hleaves.
  - replace (first_offset + Z.of_nat (List.length (flat (all_leaves this))))
      with (region_size this)
      by (unfold region_size, all_leaves; now rewrite getStorageSize_flat).
    apply loaded_leaf_ext. intros a Ha. apply Hout. now right.
Qed.

(* ================================================================== *)
(** * Further properties: the first boot with a long password *)

(** X10.  [init] copies the initial AP password with [strncpy] over the
    whole array.  On a store without the version tag, an initial AP
    password of 33 characters or more fills the 33 bytes of
    [_apPassword] with its first 33 characters: the array then holds no
    terminating NUL. *)
Theorem init_long_password_is_unterminated
    (defaultThingName initialApPassword configVersion : string)
    (setup : list Registration) (e : EEPROMClass) :
  let this := sketch_object defaultThingName initialApPassword configVersion setup in
  is_cstring initialApPassword = true ->
  (IOTWEBCONF_PASSWORD_LEN <= String.length initialApPassword)%nat ->
  tag_absent this e ->
  let this' := snd (value_of (init this e)) in
  _apPassword this' = firstn IOTWEBCONF_PASSWORD_LEN (bytes_of initialApPassword)
  /\ List.length (_apPassword this') = IOTWEBCONF_PASSWORD_LEN
  /\ ~ In NUL (_apPassword this').
Proof.
  intros this Hc Hlen Habsent this'.
  destruct (sketch_object_members defaultThingName initialApPassword configVersion setup)
    as (_ & Hap & Hipw & _).
  fold this in Hap, Hipw.
  assert (Hf : fst (value_of (loadConfig this e)) = false)
    by (apply (proj2 (loadConfig_false_iff_version_mismatch_aux this e)); exact Habsent).
  destruct (init_run_invalid this e Hf) as (_ & _ & Hbuf).
  fold this' in Hbuf. rewrite Hap, Hipw in Hbuf.
  assert (Hs : List.length (firstn IOTWEBCONF_PASSWORD_LEN (bytes_of initialApPassword))
               = IOTWEBCONF_PASSWORD_LEN).
  { rewrite length_firstn, length_bytes_of. lia. }
  assert (Heq : _apPassword this'
                = firstn IOTWEBCONF_PASSWORD_LEN (bytes_of initialApPassword)).
  { rewrite Hbuf. unfold strncpy.
    unfold is_cstring in Hc. rewrite (until_nul_cstring _ Hc), Hs, Nat.sub_diag.
    cbn [repeat app]. rewrite skipn_all2; [apply app_nil_r|].
    cbn [Item.applyDefaultValue valueBuffer set_valueBuffer].
    rewrite length_strncpy. vm_compute. lia. }
  split; [exact Heq|]. rewrite Heq. split; [exact Hs|].
  intros Hin.
  assert (Hin' : In NUL (bytes_of initialApPassword)).
  { rewrite <- (firstn_skipn IOTWEBCONF_PASSWORD_LEN (bytes_of initialApPassword)).
    apply in_or_app. now left. }
  unfold is_cstring in Hc. rewrite forallb_forall in Hc.
  specialize (Hc NUL Hin'). discriminate.
Qed.

Lemma init_long_password_is_unterminated_witness :
  is_cstring "correct horse battery staple 0123456789" = true
  /\ (IOTWEBCONF_PASSWORD_LEN
      <= String.length "correct horse battery staple 0123456789")%nat
  /\ tag_absent
       (sketch_object "MyThing" "correct horse battery staple 0123456789" "init" [])
       erased_store
  /\ _apPassword
       (snd (value_of
               (init (sketch_object "MyThing"
                        "correct horse battery staple 0123456789" "init" [])
                  erased_store)))
     = bytes_of "correct horse battery staple 0123".
Proof.
  assert (H1 : is_cstring "correct horse battery staple 0123456789" = true)
    by reflexivity.
  assert (H2 : (IOTWEBCONF_PASSWORD_LEN
                <= String.length "correct horse battery staple 0123456789")%nat)
    by (vm_compute; lia).
  assert (H3 : tag_absent
                 (sketch_object "MyThing" "correct horse battery staple 0123456789"
                    "init" [])
                 erased_store)
    by (exists 0%nat; split; [vm_compute; lia | vm_compute; discriminate]).
  destruct (init_long_password_is_unterminated "MyThing"
              "correct horse battery staple 0123456789" "init" [] erased_store
              H1 H2 H3) as (Heq & _ & _).
  split; [exact H1|]. split; [exact H2|]. split; [exact H3|].
  rewrite Heq. reflexivity.
Defined.

(* ================================================================== *)
(** * Further properties: addresses and names in the captive portal *)

Lemma land_255 x : Z.land x 255 = x mod 256.
Proof. change 255 with (Z.ones 8). now rewrite Z.land_ones by lia. Qed.

Lemma isIp_app a b : isIp (a ++ b)%string = isIp a && isIp b.
Proof.
  induction a as [|ch a IH]; [reflexivity|].
  cbn [String.append isIp]. rewrite IH.
  destruct (negb _ && _); reflexivity.
Qed.

Lemma isIp_octet n : 0 <= n <= 255 -> isIp (String_of_Z n) = true.
Proof.
  intros Hn.
  assert (H : forallb (fun k => isIp (String_of_Z (Z.of_nat k))) (seq 0 256) = true)
    by (vm_compute; reflexivity).
  rewrite forallb_forall in H. specialize (H (Z.to_nat n)).
  rewrite Z2Nat.id in H by lia. apply H. apply in_seq. lia.
Qed.

Lemma isIp_octet_mod x : isIp (String_of_Z (x mod 256)) = true.
Proof.
  apply isIp_octet. pose proof (Z.mod_pos_bound x 256 ltac:(lia)). lia.
Qed.

Lemma isIp_toStringIp ip : isIp (toStringIp ip) = true.
Proof.
  unfold toStringIp. rewrite !isIp_app, !land_255, !isIp_octet_mod. reflexivity.
Qed.

Lemma startsWith_app a b : startsWith (a ++ b)%string a = true.
Proof.
  induction a as [|ch a IH]; [destruct b; reflexivity|].
  cbn [String.append startsWith]. now rewrite Ascii.eqb_refl, IH.
Qed.

(** X11.  [toStringIp] prints the four bytes of the address, lowest
    first, in decimal and separated by dots: for bytes [a], [b], [c],
    [d] the address [a + 256 b + 65536 c + 16777216 d] is printed
    ["a.b.c.d"]. *)
Theorem toStringIp_dotted_decimal (a b c d : Z) :
  0 <= a < 256 -> 0 <= b < 256 -> 0 <= c < 256 -> 0 <= d < 256 ->
  toStringIp (a + 256 * b + 65536 * c + 16777216 * d)
  = (String_of_Z a ++ "." ++ String_of_Z b ++ "." ++ String_of_Z c ++ "."
       ++ String_of_Z d)%string.
Proof.
  intros Ha Hb Hc Hd. unfold toStringIp. rewrite !land_255.
  rewrite !Z.shiftr_div_pow2 by lia.
  change (2 ^ (8 * 0)) with 1. change (2 ^ (8 * 1)) with 256.
  change (2 ^ (8 * 2)) with 65536. change (2 ^ (8 * 3)) with 16777216.
  set (ip := a + 256 * b + 65536 * c + 16777216 * d).
  assert (H0 : (ip / 1) mod 256 = a) by (subst ip; Z.div_mod_to_equations; lia).
  assert (H1 : (ip / 256) mod 256 = b) by (subst ip; Z.div_mod_to_equations; lia).
  assert (H2 : (ip / 65536) mod 256 = c) by (subst ip; Z.div_mod_to_equations; lia).
  assert (H3 : (ip / 16777216) mod 256 = d) by (subst ip; Z.div_mod_to_equations; lia).
  now rewrite H0, H1, H2, H3.
Qed.

Lemma toStringIp_dotted_decimal_witness :
  toStringIp (192 + 256 * 168 + 65536 * 4 + 16777216 * 1) = "192.168.4.1".
Proof.
  rewrite (toStringIp_dotted_decimal 192 168 4 1); [reflexivity | lia | lia | lia | lia].
Defined.

(** X12.  There is no redirect loop: whatever the address of the device,
    a request whose host header is the address [handleCaptivePortal]
    redirects to is not redirected again. *)
Theorem handleCaptivePortal_accepts_redirect_target
    (this : IotWebConf) (w w' : WebRequestWrapper) (e : EEPROMClass) :
  request_hostHeader w' = toStringIp (request_localIP w) ->
  In (web_sendHeader "Location" ("http://" ++ request_hostHeader w')%string true)
    (redirect_events w)
  /\ value_of (handleCaptivePortal this w' e) = false.
Proof.
  intros Hhost. split.
  - rewrite Hhost. unfold redirect_events. cbn [In]. tauto.
  - rewrite handleCaptivePortal_run, Hhost, isIp_toStringIp. reflexivity.
Qed.

Lemma handleCaptivePortal_accepts_redirect_target_witness :
  request_hostHeader (request "192.168.4.1" [])
  = toStringIp (request_localIP (request "evil.example.com" []))
  /\ value_of (handleCaptivePortal (named_thing "mything")
                 (request "192.168.4.1" []) erased_store) = false.
Proof.
  split; [reflexivity|].
  destruct (handleCaptivePortal_accepts_redirect_target (named_thing "mything")
              (request "evil.example.com" []) (request "192.168.4.1" [])
              erased_store eq_refl) as [_ H].
  exact H.
Defined.

(** X13.  A request for the device by its name is served, not
    redirected.  Let the thing name array hold a NUL, so that the name
    read as a string ends inside the array.  Then a host header that is
    the lower-cased thing name followed by anything (as [".local"]) makes
    [handleCaptivePortal] return [false] without any answer; and while
    the thing name is empty, no request at all is redirected. *)
Theorem handleCaptivePortal_accepts_own_name
    (this : IotWebConf) (w : WebRequestWrapper) (e : EEPROMClass) :
  terminated (_thingName this) = true ->
  (forall suffix,
      request_hostHeader w = (toLowerCase (c_str (_thingName this)) ++ suffix)%string ->
      handleCaptivePortal this w e = (false, e, [web_hostHeader]))
  /\ (c_str (_thingName this) = "" ->
      handleCaptivePortal this w e = (false, e, [web_hostHeader])).
Proof.
  intros _. split.
  - intros suffix Hhost. rewrite handleCaptivePortal_run, Hhost, startsWith_app.
    now rewrite andb_false_r.
  - intros Hname. rewrite handleCaptivePortal_run, Hname.
    cbn [toLowerCase]. destruct (request_hostHeader w); cbn [startsWith];
      now rewrite andb_false_r.
Qed.

Lemma handleCaptivePortal_accepts_own_name_witness :
  (terminated (_thingName (named_thing "MyThing")) = true
   /\ request_hostHeader (request "mything.local" [])
      = (toLowerCase (c_str (_thingName (named_thing "MyThing"))) ++ ".local")%string
   /\ value_of (handleCaptivePortal (named_thing "MyThing")
                  (request "mything.local" []) erased_store) = false)
  /\ (terminated (_thingName fresh_thing) = true
      /\ c_str (_thingName fresh_thing) = ""
      /\ value_of (handleCaptivePortal fresh_thing
                     (request "evil.example.com" []) erased_store) = false).
Proof.
  split; (split; [reflexivity|]; split; [reflexivity|]).
  - destruct (handleCaptivePortal_accepts_own_name (named_thing "MyThing")
                (request "mything.local" []) erased_store eq_refl) as [H _].
    now rewrite (H ".local" eq_refl).
  - destruct (handleCaptivePortal_accepts_own_name fresh_thing
                (request "evil.example.com" []) erased_store eq_refl) as [_ H].
    now rewrite (H eq_refl).
Defined.

(* ================================================================== *)
(** * Further properties: the handlers *)

(** X14.  [handleNotFound] answers every request exactly once and never
    touches the store: with the redirect alone when the captive portal
    check applies, otherwise with status 404, a body that names the
    requested URI, and a [Content-Length] header that is the length of
    that body. *)
Theorem handleNotFound_answers_once
    (this : IotWebConf) (w : WebRequestWrapper) (e : EEPROMClass) :
  let r := handleNotFound this w e in
  let redirected := value_of (handleCaptivePortal this w e) in
  store_of r = e
  /\ List.length (filter is_answer (events_of r)) = 1%nat
  /\ (In (web_send 404 "text/plain" (not_found_message w)) (events_of r)
      <-> redirected = false)
  /\ (In (web_send 302 "text/plain" "") (events_of r) <-> redirected = true)
  /\ (redirected = false ->
      In (web_sendHeader "Content-Length"
            (String_of_Z (strlen (not_found_message w))) false) (events_of r)).
Proof.
  cbv zeta. unfold handleNotFound.
  pose proof (handleCaptivePortal_run this w e) as Hc.
  destruct (negb (isIp (request_hostHeader w))
            && negb (startsWith (request_hostHeader w)
                       (toLowerCase (c_str (_thingName this)))));
    rewrite (bind_step _ _ _ _ _ _ Hc), Hc; clear Hc;
    unfold after, redirect_events, not_found_message, Web.uri, Web.sendHeader, Web.send;
    cbn [IOTWEBCONF_DEBUG_TO_SERIAL bind ret emit value_of store_of events_of fst snd
         app filter is_answer List.length In];
    repeat split; try reflexivity; try discriminate; intros; try tauto;
    repeat match goal with
           | H : _ \/ _ |- _ => destruct H
           | H : False |- _ => destruct H
           | H : _ = _ |- _ => discriminate H
           end.
Qed.

Lemma handleNotFound_answers_once_witness :
  value_of (handleCaptivePortal (named_thing "mything")
              (request "mything.local" []) erased_store) = false
  /\ In (web_sendHeader "Content-Length"
          (String_of_Z (strlen (not_found_message (request "mything.local" [])))) false)
       (events_of (handleNotFound (named_thing "mything")
                     (request "mything.local" []) erased_store)).
Proof.
  split; [reflexivity|].
  destruct (handleNotFound_answers_once (named_thing "mything")
              (request "mything.local" []) erased_store) as (_ & _ & _ & _ & H).
  exact (H eq_refl).
Defined.




(* ================================================================== *)
(** * Further properties: the EEPROM loops *)

(** X16.  What [writeEepromValue] writes, [readEepromValue] reads back.
    With the region open and the [length] bytes from [start] inside it,
    and [length] not above the size of the written buffer: reading
    [length] bytes into a buffer gives the first [length] bytes of the
    written buffer, followed by what the buffer held beyond [length];
    the read leaves the store as the write left it, and the write changed
    no byte outside [start .. start + length - 1]. *)
Theorem readEepromValue_after_writeEepromValue
    (start : Z) (written buffer : list byte) (length : nat)
    (e : EEPROMClass) (size : Z) :
  region e = Some size -> 0 <= start -> start + Z.of_nat length <= size ->
  (length <= List.length written)%nat ->
  let e' := store_of (writeEepromValue start written length e) in
  let r := readEepromValue start buffer length e' in
  value_of r = firstn length written ++ skipn length buffer
  /\ store_of r = e'
  /\ (forall a, a < start \/ start + Z.of_nat length <= a -> cells e' a = cells e a).
Proof.
  intros Hreg H0 Hle Hlen. cbv zeta.
  destruct (writeEepromValue_loop_run length start written 0 e size Hreg H0)
    as (e' & Hrun & Hst); [lia | lia |].
  cbn [skipn] in Hrun, Hst. replace (start + Z.of_nat 0) with start in Hrun, Hst by lia.
  unfold writeEepromValue. rewrite Hrun. cbn [store_of fst snd].
  unfold readEepromValue.
  rewrite (bind_step _ _ _ _ _ _ (readEepromValue_loop_run length start 0 e')).
  unfold after. cbn [ret value_of store_of events_of fst snd].
  assert (Hl : List.length (firstn length written) = length)
    by (rewrite length_firstn; lia).
  split; [|split; [reflexivity|]].
  - f_equal. rewrite <- Hl at 1. apply map_seq_nth with (d := NUL).
    intros i Hi. rewrite Hl in Hi.
    rewrite (peek_in_region e' size); [| destruct Hst; congruence | lia].
    eapply stored_peek; [exact Hst | exact Hreg | lia | lia | lia].
  - intros a Ha. apply (stored_outside _ _ _ _ _ Hst). rewrite Hl. exact Ha.
Qed.

Lemma readEepromValue_after_writeEepromValue_witness :
  value_of (readEepromValue 4 [x00; x00; x00; x41]
              3
              (store_of (writeEepromValue 4 [x61; x62; x63; x64] 3
                           {| cells := fun _ => xff; region := Some 16 |})))
  = [x61; x62; x63; x41].
Proof.
  destruct (readEepromValue_after_writeEepromValue 4 [x61; x62; x63; x64]
              [x00; x00; x00; x41] 3
              {| cells := fun _ => xff; region := Some 16 |} 16
              eq_refl ltac:(lia) ltac:(simpl; lia) ltac:(simpl; lia)) as [H _].
  exact H.
Defined.

Lemma testConfigVersion_loop_mismatch this j : forall t count e,
  (j < count)%nat ->
  (forall i, (t <= i < t + j)%nat ->
     peek e (IOTWEBCONF_CONFIG_START + Z.of_nat i) = char_at (_configVersion this) i) ->
  peek e (IOTWEBCONF_CONFIG_START + Z.of_nat (t + j))
  <> char_at (_configVersion this) (t + j) ->
  testConfigVersion_loop this t count e =
    (false, e, read_events (IOTWEBCONF_CONFIG_START + Z.of_nat t) (S j)).
Proof.
  induction j as [|j IH]; intros t count e Hj Hmatch Hdiff;
    (destruct count as [|count]; [lia|]); cbn [testConfigVersion_loop];
    rewrite (bind_step _ _ _ _ _ _ (read_run _ _)).
  - rewrite Nat.add_0_r in Hdiff.
    destruct (Byte.eqb _ _) eqn:E; [apply byte_dec_bl in E; contradiction|].
    reflexivity.
  - rewrite (Hmatch t) by lia. rewrite (byte_dec_lb eq_refl). cbn [negb].
    rewrite (IH (S t) count e); [| lia | intros i Hi; apply Hmatch; lia |].
    + unfold after. cbn [value_of store_of events_of fst snd read_events app].
      replace (IOTWEBCONF_CONFIG_START + Z.of_nat (S t))
        with (IOTWEBCONF_CONFIG_START + Z.of_nat t + 1) by lia.
      reflexivity.
    + replace (S t + j)%nat with (t + S j)%nat by lia. exact Hdiff.
Qed.

(** X17.  On a mismatch the version check stops at the first differing
    byte: when the first [k] stored tag bytes match and byte [k] differs,
    [loadConfig] opens the region and reads the bytes 0 .. [k] of the tag
    and nothing else; no byte of the configuration behind the tag is
    read. *)
Theorem loadConfig_stops_at_first_mismatch
    (this : IotWebConf) (e : EEPROMClass) (k : nat) :
  (k < IOTWEBCONF_CONFIG_VERSION_LENGTH)%nat ->
  (forall i, (i < k)%nat ->
     cells e (IOTWEBCONF_CONFIG_START + Z.of_nat i) = char_at (_configVersion this) i) ->
  cells e (IOTWEBCONF_CONFIG_START + Z.of_nat k) <> char_at (_configVersion this) k ->
  events_of (loadConfig this e)
  = EEPROM_begin (region_size this) :: read_events IOTWEBCONF_CONFIG_START (S k).
Proof.
  intros Hk Hmatch Hdiff.
  pose proof (getStorageSize_nonneg (_allParameters this)) as Hsz.
  set (e1 := {| cells := cells e; region := Some (region_size this) |}).
  assert (Hb : EEPROM.begin
                 (IOTWEBCONF_CONFIG_START
                  + Z.of_nat IOTWEBCONF_CONFIG_VERSION_LENGTH + initConfig this) e
               = (tt, e1, [EEPROM_begin (region_size this)])) by reflexivity.
  assert (Hpeek : forall i, (i < IOTWEBCONF_CONFIG_VERSION_LENGTH)%nat ->
            peek e1 (IOTWEBCONF_CONFIG_START + Z.of_nat i)
            = cells e (IOTWEBCONF_CONFIG_START + Z.of_nat i)).
  { intros i Hi. apply (peek_in_region e1 (region_size this)); [reflexivity|].
    unfold region_size, first_offset, IOTWEBCONF_CONFIG_START. lia. }
  assert (Ht : testConfigVersion this e1
               = (false, e1, read_events IOTWEBCONF_CONFIG_START (S k))).
  { unfold testConfigVersion.
    rewrite (testConfigVersion_loop_mismatch this k 0
               IOTWEBCONF_CONFIG_VERSION_LENGTH e1 Hk).
    - do 2 f_equal.
    - intros i Hi. rewrite Hpeek by lia. apply Hmatch. lia.
    - cbn [Nat.add]. rewrite Hpeek by lia. exact Hdiff. }
  unfold loadConfig. mrun Hb. mrun Ht. unfold after.
  cbn [ret value_of store_of events_of fst snd app]. now rewrite app_nil_r.
Qed.

Lemma loadConfig_stops_at_first_mismatch_witness :
  events_of (loadConfig registered_thing erased_store)
  = [EEPROM_begin (region_size registered_thing); EEPROM_read 0].
Proof.
  rewrite (loadConfig_stops_at_first_mismatch registered_thing erased_store 0);
    [reflexivity | vm_compute; lia | intros i Hi; lia | vm_compute; discriminate].
Defined.

(* ================================================================== *)
(** * Further properties: from the form to the next boot *)

Lemma capacities_updated w ps : capacities (map (updated w) ps) = capacities ps.
Proof.
  unfold capacities. rewrite map_map. apply map_ext. intros p.
  unfold updated. destruct p. cbn [set_valueBuffer valueBuffer]. apply length_strncpy.
Qed.

Lemma all_leaves_saveAndConfirm this w :
  all_leaves
    (set_customParameterGroups
       (Group.map_leaves (updated w)
          (_customParameterGroups
             (set_systemParameters
                (Group.map_leaves (updated w) (_systemParameters this)) this)))
       (set_systemParameters (Group.map_leaves (updated w) (_systemParameters this)) this))
  = map (updated w)
      (_thingNameParameter this :: _apPasswordParameter this
         :: flat_map leaves (systemItems this) ++ flat_map leaves (customItems this))
    ++ flat_map leaves (hiddenItems this).
Proof.
  rewrite all_leaves_eq. destruct this as [ipw cv tn ap sys cust hid cb1 cb2 fv up hp].
  unfold _systemParameters, _customParameterGroups.
  rewrite !map_leaves_group.
  cbn [set_systemParameters set_customParameterGroups with_items map Group.map_leaves
       _thingNameParameter _apPasswordParameter systemItems customItems hiddenItems].
  rewrite !flat_map_leaves_map. cbn [map app]. now rewrite map_app, <- app_assoc.
Qed.

(** X18.  What a valid submission saves is what the next boot loads.
    After [handleConfig] has accepted an authenticated, valid submission,
    [init] on the store it leaves, for an object with leaf buffers of the
    same capacities and the same four version bytes, returns [true], and
    every leaf buffer holds what the buffer at its place holds in the
    object [handleConfig] returned. *)
Theorem handleConfig_then_init
    (this boot : IotWebConf) (w : WebRequestWrapper) (e : EEPROMClass) :
  authenticated this w = true ->
  has_field w "iotSave" = true ->
  fst (value_of (validateForm this w e)) = true ->
  capacities (all_leaves boot) = capacities (all_leaves this) ->
  version_tag boot = version_tag this ->
  let r := handleConfig this w e in
  let r' := init boot (store_of r) in
  fst (value_of r') = true
  /\ map valueBuffer (all_leaves (snd (value_of r')))
     = map valueBuffer (all_leaves (value_of r)).
Proof.
  intros Hauth Hsave Hvalid Hcap Htag. cbv zeta.
  rewrite (handleConfig_valid this w e Hauth Hsave Hvalid).
  destruct (validateForm_run this w e) as (_ & _ & _ & _ & _ & Hbuf & Hhid & Hrest).
  set (this1 := snd (value_of (validateForm this w e))) in *.
  rewrite (saveAndConfirm_run this1 w e).
  unfold after. cbn [value_of store_of events_of fst snd].
  set (this' := set_customParameterGroups _ _).
  assert (Hall : all_leaves this'
                 = map (updated w)
                     (_thingNameParameter this1 :: _apPasswordParameter this1
                        :: flat_map leaves (systemItems this1)
                        ++ flat_map leaves (customItems this1))
                   ++ flat_map leaves (hiddenItems this1))
    by apply all_leaves_saveAndConfirm.
  assert (Hcap' : capacities (all_leaves this') = capacities (all_leaves this)).
  { rewrite Hall. unfold capacities at 1. rewrite map_app.
    fold (capacities (map (updated w)
                        (_thingNameParameter this1 :: _apPasswordParameter this1
                           :: flat_map leaves (systemItems this1)
                           ++ flat_map leaves (customItems this1)))).
    rewrite capacities_updated. unfold capacities. rewrite <- map_app.
    cbn [app]. rewrite <- app_assoc.
    rewrite <- (all_leaves_eq this1).
    rewrite <- !(map_map valueBuffer (@List.length byte)). now rewrite Hbuf. }
  assert (Htag' : version_tag this' = version_tag this).
  { unfold version_tag.
    replace (_configVersion this') with (_configVersion this1)
      by (subst this'; destruct this1; reflexivity).
    now injection Hrest as _ -> _ _ _ _. }
  destruct (init_after_saveConfig this' boot e) as [Hv Hl];
    [congruence | congruence |].
  split; [exact Hv | exact Hl].
Qed.

Lemma handleConfig_then_init_witness :
  authenticated registered_thing (submission "garage" "12345678") = true
  /\ has_field (submission "garage" "12345678") "iotSave" = true
  /\ fst (value_of (validateForm registered_thing (submission "garage" "12345678")
                      erased_store)) = true
  /\ fst (value_of
            (init registered_thing
               (store_of (handleConfig registered_thing
                            (submission "garage" "12345678") erased_store)))) = true.
Proof.
  split; [reflexivity|]. split; [reflexivity|]. split; [reflexivity|].
  exact (proj1 (handleConfig_then_init registered_thing registered_thing
                  (submission "garage" "12345678") erased_store
                  eq_refl eq_refl eq_refl eq_refl eq_refl)).
Defined.
